(** * Event handlers of taskcluster-github: a shallow embedding of
    [src/handlers.js] and the properties of its three message handlers.

    The handlers are asynchronous JavaScript functions that talk to GitHub,
    to the Taskcluster queue and to two Azure tables.  They are embedded as
    functions in a state-and-exception monad over a [World] that records
    what the collaborators have been asked to do (comments, check-runs,
    submitted tasks) and what the two tables hold.  The answers of the
    collaborators are inputs of a run: they are fields of the records
    [InstGithub], [Context], [Imports] and [Handlers]. *)

From stdpp Require Import gmap strings list fin_maps pretty.
From Stdlib Require Import String Ascii.

Local Open Scope string_scope.

(** ** JavaScript values the handlers look at *)

Module Js.

(** [e.code] is compared with the number 404 and with the string
    'EntityAlreadyExists' by strict (in)equality, so a number and a string
    are kept apart. *)
Inductive Code :=
| CodeUndefined
| CodeNumber (n : Z)
| CodeString (s : string).

(** [error.body.error]: absent, a string, or an object.  An object is
    carried by what [JSON.stringify(o, null, 4)] prints for it. *)
Inductive BodyError :=
| BodyString (s : string)
| BodyObject (stringified : string).

Record Error := {
  name : string;
  code : Code;
  message : string;
  stack : string;
  body_error : option BodyError;
}.

Definition TypeError (msg : string) : Error :=
  {| name := "TypeError"; code := CodeUndefined; message := msg;
     stack := "TypeError: " ++ msg; body_error := None |}.

Definition ReferenceError (variable : string) : Error :=
  {| name := "ReferenceError"; code := CodeUndefined;
     message := variable ++ " is not defined";
     stack := "ReferenceError: " ++ variable ++ " is not defined";
     body_error := None |}.

Definition AssertionError (msg : string) : Error :=
  {| name := "AssertionError [ERR_ASSERTION]"; code := CodeString "ERR_ASSERTION";
     message := msg; stack := "AssertionError [ERR_ASSERTION]: " ++ msg;
     body_error := None |}.

(** Truthiness of a string that may be [undefined]. *)
Definition truthy (v : option string) : bool :=
  match v with
  | None => false
  | Some s => negb (String.eqb s EmptyString)
  end.

(** Truthiness of a number that may be [undefined]. *)
Definition truthyNumber (v : option Z) : bool :=
  match v with
  | None => false
  | Some n => negb (Z.eqb n 0)
  end.

(** A value that may be [undefined], inside a template literal. *)
Definition show (v : option string) : string :=
  match v with
  | None => "undefined"
  | Some s => s
  end.

(** [s.replace(/%/g, '.')] *)
Fixpoint replacePercent (s : string) : string :=
  match s with
  | EmptyString => EmptyString
  | String c rest =>
      String (if Ascii.eqb c "%"%char then "."%char else c) (replacePercent rest)
  end.

(** [s.split('.')[0]] *)
Fixpoint beforeDot (s : string) : string :=
  match s with
  | EmptyString => EmptyString
  | String c rest =>
      if Ascii.eqb c "."%char then EmptyString else String c (beforeDot rest)
  end.

Definition startsWith (s p : string) : bool := String.prefix p s.

(** [_.endsWith(s, suffix)] *)
Definition endsWith (s suffix : string) : bool :=
  let n := String.length s in
  let k := String.length suffix in
  (k <=? n)%nat && String.eqb (String.substring (n - k) k s) suffix.

(** [s.split(sep)[1] || s]: the text between the first and the second
    occurrence of [sep], when there is a first occurrence and that text is
    not empty. *)
Definition secondPieceOr (s sep : string) : string :=
  match String.index 0 sep s with
  | None => s
  | Some i =>
      let rest :=
        String.substring (i + String.length sep)
          (String.length s - (i + String.length sep)) s in
      let piece :=
        match String.index 0 sep rest with
        | None => rest
        | Some j => String.substring 0 j rest
        end in
      if String.eqb piece EmptyString then s else piece
  end.

(** [lines.join('\n')] *)
Fixpoint joinLines (lines : list string) : string :=
  match lines with
  | [] => EmptyString
  | [l] => l
  | l :: rest => l ++ String "010"%char (joinLines rest)
  end.

End Js.

(** ** Records kept in the two tables, and the requests sent out *)

Definition Time := nat.

Record Build := {
  b_organization : string;
  b_repository : string;
  b_sha : string;
  b_taskGroupId : string;
  b_state : string;
  b_created : Time;
  b_updated : Time;
  b_installationId : Z;
  b_eventType : string;
  b_eventId : string;
}.

Record CheckRun := {
  c_taskGroupId : string;
  c_taskId : string;
  c_checkSuiteId : string;
  c_checkRunId : string;
}.

(** A task as the queue lists it: only [task.status.state] is read. *)
Record ListedTask := { status_state : string }.

Record TaskGroupPage := {
  tasks_of_page : list ListedTask;
  continuationToken : option string;
}.

(** What the config compiler returns: [{scopes, tasks: [{taskId, task}]}].
    Of a task definition the handlers read [taskGroupId]; the rest of the
    definition is passed on untouched. *)
Record TaskDefinition := {
  taskGroupId : string;
  definition_rest : string;
}.

Record GraphTask := {
  taskId : string;
  task : TaskDefinition;
}.

Record GraphConfig := {
  scopes : list string;
  tasks : list GraphTask;
}.

Record IssueComment := {
  ic_owner : string;
  ic_repo : string;
  ic_number : option Z;
  ic_body : string;
}.

Record CommitComment := {
  cc_owner : string;
  cc_repo : string;
  cc_sha : string;
  cc_body : string;
}.

Record CheckCreate := {
  cr_owner : string;
  cr_repo : string;
  cr_name : string;
  cr_head_sha : string;
  cr_output_title : string;
  cr_output_summary : string;
  cr_details_url : string;
  cr_status : string;
  cr_conclusion : option string;
  cr_completed_at : option string;
}.

Record CheckUpdate := {
  cu_owner : string;
  cu_repo : string;
  cu_check_run_id : string;
  cu_status : string;
  cu_conclusion : option string;
  cu_completed_at : string;
}.

Record CheckCreated := {
  check_suite_id : N;
  id : N;
}.

(** ** The world a handler runs in *)

Record World := {
  issueComments : list IssueComment;
  commitComments : list CommitComment;
  checkRunsCreated : list CheckCreate;
  checkRunsUpdated : list CheckUpdate;
  tasksCreated : list (list string * string * TaskDefinition);
  Builds : gmap string Build;
  CheckRuns : gmap (string * string) CheckRun;
  clock : Time;
}.

(** ** Completions and the monad of handler bodies *)

Inductive Completion (A : Type) :=
| Normal (a : A)
| Return
| Throw (e : Js.Error).
Arguments Normal {A} a.
Arguments Return {A}.
Arguments Throw {A} e.

Definition Act (A : Type) := World -> Completion A * World.

Definition ret {A} (a : A) : Act A := fun w => (Normal a, w).
Definition throw {A} (e : Js.Error) : Act A := fun w => (Throw e, w).
Definition returnNow {A} : Act A := fun w => (Return, w).

Definition bind {A B} (m : Act A) (k : A -> Act B) : Act B :=
  fun w =>
    match m w with
    | (Normal a, w') => k a w'
    | (Return, w') => (Return, w')
    | (Throw e, w') => (Throw e, w')
    end.

Notation "x <- m ;; k" := (bind m (fun x => k))
  (at level 100, m at next level, right associativity).
Notation "m ;;; k" := (bind m (fun _ => k))
  (at level 100, right associativity).

(** [try { body } catch (e) { handler }] *)
Definition tryCatch {A} (body : Act A) (handler : Js.Error -> Act A) : Act A :=
  fun w =>
    match body w with
    | (Throw e, w') => handler e w'
    | r => r
    end.

(** The answer of a collaborator: a value or a rejection. *)
Inductive Answer (A : Type) :=
| Resolved (a : A)
| Rejected (e : Js.Error).
Arguments Resolved {A} a.
Arguments Rejected {A} e.

(** [await] of an answer that leaves the world as it is. *)
Definition await {A} (r : Answer A) : Act A :=
  match r with
  | Resolved a => ret a
  | Rejected e => throw e
  end.

(** An async function called as a handler: what the caller of
    [handler.call(this, message)] sees. *)
Definition settle {A} (body : Act A) : World -> Answer unit * World :=
  fun w =>
    match body w with
    | (Normal _, w') => (Resolved tt, w')
    | (Return, w') => (Resolved tt, w')
    | (Throw e, w') => (Rejected e, w')
    end.

(** [new Date()]: time is read from the world; the time that passes while a
    handler is suspended is not represented. *)
Definition newDate : Act Time := fun w => (Normal (clock w), w).

(** ** Messages *)

Record Details := {
  event_head_sha : option string;
  event_pullNumber : option Z;
  event_version : option string;
  event_type : string;
  event_head_user_login : option string;
}.

(** [message.payload] of a job message. *)
Record Payload := {
  installationId : Z;
  organization : string;
  repository : string;
  eventId : string;
  details : Details;
}.

(** [message.payload.status] of a task message. *)
Record StatusMessage := {
  sm_taskGroupId : string;
  sm_taskId : string;
  sm_state : string;
}.

(** [message.payload] of a task-group-resolved message. *)
Record GroupMessage := { gm_taskGroupId : string }.

(** ** Collaborators *)

(** The client [getInstallationGithub] resolves to. *)
Record InstGithub := {
  repos_getShaOfCommitRef : string -> string -> string -> Answer string;
  repos_getContent : string -> string -> string -> string -> Answer string;
  issues_createComment : IssueComment -> Answer unit;
  repos_createCommitComment : CommitComment -> Answer unit;
  checks_create : CheckCreate -> Answer CheckCreated;
  checks_update : CheckUpdate -> Answer unit;
}.

(** Operations on the two tables, for the faults of the storage service. *)
Inductive TableOp :=
| LoadBuild (key : string)
| CreateBuild (b : Build)
| ModifyBuild (key : string)
| LoadCheckRun (key : string * string)
| CreateCheckRun (c : CheckRun).

(** [this.context] *)
Record Context := {
  github_getInstallationGithub : Z -> Answer InstGithub;
  cfg_app_statusContext : string;
  tableFault : TableOp -> option Js.Error;
}.

(** What the module imports and the runtime provide. *)
Record Imports := {
  yaml_safeLoad : string -> Answer unit;
  prAllowed : option string -> string -> string -> Payload -> Answer bool;
  Queue_createTask : list string -> string -> TaskDefinition -> Answer unit;
  Queue_listTaskGroup : string -> option string -> Answer TaskGroupPage;
  Buffer_base64_toString : string -> string;
  toISOString : Time -> string;
}.

(** A [Handlers] instance, as far as the handlers read it.  [own_Builds] is
    the value of the property [this.Builds]: [None] when the instance has
    no such property, otherwise an object with a [load] method. *)
Record Handlers := {
  context : Context;
  intree : string -> Payload -> Answer GraphConfig;
  own_Builds : option (string -> Act Build);
}.

(** The constructor (lines 36-57) assigns rootUrl, credentials, monitor,
    reference, intree, connection, the three listeners, the two queue
    names, context, handlerComplete and handlerRejected.  Neither it nor
    any method assigns a property [Builds]. *)
Definition constructor (intree : string -> Payload -> Answer GraphConfig)
    (context : Context) : Handlers :=
  {| context := context; intree := intree; own_Builds := None |}.

(** ** The two tables *)

Definition ResourceNotFound : Js.Error :=
  {| Js.name := "ResourceNotFoundError"; Js.code := Js.CodeString "ResourceNotFound";
     Js.message := "Resource not found"; Js.stack := "ResourceNotFoundError";
     Js.body_error := None |}.

Definition EntityAlreadyExists : Js.Error :=
  {| Js.name := "EntityAlreadyExistsError"; Js.code := Js.CodeString "EntityAlreadyExists";
     Js.message := "Entity already exists"; Js.stack := "EntityAlreadyExistsError";
     Js.body_error := None |}.

Definition setBuilds (m : gmap string Build) (w : World) : World :=
  {| issueComments := issueComments w; commitComments := commitComments w;
     checkRunsCreated := checkRunsCreated w; checkRunsUpdated := checkRunsUpdated w;
     tasksCreated := tasksCreated w; Builds := m; CheckRuns := CheckRuns w;
     clock := clock w |}.

Definition setCheckRuns (m : gmap (string * string) CheckRun) (w : World) : World :=
  {| issueComments := issueComments w; commitComments := commitComments w;
     checkRunsCreated := checkRunsCreated w; checkRunsUpdated := checkRunsUpdated w;
     tasksCreated := tasksCreated w; Builds := Builds w; CheckRuns := m;
     clock := clock w |}.

(** [Builds.load({taskGroupId})] *)
Definition Builds_load (ctx : Context) (key : string) : Act Build :=
  fun w =>
    match tableFault ctx (LoadBuild key) with
    | Some e => (Throw e, w)
    | None =>
        match Builds w !! key with
        | Some b => (Normal b, w)
        | None => (Throw ResourceNotFound, w)
        end
    end.

(** [Builds.create(fields)] *)
Definition Builds_create (ctx : Context) (b : Build) : Act unit :=
  fun w =>
    match tableFault ctx (CreateBuild b) with
    | Some e => (Throw e, w)
    | None =>
        match Builds w !! b_taskGroupId b with
        | Some _ => (Throw EntityAlreadyExists, w)
        | None => (Normal tt, setBuilds (<[b_taskGroupId b := b]> (Builds w)) w)
        end
    end.

(** [build.modify(modifier)]: the modifier is applied to the record the
    table holds under the key and the outcome is stored. *)
Definition Builds_modify (ctx : Context) (key : string)
    (modifier : Build -> Act Build) : Act unit :=
  fun w =>
    match tableFault ctx (ModifyBuild key) with
    | Some e => (Throw e, w)
    | None =>
        match Builds w !! key with
        | None => (Throw ResourceNotFound, w)
        | Some b =>
            match modifier b w with
            | (Normal b', w') => (Normal tt, setBuilds (<[key := b']> (Builds w')) w')
            | (Return, w') => (Return, w')
            | (Throw e, w') => (Throw e, w')
            end
        end
    end.

(** [CheckRuns.load({taskGroupId, taskId})] *)
Definition CheckRuns_load (ctx : Context) (key : string * string) : Act CheckRun :=
  fun w =>
    match tableFault ctx (LoadCheckRun key) with
    | Some e => (Throw e, w)
    | None =>
        match CheckRuns w !! key with
        | Some c => (Normal c, w)
        | None => (Throw ResourceNotFound, w)
        end
    end.

(** [CheckRuns.create(fields)] *)
Definition CheckRuns_create (ctx : Context) (c : CheckRun) : Act unit :=
  fun w =>
    match tableFault ctx (CreateCheckRun c) with
    | Some e => (Throw e, w)
    | None =>
        match CheckRuns w !! (c_taskGroupId c, c_taskId c) with
        | Some _ => (Throw EntityAlreadyExists, w)
        | None =>
            (Normal tt,
             setCheckRuns (<[(c_taskGroupId c, c_taskId c) := c]> (CheckRuns w)) w)
        end
    end.

(** ** Constants of the module (lines 9-27) *)

Definition INSPECTOR_URL : string := "https://tools.taskcluster.net/task-group-inspector/#/".

Definition TITLES (key : string) : option string :=
  if String.eqb key "success" then Some "Success"
  else if String.eqb key "failure" then Some "Failure"
  else if String.eqb key "neutral" then Some "It is neither good nor bad"
  else if String.eqb key "cancelled" then Some "Cancelled"
  else if String.eqb key "timed_out" then Some "Timed out"
  else if String.eqb key "action_required" then Some "Action required"
  else if String.eqb key "queued" then Some "Queued"
  else if String.eqb key "in_progress" then Some "In progress"
  else if String.eqb key "completed" then Some "Completed"
  else None.

Definition CONCLUSIONS (key : string) : option string :=
  if String.eqb key "completed" then Some "success"
  else if String.eqb key "failed" then Some "failure"
  else if String.eqb key "exception" then Some "failure"
  else None.

(** ** groupStatusHandler (lines 188-220) *)

(** [_.includes(['failed', 'exception'], state)] *)
Definition includes (l : list string) (x : string) : bool :=
  existsb (String.eqb x) l.

(** The [forEach] of lines 207-211, on the running [groupState]. *)
Definition scanTasks (tasks : list ListedTask) (groupState : string) : string :=
  fold_left
    (fun gs t => if includes ["failed"; "exception"] (status_state t) then "failure" else gs)
    tasks groupState.

(** The do-while loop of lines 204-212.  [token] is
    [params.continuationToken]; [None] from [fuel] means that the loop has
    not ended within [fuel] requests. *)
Fixpoint listLoop (X : Imports) (fuel : nat) (taskGroupId : string)
    (token : option string) (groupState : string) : option (Answer string) :=
  match fuel with
  | O => None
  | S fuel' =>
      match Queue_listTaskGroup X taskGroupId token with
      | Rejected e => Some (Rejected e)
      | Resolved group =>
          let token' := continuationToken group in
          let groupState' := scanTasks (tasks_of_page group) groupState in
          if Js.truthy token'
          then listLoop X fuel' taskGroupId token' groupState'
          else Some (Resolved groupState')
      end
  end.

Definition setState (b : Build) (state : string) (updated : Time) : Build :=
  {| b_organization := b_organization b; b_repository := b_repository b;
     b_sha := b_sha b; b_taskGroupId := b_taskGroupId b; b_state := state;
     b_created := b_created b; b_updated := updated;
     b_installationId := b_installationId b; b_eventType := b_eventType b;
     b_eventId := b_eventId b |}.

(** The modifier of lines 214-219. *)
Definition groupModifier (groupState : string) (b : Build) : Act Build :=
  if negb (String.eqb (b_state b) "failure")
  then (now <- newDate ;; ret (setState b groupState now))
  else ret b.

Definition groupStatusHandler (X : Imports) (this : Handlers) (fuel : nat)
    (message : GroupMessage) : World -> option (Answer unit * World) :=
  fun w =>
    let taskGroupId := gm_taskGroupId message in
    match Builds_load (context this) taskGroupId w with
    | (Normal build, w1) =>
        match listLoop X fuel taskGroupId None "success" with
        | None => None
        | Some (Rejected e) => Some (Rejected e, w1)
        | Some (Resolved groupState) =>
            Some (settle (Builds_modify (context this) taskGroupId (groupModifier groupState)) w1)
        end
    | (Return, w1) => Some (Resolved tt, w1)
    | (Throw e, w1) => Some (Rejected e, w1)
    end.

(** ** statusHandler (lines 227-270) *)

Definition logCheckUpdate (u : CheckUpdate) (w : World) : World :=
  {| issueComments := issueComments w; commitComments := commitComments w;
     checkRunsCreated := checkRunsCreated w;
     checkRunsUpdated := checkRunsUpdated w ++ [u];
     tasksCreated := tasksCreated w; Builds := Builds w; CheckRuns := CheckRuns w;
     clock := clock w |}.

(** [await instGithub.checks.update(request)] *)
Definition checks_update_call (instGithub : InstGithub) (u : CheckUpdate) : Act unit :=
  fun w =>
    match checks_update instGithub u with
    | Resolved _ => (Normal tt, logCheckUpdate u w)
    | Rejected e => (Throw e, w)
    end.

Definition statusHandler (X : Imports) (this : Handlers) (message : StatusMessage)
    : World -> Answer unit * World :=
  settle (
    let taskGroupId := sm_taskGroupId message in
    let taskId := sm_taskId message in
    build <- Builds_load (context this) taskGroupId ;;
    now <- newDate ;;
    let taskState_status := "completed" in
    let taskState_conclusion := CONCLUSIONS (sm_state message) in
    let taskState_completed_at := toISOString X now in
    checkRun <- CheckRuns_load (context this) (taskGroupId, taskId) ;;
    instGithub <-
      tryCatch
        (await (github_getInstallationGithub (context this) (b_installationId build)))
        (fun e => throw e) ;;
    tryCatch
      (checks_update_call instGithub
         {| cu_owner := b_organization build; cu_repo := b_repository build;
            cu_check_run_id := c_checkRunId checkRun;
            cu_status := taskState_status;
            cu_conclusion := taskState_conclusion;
            cu_completed_at := taskState_completed_at |})
      (fun e => throw e)).

(** ** Handlers.createTasks and Handlers.createExceptionComment *)

Definition nl : string := String "010"%char EmptyString.

(** [Promise.all] over async calls that have all been started: every call
    runs, in the order of the list; the promise rejects with the first
    rejection of the list. *)
Fixpoint Promise_all (calls : list (World -> Answer unit * World)) : Act unit :=
  match calls with
  | [] => ret tt
  | call :: rest =>
      fun w =>
        match call w with
        | (Resolved _, w1) => Promise_all rest w1
        | (Rejected e, w1) => (Throw e, snd (Promise_all rest w1))
        end
  end.

Definition logTask (entry : list string * string * TaskDefinition) (w : World) : World :=
  {| issueComments := issueComments w; commitComments := commitComments w;
     checkRunsCreated := checkRunsCreated w; checkRunsUpdated := checkRunsUpdated w;
     tasksCreated := tasksCreated w ++ [entry]; Builds := Builds w;
     CheckRuns := CheckRuns w; clock := clock w |}.

(** [queue.createTask(t.taskId, t.task)] on a queue client restricted to
    [scopes]. *)
Definition createTask_call (X : Imports) (scopes : list string) (t : GraphTask)
    : World -> Answer unit * World :=
  fun w =>
    match Queue_createTask X scopes (taskId t) (task t) with
    | Resolved _ => (Resolved tt, logTask (scopes, taskId t, task t) w)
    | Rejected e => (Rejected e, w)
    end.

(** Lines 133-140. *)
Definition createTasks (X : Imports) (scopes : list string) (tasks : list GraphTask)
    : Act unit :=
  Promise_all (map (createTask_call X scopes) tasks).

Definition logIssueComment (c : IssueComment) (w : World) : World :=
  {| issueComments := issueComments w ++ [c]; commitComments := commitComments w;
     checkRunsCreated := checkRunsCreated w; checkRunsUpdated := checkRunsUpdated w;
     tasksCreated := tasksCreated w; Builds := Builds w; CheckRuns := CheckRuns w;
     clock := clock w |}.

Definition logCommitComment (c : CommitComment) (w : World) : World :=
  {| issueComments := issueComments w; commitComments := commitComments w ++ [c];
     checkRunsCreated := checkRunsCreated w; checkRunsUpdated := checkRunsUpdated w;
     tasksCreated := tasksCreated w; Builds := Builds w; CheckRuns := CheckRuns w;
     clock := clock w |}.

Definition logCheckCreate (c : CheckCreate) (w : World) : World :=
  {| issueComments := issueComments w; commitComments := commitComments w;
     checkRunsCreated := checkRunsCreated w ++ [c];
     checkRunsUpdated := checkRunsUpdated w;
     tasksCreated := tasksCreated w; Builds := Builds w; CheckRuns := CheckRuns w;
     clock := clock w |}.

(** [await instGithub.issues.createComment(request)] *)
Definition issues_createComment_call (instGithub : InstGithub) (c : IssueComment)
    : Act unit :=
  fun w =>
    match issues_createComment instGithub c with
    | Resolved _ => (Normal tt, logIssueComment c w)
    | Rejected e => (Throw e, w)
    end.

(** [await instGithub.repos.createCommitComment(request)] *)
Definition repos_createCommitComment_call (instGithub : InstGithub) (c : CommitComment)
    : Act unit :=
  fun w =>
    match repos_createCommitComment instGithub c with
    | Resolved _ => (Normal tt, logCommitComment c w)
    | Rejected e => (Throw e, w)
    end.

(** [await instGithub.checks.create(request)] *)
Definition checks_create_call (instGithub : InstGithub) (c : CheckCreate)
    : Act CheckCreated :=
  fun w =>
    match checks_create instGithub c with
    | Resolved r => (Normal r, logCheckCreate c w)
    | Rejected e => (Throw e, w)
    end.

(** Lines 144-148: [error.body && error.body.error || error.message], an
    object being printed by [JSON.stringify]. *)
Definition errorBody (error : Js.Error) : string :=
  match Js.body_error error with
  | Some (Js.BodyString s) => if String.eqb s EmptyString then Js.message error else s
  | Some (Js.BodyObject stringified) => stringified
  | None => Js.message error
  end.

Definition exceptionCommentBody (error : Js.Error) : string :=
  Js.joinLines
    [ "<details>" ++ nl;
      "<summary>Submitting the task to Taskcluster failed. Details</summary>";
      EmptyString;
      errorBody error;
      EmptyString;
      "</details>" ].

(** Lines 143-178. *)
Definition createExceptionComment (instGithub : InstGithub)
    (organization repository sha : string) (error : Js.Error)
    (pullNumber : option Z) : Act unit :=
  let body := exceptionCommentBody error in
  if Js.truthyNumber pullNumber
  then
    issues_createComment_call instGithub
      {| ic_owner := organization; ic_repo := repository;
         ic_number := pullNumber; ic_body := body |}
  else
    repos_createCommitComment_call instGithub
      {| cc_owner := organization; cc_repo := repository;
         cc_sha := sha; cc_body := body |}.

(** ** jobHandler (lines 276-496) *)

(** [groupState]: [{status}] or [{status, conclusion, completed_at}]. *)
Record GroupState := {
  status : string;
  conclusion : option string;
  completed_at : option string;
}.

(** The local variables of [jobHandler] that are alive at line 420. *)
Record Locals := {
  l_instGithub : InstGithub;
  l_organization : string;
  l_repository : string;
  l_sha : string;
  l_pullNumber : option Z;
  l_payload : Payload;
  l_groupState : GroupState;
  l_taskGroupId : string;
  l_graphConfig : GraphConfig;
}.

(** Lines 287-288: the two fields are written back into the message. *)
Definition decodePayload (p : Payload) : Payload :=
  {| installationId := installationId p;
     organization := Js.replacePercent (organization p);
     repository := Js.replacePercent (repository p);
     eventId := eventId p;
     details := details p |}.

(** Lines 291-301. *)
Definition resolveSha (instGithub : InstGithub) (p : Payload) : Act string :=
  let sha := event_head_sha (details p) in
  if negb (Js.truthy sha)
  then
    await (repos_getShaOfCommitRef instGithub (organization p) (repository p)
             ("refs/tags/" ++ Js.show (event_version (details p))))
  else ret (Js.show sha) (* a string that is not empty *).

Definition htmlTail : string := "</body>" ++ nl ++ "</html>" ++ nl.

(** Lines 321-329. *)
Definition shorten (e : Js.Error) : Js.Error :=
  if Js.endsWith (Js.message e) htmlTail && (10000 <? N.of_nat (String.length (Js.message e)))%N
  then
    {| Js.name := Js.name e; Js.code := Js.code e;
       Js.message := String.substring 0 100 (Js.message e) ++ "...";
       Js.stack := Js.secondPieceOr (Js.stack e) htmlTail;
       Js.body_error := Js.body_error e |}
  else e.

Definition is404 (c : Js.Code) : bool :=
  match c with
  | Js.CodeNumber n => Z.eqb n 404
  | _ => false
  end.

Definition isEntityAlreadyExists (c : Js.Code) : bool :=
  match c with
  | Js.CodeString s => String.eqb s "EntityAlreadyExists"
  | _ => false
  end.

(** Lines 307-331. *)
Definition fetchConfig (X : Imports) (instGithub : InstGithub)
    (organization repository sha : string) : Act string :=
  tryCatch
    (tcyml <- await (repos_getContent instGithub organization repository
                       ".taskcluster.yml" sha) ;;
     ret (Buffer_base64_toString X tcyml))
    (fun e =>
       if is404 (Js.code e) then returnNow
       else throw (shorten e)).

(** Lines 335-342. *)
Definition parseConfig (X : Imports) (instGithub : InstGithub)
    (organization repository sha : string) (pullNumber : option Z)
    (repoconf : string) : Act unit :=
  tryCatch
    (await (yaml_safeLoad X repoconf))
    (fun e =>
       if String.eqb (Js.name e) "YAMLException"
       then
         (createExceptionComment instGithub organization repository sha e pullNumber ;;;
          returnNow)
       else throw e).

(** Lines 351-369. *)
Definition compileGraph (this : Handlers) (instGithub : InstGithub)
    (organization repository sha : string) (pullNumber : option Z)
    (repoconf : string) (p : Payload) : Act GraphConfig :=
  tryCatch
    (graphConfig <- await (intree this repoconf p) ;;
     if (List.length (tasks graphConfig) =? 0)%nat then returnNow else ret graphConfig)
    (fun e =>
       createExceptionComment instGithub organization repository sha e pullNumber ;;;
       returnNow).

Definition notAllowedBody : string :=
  Js.joinLines
    [ "<details>" ++ nl;
      "<summary>No Taskcluster jobs started for this pull request</summary>" ++ nl ++ nl;
      "```js" ++ nl;
      "The `allowPullRequests` configuration for this repository (in `.taskcluster.yml` on the";
      "default branch) does not allow starting tasks for this pull request.";
      "```" ++ nl;
      "</details>" ].

Definition docsLink : string :=
  "https://docs.taskcluster.net/reference/integrations/github/docs/usage#who-can-trigger-jobs".

Definition defaultBranchErrorBody (branch : string) (e : Js.Error) : string :=
  Js.joinLines
    [ "<details>" ++ nl;
      "<summary>Error in `.taskcluster.yml` while checking";
      "for permissions **on default branch " ++ branch ++ "**.";
      "Read more about this in";
      "[the taskcluster docs](" ++ docsLink ++ ").";
      "Details:</summary>" ++ nl ++ nl;
      "```js" ++ nl;
      Js.message e;
      "```" ++ nl;
      "</details>" ].

(** The identifier [branch] of line 405.  No binding of that name is in
    scope there: it is not a parameter or a local of [jobHandler], not a
    constant or an import of the module, and not a global of the runtime.
    Evaluating it raises a ReferenceError. *)
Definition branch : Act string := throw (Js.ReferenceError "branch").

(** Lines 371-419. *)
Definition checkPermission (X : Imports) (instGithub : InstGithub)
    (organization repository : string) (pullNumber : option Z) (p : Payload)
    : Act unit :=
  if Js.startsWith (event_type (details p)) "pull_request."
  then
    let login := event_head_user_login (details p) in
    tryCatch
      (allowed <- await (prAllowed X login organization repository p) ;;
       if negb allowed
       then
         (issues_createComment_call instGithub
            {| ic_owner := organization; ic_repo := repository;
               ic_number := pullNumber; ic_body := notAllowedBody |} ;;;
          returnNow)
       else ret tt)
      (fun e =>
         if String.eqb (Js.name e) "YAMLException"
         then
           (branchName <- branch ;;
            issues_createComment_call instGithub
              {| ic_owner := organization; ic_repo := repository;
                 ic_number := pullNumber;
                 ic_body := defaultBranchErrorBody branchName e |} ;;;
            returnNow)
         else throw e)
  else ret tt.

(** Lines 276-419: everything before the submission of the tasks. *)
Definition prepare (X : Imports) (this : Handlers) (message : Payload) : Act Locals :=
  instGithub <- await (github_getInstallationGithub (context this) (installationId message)) ;;
  let payload := decodePayload message in
  let organization := organization payload in
  let repository := repository payload in
  let pullNumber := event_pullNumber (details payload) in
  sha <- resolveSha instGithub payload ;;
  repoconf <- fetchConfig X instGithub organization repository sha ;;
  parseConfig X instGithub organization repository sha pullNumber repoconf ;;;
  let groupState := {| status := "queued"; conclusion := None; completed_at := None |} in
  let taskGroupId := "nonexistent" in
  graphConfig <- compileGraph this instGithub organization repository sha pullNumber
                   repoconf payload ;;
  checkPermission X instGithub organization repository pullNumber payload ;;;
  ret {| l_instGithub := instGithub; l_organization := organization;
         l_repository := repository; l_sha := sha; l_pullNumber := pullNumber;
         l_payload := payload; l_groupState := groupState;
         l_taskGroupId := taskGroupId; l_graphConfig := graphConfig |}.

(** The try block of lines 421-424, with the value of [taskGroupId] after
    it.  [graphConfig.tasks[0]] of an empty array is [undefined], and
    reading [.task] of it raises a TypeError before the assignment. *)
Definition tryBlock (X : Imports) (l : Locals)
    : World -> string * (Completion unit * World) :=
  fun w =>
    match tasks (l_graphConfig l) with
    | [] =>
        (l_taskGroupId l,
         (Throw (Js.TypeError "Cannot read property 'task' of undefined"), w))
    | first :: _ =>
        (taskGroupId (task first),
         createTasks X (scopes (l_graphConfig l)) (tasks (l_graphConfig l)) w)
    end.

(** The catch block of lines 425-432, with the value of [groupState] after
    the try/catch. *)
Definition catchBlock (X : Imports) (l : Locals) (tried : Completion unit * World)
    : GroupState * (Completion unit * World) :=
  match tried with
  | (Throw e, w) =>
      ({| status := "completed"; conclusion := Some "failure";
          completed_at := Some (toISOString X (clock w)) |},
       createExceptionComment (l_instGithub l) (l_organization l) (l_repository l)
         (l_sha l) e None w)
  | other => (l_groupState l, other)
  end.

Definition checkRunTitle (groupState : GroupState) (eventType : string) : string :=
  "TaskGroup: "
  ++ Js.show (if Js.truthy (conclusion groupState)
              then TITLES (Js.show (conclusion groupState))
              else TITLES (status groupState))
  ++ " (for " ++ eventType ++ ")".

(** The request of lines 438-453: the fixed fields, then [groupState]
    merged in by [Object.assign]. *)
Definition checkRunRequest (this : Handlers) (l : Locals) (taskGroupId : string)
    (groupState : GroupState) (i : nat) (t : GraphTask) : CheckCreate :=
  let eventType := event_type (details (l_payload l)) in
  {| cr_owner := l_organization l;
     cr_repo := l_repository l;
     cr_name := "Task " ++ pretty i ++ ": " ++ cfg_app_statusContext (context this)
                ++ " (" ++ Js.beforeDot eventType ++ ")";
     cr_head_sha := l_sha l;
     cr_output_title := checkRunTitle groupState eventType;
     cr_output_summary := "Check for " ++ eventType;
     cr_details_url := INSPECTOR_URL ++ taskGroupId ++ "/tasks/" ++ taskId t ++ "/details";
     cr_status := status groupState;
     cr_conclusion := conclusion groupState;
     cr_completed_at := completed_at groupState |}.

(** The async callback of lines 437-465. *)
Definition recordCheckRun (this : Handlers) (l : Locals) (taskGroupId : string)
    (groupState : GroupState) (i : nat) (t : GraphTask)
    : World -> Answer unit * World :=
  settle (
    checkRun <- checks_create_call (l_instGithub l)
                  (checkRunRequest this l taskGroupId groupState i t) ;;
    tryCatch
      (CheckRuns_create (context this)
         {| c_taskGroupId := taskGroupId;
            c_taskId := taskId t;
            c_checkSuiteId := pretty (check_suite_id checkRun);
            c_checkRunId := pretty (id checkRun) |})
      (fun err =>
         if negb (isEntityAlreadyExists (Js.code err)) then throw err else ret tt)).

(** [assert.equal(actual, expected, message)] on strings. *)
Definition assert_equal (actual expected : string) (msg : option string) : Act unit :=
  if String.eqb actual expected then ret tt
  else
    throw (Js.AssertionError
             match msg with
             | Some m => m
             | None => "'" ++ actual ++ "' == '" ++ expected ++ "'"
             end).

(** [this.Builds.load({taskGroupId})] of line 484. *)
Definition this_Builds_load (this : Handlers) (taskGroupId : string) : Act Build :=
  match own_Builds this with
  | None => throw (Js.TypeError "Cannot read property 'load' of undefined")
  | Some load => load taskGroupId
  end.

(** The Build record of lines 469-479. *)
Definition newBuild (l : Locals) (taskGroupId state : string) (now : Time) : Build :=
  {| b_organization := l_organization l;
     b_repository := l_repository l;
     b_sha := l_sha l;
     b_taskGroupId := taskGroupId;
     b_state := state;
     b_created := now;
     b_updated := now;
     b_installationId := installationId (l_payload l);
     b_eventType := event_type (details (l_payload l));
     b_eventId := eventId (l_payload l) |}.

(** [groupState.conclusion || groupState.status] *)
Definition stateOf (groupState : GroupState) : string :=
  if Js.truthy (conclusion groupState)
  then Js.show (conclusion groupState)
  else status groupState.

(** Lines 484-493: what the handler of [Builds.create] does with an
    EntityAlreadyExists error. *)
Definition compareWithExisting (this : Handlers) (l : Locals)
    (taskGroupId state : string) : Act unit :=
  build <- this_Builds_load this taskGroupId ;;
  assert_equal (b_state build) state
    (Some ("State for " ++ l_organization l ++ "/" ++ l_repository l ++ "@"
           ++ l_sha l ++ nl ++ "        already exists but is set to "
           ++ b_state build ++ " instead of " ++ state ++ "!")) ;;;
  assert_equal (b_organization build) (l_organization l) None ;;;
  assert_equal (b_repository build) (l_repository l) None ;;;
  assert_equal (b_sha build) (l_sha l) None ;;;
  assert_equal (b_eventType build) (event_type (details (l_payload l))) None ;;;
  assert_equal (b_eventId build) (eventId (l_payload l)) None.

(** The finally block of lines 433-495. *)
Definition finallyBlock (this : Handlers) (l : Locals) (taskGroupId : string)
    (groupState : GroupState) : Act unit :=
  Promise_all (imap (recordCheckRun this l taskGroupId groupState)
                 (tasks (l_graphConfig l))) ;;;
  now <- newDate ;;
  let state := stateOf groupState in
  tryCatch
    (Builds_create (context this) (newBuild l taskGroupId state now))
    (fun err =>
       if negb (isEntityAlreadyExists (Js.code err)) then throw err
       else compareWithExisting this l taskGroupId state).

(** Lines 421-495: try, catch and finally.  The finally block runs after
    every completion of the try/catch, with [taskGroupId] and [groupState]
    as the two blocks left them; when it completes normally the pending
    completion of the try/catch stands, otherwise its own completion
    replaces it. *)
Definition submitAndRecord (X : Imports) (this : Handlers) (l : Locals) : Act unit :=
  fun w =>
    let '(taskGroupId, tried) := tryBlock X l w in
    let '(groupState, (pending, w2)) := catchBlock X l tried in
    match finallyBlock this l taskGroupId groupState w2 with
    | (Normal _, w3) => (pending, w3)
    | other => other
    end.

Definition jobHandler (X : Imports) (this : Handlers) (message : Payload)
    : World -> Answer unit * World :=
  settle (l <- prepare X this message ;; submitAndRecord X this l).

(** ** The constructor, setup and terminate (lines 36-130) *)

(** [this.monitor], as far as [setup] uses it. *)
Record Monitor := { reportError : Js.Error -> Answer unit }.

(** The argument of the constructor.  A property that is absent is [None];
    [context] is what the handlers read and has the type they need. *)
Record ConstructorArgs := {
  a_rootUrl : option string;
  a_credentials : option string;
  a_monitor : option Monitor;
  a_reference : option string;
  a_jobQueueName : option string;
  a_statusQueueName : option string;
  a_intree : option (string -> Payload -> Answer GraphConfig);
  a_context : Context;
}.

(** [this.connection]: [null] after the constructor, a connection after
    [setup], [undefined] after [terminate]. *)
Inductive Connection :=
| ConnectionNull
| ConnectionUndefined
| ConnectionOpen (credentials : option string).

(** The exchanges a listener is bound to. *)
Inductive Binding :=
| PullRequest
| Push
| Release
| TaskFailed (schedulerId : string)
| TaskException (schedulerId : string)
| TaskCompleted (schedulerId : string)
| TaskGroupResolved (schedulerId : string).

Inductive HandlerName := JobHandler | StatusHandler | GroupStatusHandler.

Inductive ListenerName := JobListener | StatusListener | GroupStatusListener.

(** A [PulseListener], by what [setup] has done to it. *)
Record Listener := {
  queueName : option string;
  bindings : list Binding;
  onMessage : option HandlerName;
  resumed : bool;
}.

(** The answers of the pulse library. *)
Record Pulse := {
  pulse_bind : ListenerName -> Binding -> Answer unit;
  pulse_resume : ListenerName -> Answer unit;
  pulse_close : Answer unit;
}.

(** A [Handlers] instance, by the properties [setup] and [terminate] read
    and write.  The test hooks are [true] when a function is assigned. *)
Record Instance := {
  i_handlers : Handlers;
  i_rootUrl : string;
  i_credentials : option string;
  i_monitor : Monitor;
  i_jobQueueName : option string;
  i_statusQueueName : option string;
  i_schedulerId : string;
  i_connection : Connection;
  i_groupStatusListener : option Listener;
  i_statusListener : option Listener;
  i_jobListener : option Listener;
  i_handlerComplete : bool;
  i_handlerRejected : bool;
}.

(** [assert(value, message)] *)
Definition assert_ok (value : bool) (msg : string) : Answer unit :=
  if value then Resolved tt else Rejected (Js.AssertionError msg).

(** Lines 36-57.  [schedulerId] is [context.cfg.taskcluster.schedulerId],
    which [setup] reads. *)
Definition Handlers_new (schedulerId : string) (args : ConstructorArgs)
    : Answer Instance :=
  match a_monitor args with
  | None => Rejected (Js.AssertionError "monitor is required for statistics")
  | Some monitor =>
      match a_reference args with
      | None => Rejected (Js.AssertionError "reference must be provided")
      | Some _ =>
          if negb (Js.truthy (a_rootUrl args))
          then Rejected (Js.AssertionError "rootUrl must be provided")
          else
            match a_intree args with
            | None =>
                Rejected (Js.AssertionError "intree configuration builder must be provided")
            | Some intree =>
                Resolved
                  {| i_handlers := constructor intree (a_context args);
                     i_rootUrl := Js.show (a_rootUrl args);
                     i_credentials := a_credentials args;
                     i_monitor := monitor;
                     i_jobQueueName := a_jobQueueName args;
                     i_statusQueueName := a_statusQueueName args;
                     i_schedulerId := schedulerId;
                     i_connection := ConnectionNull;
                     i_groupStatusListener := None;
                     i_statusListener := None;
                     i_jobListener := None;
                     i_handlerComplete := false;
                     i_handlerRejected := false |}
            end
      end
  end.

Definition isOpen (c : Connection) : bool :=
  match c with
  | ConnectionOpen _ => true
  | _ => false
  end.

Definition newListener (queueName : option string) : Listener :=
  {| queueName := queueName; bindings := []; onMessage := None; resumed := false |}.

Definition listenerOf (name : ListenerName) (i : Instance) : option Listener :=
  match name with
  | JobListener => i_jobListener i
  | StatusListener => i_statusListener i
  | GroupStatusListener => i_groupStatusListener i
  end.

Definition setListener (name : ListenerName) (l : option Listener) (i : Instance)
    : Instance :=
  {| i_handlers := i_handlers i; i_rootUrl := i_rootUrl i;
     i_credentials := i_credentials i; i_monitor := i_monitor i;
     i_jobQueueName := i_jobQueueName i; i_statusQueueName := i_statusQueueName i;
     i_schedulerId := i_schedulerId i; i_connection := i_connection i;
     i_groupStatusListener :=
       match name with GroupStatusListener => l | _ => i_groupStatusListener i end;
     i_statusListener :=
       match name with StatusListener => l | _ => i_statusListener i end;
     i_jobListener :=
       match name with JobListener => l | _ => i_jobListener i end;
     i_handlerComplete := i_handlerComplete i;
     i_handlerRejected := i_handlerRejected i |}.

Definition setConnection (c : Connection) (i : Instance) : Instance :=
  {| i_handlers := i_handlers i; i_rootUrl := i_rootUrl i;
     i_credentials := i_credentials i; i_monitor := i_monitor i;
     i_jobQueueName := i_jobQueueName i; i_statusQueueName := i_statusQueueName i;
     i_schedulerId := i_schedulerId i; i_connection := c;
     i_groupStatusListener := i_groupStatusListener i;
     i_statusListener := i_statusListener i;
     i_jobListener := i_jobListener i;
     i_handlerComplete := i_handlerComplete i;
     i_handlerRejected := i_handlerRejected i |}.

Definition updateListener (name : ListenerName) (f : Listener -> Listener)
    (i : Instance) : Instance :=
  setListener name (option_map f (listenerOf name i)) i.

(** [await this.<name>.bind(binding)] *)
Definition bindListener (P : Pulse) (name : ListenerName) (binding : Binding)
    (i : Instance) : Answer unit * Instance :=
  match pulse_bind P name binding with
  | Resolved _ =>
      (Resolved tt,
       updateListener name
         (fun l => {| queueName := queueName l; bindings := bindings l ++ [binding];
                      onMessage := onMessage l; resumed := resumed l |}) i)
  | Rejected e => (Rejected e, i)
  end.

(** [this.<name>.on('message', ...)] *)
Definition onMessageOf (name : ListenerName) (handler : HandlerName) (i : Instance)
    : Answer unit * Instance :=
  (Resolved tt,
   updateListener name
     (fun l => {| queueName := queueName l; bindings := bindings l;
                  onMessage := Some handler; resumed := resumed l |}) i).

(** [this.<name>.resume()] *)
Definition resumeListener (P : Pulse) (name : ListenerName) (i : Instance)
    : Answer unit * Instance :=
  match pulse_resume P name with
  | Resolved _ =>
      (Resolved tt,
       updateListener name
         (fun l => {| queueName := queueName l; bindings := bindings l;
                      onMessage := onMessage l; resumed := true |}) i)
  | Rejected e => (Rejected e, i)
  end.

(** Statements one after the other: the first rejection ends the run. *)
Fixpoint inSequence (steps : list (Instance -> Answer unit * Instance)) (i : Instance)
    : Answer unit * Instance :=
  match steps with
  | [] => (Resolved tt, i)
  | step :: rest =>
      match step i with
      | (Resolved _, i') => inSequence rest i'
      | (Rejected e, i') => (Rejected e, i')
      end
  end.

(** [Promise.all] of calls that have all been started: the first rejection
    of the list is the rejection of the whole. *)
Fixpoint allStarted (calls : list (Instance -> Answer unit * Instance)) (i : Instance)
    : Answer unit * Instance :=
  match calls with
  | [] => (Resolved tt, i)
  | call :: rest =>
      match call i with
      | (Resolved _, i') => allStarted rest i'
      | (Rejected e, i') => (Rejected e, snd (allStarted rest i'))
      end
  end.

(** Lines 65-78: the assertion, the connection and the three listeners. *)
Definition openConnection (i : Instance) : Answer unit * Instance :=
  match assert_ok (negb (isOpen (i_connection i))) "Cannot setup twice!" with
  | Rejected e => (Rejected e, i)
  | Resolved _ =>
      (Resolved tt,
       setListener GroupStatusListener (Some (newListener (i_statusQueueName i)))
         (setListener JobListener (Some (newListener (i_jobQueueName i)))
            (setListener StatusListener (Some (newListener (i_statusQueueName i)))
               (setConnection (ConnectionOpen (i_credentials i)) i))))
  end.

(** Lines 62-122. *)
Definition setup (P : Pulse) : Instance -> Answer unit * Instance :=
  inSequence
    [ openConnection;
      bindListener P JobListener PullRequest;
      bindListener P JobListener Push;
      bindListener P JobListener Release;
      (fun i => bindListener P StatusListener (TaskFailed (i_schedulerId i)) i);
      (fun i => bindListener P StatusListener (TaskException (i_schedulerId i)) i);
      (fun i => bindListener P StatusListener (TaskCompleted (i_schedulerId i)) i);
      (fun i => bindListener P GroupStatusListener (TaskGroupResolved (i_schedulerId i)) i);
      onMessageOf JobListener JobHandler;
      onMessageOf StatusListener StatusHandler;
      onMessageOf GroupStatusListener GroupStatusHandler;
      allStarted [ resumeListener P JobListener;
                   resumeListener P StatusListener;
                   resumeListener P GroupStatusListener ] ].

(** Lines 124-130. *)
Definition terminate (P : Pulse) (i : Instance) : Answer unit * Instance :=
  if isOpen (i_connection i)
  then
    match pulse_close P with
    | Resolved _ => (Resolved tt, setConnection ConnectionUndefined i)
    | Rejected e => (Rejected e, i)
    end
  else (Resolved tt, i).

(** *** The wrapper of lines 99-111 *)

(** What the wrapper leaves outside the world of the handlers: the errors
    given to the monitor and the calls of the two test hooks. *)
Record Supervised := {
  sv_world : World;
  sv_reported : list Js.Error;
  sv_completed : nat;
  sv_rejected : list Js.Error;
}.

(** The callback of [.catch]: resolves to [err] once the monitor has it. *)
Definition reportToMonitor (monitor : Monitor) (err : Js.Error) (s : Supervised)
    : Answer Js.Error * Supervised :=
  match reportError monitor err with
  | Resolved _ =>
      (Resolved err,
       {| sv_world := sv_world s; sv_reported := sv_reported s ++ [err];
          sv_completed := sv_completed s; sv_rejected := sv_rejected s |})
  | Rejected e => (Rejected e, s)
  end.

(** The callback of [.then]; [err] is [null] when the handler resolved. *)
Definition callHooks (i : Instance) (err : option Js.Error) (s : Supervised)
    : Supervised :=
  match err with
  | None =>
      if i_handlerComplete i
      then {| sv_world := sv_world s; sv_reported := sv_reported s;
              sv_completed := S (sv_completed s); sv_rejected := sv_rejected s |}
      else s
  | Some e =>
      if i_handlerRejected i
      then {| sv_world := sv_world s; sv_reported := sv_reported s;
              sv_completed := sv_completed s; sv_rejected := sv_rejected s ++ [e] |}
      else s
  end.

(** [callHandler(name, handler)(message)], with the message already given
    to the handler.  The promise chain is not returned to the listener; its
    rejection, when there is one, is the first component of the result. *)
Definition callHandler (i : Instance) (handler : World -> Answer unit * World)
    (s : Supervised) : option Js.Error * Supervised :=
  let '(answer, w') := handler (sv_world s) in
  let s1 := {| sv_world := w'; sv_reported := sv_reported s;
               sv_completed := sv_completed s; sv_rejected := sv_rejected s |} in
  match answer with
  | Resolved _ => (None, callHooks i None s1)
  | Rejected err =>
      match reportToMonitor (i_monitor i) err s1 with
      | (Resolved reported, s2) => (None, callHooks i (Some reported) s2)
      | (Rejected e, s2) => (Some e, s2)
      end
  end.

(** * The vocabulary of the properties *)

(** ** Tables, listings and aggregates *)

(** The storage service answers every operation on the two tables. *)
Definition NoTableFault (ctx : Context) : Prop := forall op, tableFault ctx op = None.

(** The pages of a task group, as the queue hands them out: the first
    request carries no token, every further request carries the token of the
    page before, and the last page is the first one whose token is absent
    (or empty). *)
Inductive listing (X : Imports) (taskGroupId : string)
    : option string -> list TaskGroupPage -> Prop :=
| listing_last token page :
    Queue_listTaskGroup X taskGroupId token = Resolved page ->
    Js.truthy (continuationToken page) = false ->
    listing X taskGroupId token [page]
| listing_more token page pages :
    Queue_listTaskGroup X taskGroupId token = Resolved page ->
    Js.truthy (continuationToken page) = true ->
    listing X taskGroupId (continuationToken page) pages ->
    listing X taskGroupId token (page :: pages).

Definition unsuccessful (t : ListedTask) : Prop :=
  status_state t = "failed" \/ status_state t = "exception".

Definition scanPages (pages : list TaskGroupPage) (groupState : string) : string :=
  fold_left (fun gs page => scanTasks (tasks_of_page page) gs) pages groupState.

Definition someUnsuccessful (pages : list TaskGroupPage) : Prop :=
  exists page t, In page pages /\ In t (tasks_of_page page) /\ unsuccessful t.

(** ** The stages of a job *)

(** The installation client is obtained and the commit sha is known, from
    the message or from the tag of the release. *)
Definition Started (this : Handlers) (message : Payload) (w : World)
    (instGithub : InstGithub) (sha : string) : Prop :=
  github_getInstallationGithub (context this) (installationId message) = Resolved instGithub
  /\ resolveSha instGithub (decodePayload message) w = (Normal sha, w).

(** The file '.taskcluster.yml' of the commit was fetched. *)
Definition Fetched (X : Imports) (this : Handlers) (message : Payload) (w : World)
    (instGithub : InstGithub) (sha repoconf : string) : Prop :=
  Started this message w instGithub sha
  /\ exists content,
       repos_getContent instGithub (organization (decodePayload message))
         (repository (decodePayload message)) ".taskcluster.yml" sha = Resolved content
       /\ repoconf = Buffer_base64_toString X content.

(** The file parsed and compiled to a graph with at least one task. *)
Definition Compiled (X : Imports) (this : Handlers) (message : Payload) (w : World)
    (instGithub : InstGithub) (sha : string) (graphConfig : GraphConfig) : Prop :=
  exists repoconf,
    Fetched X this message w instGithub sha repoconf
    /\ yaml_safeLoad X repoconf = Resolved tt
    /\ intree this repoconf (decodePayload message) = Resolved graphConfig
    /\ tasks graphConfig <> [].

(** The locals at line 420 for a message that compiled to [graphConfig]. *)
Definition localsOf (message : Payload) (instGithub : InstGithub) (sha : string)
    (graphConfig : GraphConfig) : Locals :=
  let payload := decodePayload message in
  {| l_instGithub := instGithub; l_organization := organization payload;
     l_repository := repository payload; l_sha := sha;
     l_pullNumber := event_pullNumber (details payload);
     l_payload := payload;
     l_groupState := {| status := "queued"; conclusion := None; completed_at := None |};
     l_taskGroupId := "nonexistent"; l_graphConfig := graphConfig |}.

(** The permission check lets the message through: it is not of the
    pull-request family, or [prAllowed] answers true. *)
Definition Permitted (X : Imports) (message : Payload) : Prop :=
  Js.startsWith (event_type (details message)) "pull_request." = true ->
  prAllowed X (event_head_user_login (details message))
    (organization (decodePayload message)) (repository (decodePayload message))
    (decodePayload message) = Resolved true.

(** GitHub creates every check-run it is asked for. *)
Definition AcceptsCheckRuns (instGithub : InstGithub) : Prop :=
  forall request, exists created, checks_create instGithub request = Resolved created.

(** [groupState] after the try/catch of lines 421-432, from the completion
    of the try block. *)
Definition groupStateAfter (X : Imports) (l : Locals) (tried : Completion unit)
    (w : World) : GroupState :=
  match tried with
  | Throw _ =>
      {| status := "completed"; conclusion := Some "failure";
         completed_at := Some (toISOString X (clock w)) |}
  | _ => l_groupState l
  end.

(** [taskGroupId] after line 422: [graphConfig.tasks[0].task.taskGroupId];
    for a graph without tasks the assignment raises and the placeholder of
    line 347 stays. *)
Definition taskGroupIdOf (graphConfig : GraphConfig) : string :=
  match tasks graphConfig with
  | first :: _ => taskGroupId (task first)
  | [] => "nonexistent"
  end.

(** ** What a run leaves behind *)

(** Two worlds that differ at most in the tasks the queue has accepted and
    in the comments on commits. *)
Definition sameRecords (w w' : World) : Prop :=
  Builds w' = Builds w /\ CheckRuns w' = CheckRuns w /\ clock w' = clock w
  /\ checkRunsCreated w' = checkRunsCreated w
  /\ checkRunsUpdated w' = checkRunsUpdated w
  /\ issueComments w' = issueComments w.

(** The entries the queue accepts out of a list of tasks. *)
Definition accepted (X : Imports) (scopes : list string) (tasks : list GraphTask)
    : list (list string * string * TaskDefinition) :=
  omap (fun t =>
          match Queue_createTask X scopes (taskId t) (task t) with
          | Resolved _ => Some (scopes, taskId t, task t)
          | Rejected _ => None
          end) tasks.

(** What one run of the callback of lines 437-465 leaves behind when the
    check-run is created: the request in the log of GitHub, and a Check
    record under the key of the task unless there is one already. *)
Definition recordEffect (taskGroupId : string) (request : CheckCreate)
    (created : CheckCreated) (t : GraphTask) (w : World) : World :=
  let w1 := logCheckCreate request w in
  match CheckRuns w1 !! (taskGroupId, taskId t) with
  | Some _ => w1
  | None =>
      setCheckRuns
        (<[(taskGroupId, taskId t) :=
             {| c_taskGroupId := taskGroupId; c_taskId := taskId t;
                c_checkSuiteId := pretty (check_suite_id created);
                c_checkRunId := pretty (id created) |}]> (CheckRuns w1)) w1
  end.

(** What the check-run callbacks of a list of tasks leave behind, from [w]
    to [w']: the requests in the log of GitHub, a Check record for every
    task, the records that were there kept, and no record other than under
    the keys of these tasks added. *)
Record Recorded (taskGroupId : string) (requests : list CheckCreate)
    (tasks : list GraphTask) (w w' : World) : Prop := {
  recorded_requests : checkRunsCreated w' = (checkRunsCreated w ++ requests)%list;
  recorded_Builds : Builds w' = Builds w;
  recorded_clock : clock w' = clock w;
  recorded_issueComments : issueComments w' = issueComments w;
  recorded_commitComments : commitComments w' = commitComments w;
  recorded_checkRunsUpdated : checkRunsUpdated w' = checkRunsUpdated w;
  recorded_tasksCreated : tasksCreated w' = tasksCreated w;
  recorded_kept :
    forall k c, CheckRuns w !! k = Some c -> CheckRuns w' !! k = Some c;
  recorded_present :
    forall t, In t tasks -> is_Some (CheckRuns w' !! (taskGroupId, taskId t));
  recorded_new :
    forall k c, CheckRuns w' !! k = Some c ->
      CheckRuns w !! k = Some c
      \/ (c_taskGroupId c = taskGroupId /\ k = (taskGroupId, c_taskId c)
          /\ exists t, In t tasks /\ c_taskId c = taskId t);
}.

(** The claim of C10 about the submission, as it is worded: every task the
    handler has had the queue create is defined in the task group of the
    first task of the graph. *)
Definition submittedUnderFirstGroup (graphConfig : GraphConfig) (w w' : World) : Prop :=
  forall entry,
    In entry (tasksCreated w') -> ~ In entry (tasksCreated w) ->
    taskGroupId (snd entry) = taskGroupIdOf graphConfig.

(** ** What a handler may change *)

(** From [w] to [w'] nothing is taken away: the Builds table is the same,
    the Check records and the logs of comments, check-runs and tasks are
    kept and at most extended, no check-run has been updated and the clock
    shows the same time. *)
Definition onlyAdds (w w' : World) : Prop :=
  Builds w' = Builds w
  /\ (forall k c, CheckRuns w !! k = Some c -> CheckRuns w' !! k = Some c)
  /\ issueComments w `prefix_of` issueComments w'
  /\ commitComments w `prefix_of` commitComments w'
  /\ checkRunsCreated w `prefix_of` checkRunsCreated w'
  /\ tasksCreated w `prefix_of` tasksCreated w'
  /\ checkRunsUpdated w' = checkRunsUpdated w
  /\ clock w' = clock w.

(** Every run of [m] relates the world before to the world after by [R]. *)
Definition keeps {A} (R : World -> World -> Prop) (m : Act A) : Prop :=
  forall w c w', m w = (c, w') -> R w w'.

Definition keepsSettled (R : World -> World -> Prop)
    (call : World -> Answer unit * World) : Prop :=
  forall w a w', call w = (a, w') -> R w w'.

(** The two states a Build record is created in. *)
Definition initialState (state : string) : Prop :=
  state = "queued" \/ state = "failure".

(** The two tables and the logs of GitHub and of the queue are the same,
    but for the updates of check-runs. *)
Definition sameButUpdates (w w' : World) : Prop :=
  Builds w' = Builds w /\ CheckRuns w' = CheckRuns w /\ clock w' = clock w
  /\ issueComments w' = issueComments w /\ commitComments w' = commitComments w
  /\ checkRunsCreated w' = checkRunsCreated w /\ tasksCreated w' = tasksCreated w.

(** A queue that hands out a continuation token with every page. *)
Definition endless (X : Imports) (taskGroupId : string) : Prop :=
  forall token, exists page,
    Queue_listTaskGroup X taskGroupId token = Resolved page
    /\ Js.truthy (continuationToken page) = true.

(** A listing that breaks: [n] pages are handed out, each announcing
    another one, and the request after them is rejected with [e]. *)
Inductive brokenListing (X : Imports) (taskGroupId : string)
    : option string -> nat -> Js.Error -> Prop :=
| broken_here token e :
    Queue_listTaskGroup X taskGroupId token = Rejected e ->
    brokenListing X taskGroupId token 0 e
| broken_later token page n e :
    Queue_listTaskGroup X taskGroupId token = Resolved page ->
    Js.truthy (continuationToken page) = true ->
    brokenListing X taskGroupId (continuationToken page) n e ->
    brokenListing X taskGroupId token (S n) e.

(** The two states a resolved task group leaves a Build record in. *)
Definition finalState (state : string) : Prop :=
  state = "success" \/ state = "failure".

(** Messages given to the wrapper one after the other, each with its
    handler; the rejections nobody handles are collected. *)
Fixpoint deliver (i : Instance) (calls : list (World -> Answer unit * World))
    (s : Supervised) : list Js.Error * Supervised :=
  match calls with
  | [] => ([], s)
  | call :: rest =>
      let '(unhandled, s1) := callHandler i call s in
      let '(others, s2) := deliver i rest s1 in
      (match unhandled with Some e => e :: others | None => others end, s2)
  end.

(** The pulse library accepts every binding, resume and close. *)
Definition pulseAccepts (P : Pulse) : Prop :=
  (forall name binding, pulse_bind P name binding = Resolved tt)
  /\ (forall name, pulse_resume P name = Resolved tt)
  /\ pulse_close P = Resolved tt.

(** A listener that [setup] has brought up. *)
Definition listening (queue : option string) (exchanges : list Binding)
    (handler : HandlerName) : Listener :=
  {| queueName := queue; bindings := exchanges; onMessage := Some handler;
     resumed := true |}.

(** No listener of the instance takes messages. *)
Definition deaf (i : Instance) : Prop :=
  forall name l, listenerOf name i = Some l -> onMessage l = None /\ resumed l = false.

(** The bindings [setup] asks for, in its order. *)
Definition setupBindings (schedulerId : string) : list (ListenerName * Binding) :=
  [ (JobListener, PullRequest); (JobListener, Push); (JobListener, Release);
    (StatusListener, TaskFailed schedulerId);
    (StatusListener, TaskException schedulerId);
    (StatusListener, TaskCompleted schedulerId);
    (GroupStatusListener, TaskGroupResolved schedulerId) ].

(** The character [c] occurs in [s]. *)
Fixpoint occurs (c : ascii) (s : string) : Prop :=
  match s with
  | EmptyString => False
  | String c' rest => c' = c \/ occurs c rest
  end.

(** * A push, a pull request and a task group, worked through *)

Module Scenario.

Definition created : CheckCreated := {| check_suite_id := 7; id := 11 |}.

(** An installation client that answers every request, the fetch of the
    config file with [content]. *)
Definition githubWith (content : Answer string) : InstGithub :=
  {| repos_getShaOfCommitRef := fun _ _ _ => Resolved "5ha0ftag";
     repos_getContent := fun _ _ _ _ => content;
     issues_createComment := fun _ => Resolved tt;
     repos_createCommitComment := fun _ => Resolved tt;
     checks_create := fun _ => Resolved created;
     checks_update := fun _ => Resolved tt |}.

Definition github : InstGithub := githubWith (Resolved "dGFza3M6Cg==").

Definition contextWith (instGithub : InstGithub) : Context :=
  {| github_getInstallationGithub := fun _ => Resolved instGithub;
     cfg_app_statusContext := "Taskcluster";
     tableFault := fun _ => None |}.

Definition listedAs (state : string) : ListedTask := {| status_state := state |}.

(** A listing in two pages: a completed task, then a failed one. *)
Definition twoPages (token : option string) : TaskGroupPage :=
  match token with
  | None => {| tasks_of_page := [listedAs "completed"]; continuationToken := Some "next" |}
  | Some _ => {| tasks_of_page := [listedAs "failed"]; continuationToken := None |}
  end.

(** A listing in one page: two completed tasks. *)
Definition onePage (token : option string) : TaskGroupPage :=
  {| tasks_of_page := [listedAs "completed"; listedAs "completed"];
     continuationToken := None |}.

Definition importsWith (parsed : Answer unit) (allowed : Answer bool)
    (submitted : Answer unit) (pages : option string -> TaskGroupPage) : Imports :=
  {| yaml_safeLoad := fun _ => parsed;
     prAllowed := fun _ _ _ _ => allowed;
     Queue_createTask := fun _ _ _ => submitted;
     Queue_listTaskGroup := fun _ token => Resolved (pages token);
     Buffer_base64_toString := fun s => s;
     toISOString := fun t => pretty t |}.

Definition imports : Imports :=
  importsWith (Resolved tt) (Resolved true) (Resolved tt) twoPages.

(** The group lists in one page. *)
Definition importsOnePage : Imports :=
  importsWith (Resolved tt) (Resolved true) (Resolved tt) onePage.

Definition taskOf (taskId taskGroupId : string) : GraphTask :=
  {| taskId := taskId;
     task := {| taskGroupId := taskGroupId; definition_rest := "payload" |} |}.

Definition graph : GraphConfig :=
  {| scopes := ["assume:repo:github.com/org/repo:branch:master"];
     tasks := [taskOf "t1" "G"; taskOf "t2" "G"] |}.

(** A graph whose second task names a task group of its own. *)
Definition graphOfTwoGroups : GraphConfig :=
  {| scopes := ["assume:repo:github.com/org/repo:branch:master"];
     tasks := [taskOf "t1" "G"; taskOf "t2" "H"] |}.

Definition handlersWith (instGithub : InstGithub) (graphConfig : GraphConfig) : Handlers :=
  constructor (fun _ _ => Resolved graphConfig) (contextWith instGithub).

Definition handlers : Handlers := handlersWith github graph.

Definition world : World :=
  {| issueComments := []; commitComments := []; checkRunsCreated := [];
     checkRunsUpdated := []; tasksCreated := []; Builds := ∅; CheckRuns := ∅;
     clock := 5 |}.

Definition push : Payload :=
  {| installationId := 1; organization := "my%org"; repository := "repo";
     eventId := "e1";
     details := {| event_head_sha := Some "abc"; event_pullNumber := None;
                   event_version := None; event_type := "push";
                   event_head_user_login := None |} |}.

Definition pullRequest : Payload :=
  {| installationId := 1; organization := "my%org"; repository := "repo";
     eventId := "e2";
     details := {| event_head_sha := Some "abc"; event_pullNumber := Some 17%Z;
                   event_version := None; event_type := "pull_request.opened";
                   event_head_user_login := Some "mallory" |} |}.

Definition notFound : Js.Error :=
  {| Js.name := "HttpError"; Js.code := Js.CodeNumber 404; Js.message := "Not Found";
     Js.stack := "HttpError: Not Found"; Js.body_error := None |}.

Definition yamlError : Js.Error :=
  {| Js.name := "YAMLException"; Js.code := Js.CodeUndefined;
     Js.message := "bad indentation of a mapping entry at line 2, column 3";
     Js.stack := "YAMLException: bad indentation"; Js.body_error := None |}.

Definition queueError : Js.Error :=
  {| Js.name := "Error"; Js.code := Js.CodeString "InsufficientScopes";
     Js.message := "You do not have sufficient scopes";
     Js.stack := "Error: InsufficientScopes";
     Js.body_error := Some (Js.BodyString "You do not have sufficient scopes") |}.

(** The parser turns the config file down. *)
Definition unparsable : Imports :=
  importsWith (Rejected yamlError) (Resolved true) (Resolved tt) twoPages.

(** The permission check says no. *)
Definition denying : Imports :=
  importsWith (Resolved tt) (Resolved false) (Resolved tt) twoPages.

(** The permission check cannot parse the config of the default branch. *)
Definition undecided : Imports :=
  importsWith (Resolved tt) (Rejected yamlError) (Resolved tt) twoPages.

(** The queue turns every task down. *)
Definition refusing : Imports :=
  importsWith (Resolved tt) (Resolved true) (Rejected queueError) twoPages.

Definition build (state : string) : Build :=
  {| b_organization := "my.org"; b_repository := "repo"; b_sha := "abc";
     b_taskGroupId := "G"; b_state := state; b_created := 5; b_updated := 5;
     b_installationId := 1; b_eventType := "push"; b_eventId := "e1" |}.

Definition check : CheckRun :=
  {| c_taskGroupId := "G"; c_taskId := "t1"; c_checkSuiteId := "7";
     c_checkRunId := "11" |}.

(** The tables after the push has been handled, the Build record in
    [state], at a later time. *)
Definition worldWith (state : string) : World :=
  {| issueComments := []; commitComments := []; checkRunsCreated := [];
     checkRunsUpdated := []; tasksCreated := [];
     Builds := {[ "G" := build state ]};
     CheckRuns := {[ ("G", "t1") := check ]};
     clock := 9 |}.

Definition resolved : GroupMessage := {| gm_taskGroupId := "G" |}.

Definition taskFailed : StatusMessage :=
  {| sm_taskGroupId := "G"; sm_taskId := "t1"; sm_state := "failed" |}.

End Scenario.

(** * More cases: services out of order, an instance and its pulse library *)

Module Cases.

Definition unavailable : Js.Error :=
  {| Js.name := "HttpError"; Js.code := Js.CodeNumber 503;
     Js.message := "Service Unavailable"; Js.stack := "HttpError: Service Unavailable";
     Js.body_error := None |}.


(** The parser breaks down. *)
Definition parserDown : Imports :=
  Scenario.importsWith (Rejected unavailable) (Resolved true) (Resolved tt)
    Scenario.twoPages.

(** An installation client that creates no check-run. *)
Definition githubWithoutChecks : InstGithub :=
  {| repos_getShaOfCommitRef := fun _ _ _ => Resolved "5ha0ftag";
     repos_getContent := fun _ _ _ _ => Resolved "dGFza3M6Cg==";
     issues_createComment := fun _ => Resolved tt;
     repos_createCommitComment := fun _ => Resolved tt;
     checks_create := fun _ => Rejected unavailable;
     checks_update := fun _ => Resolved tt |}.

Definition emptyGraph : GraphConfig := {| scopes := []; tasks := [] |}.


(** The Builds table rejects every creation with [e]. *)
Definition contextFailingCreate (e : Js.Error) : Context :=
  {| github_getInstallationGithub := fun _ => Resolved Scenario.github;
     cfg_app_statusContext := "Taskcluster";
     tableFault := fun op => match op with CreateBuild _ => Some e | _ => None end |}.

(** An instance to which a property [Builds] has been assigned: the Builds
    table of its context. *)
Definition handlersWithBuilds : Handlers :=
  {| context := Scenario.contextWith Scenario.github;
     intree := fun _ _ => Resolved Scenario.graph;
     own_Builds := Some (Builds_load (Scenario.contextWith Scenario.github)) |}.

(** A queue whose every page announces another one. *)
Definition importsEndless : Imports :=
  Scenario.importsWith (Resolved tt) (Resolved true) (Resolved tt)
    (fun _ => {| tasks_of_page := [Scenario.listedAs "completed"];
                 continuationToken := Some "more" |}).

(** A queue whose listing breaks on the second page. *)
Definition importsBrokenListing : Imports :=
  {| yaml_safeLoad := fun _ => Resolved tt;
     prAllowed := fun _ _ _ _ => Resolved true;
     Queue_createTask := fun _ _ _ => Resolved tt;
     Queue_listTaskGroup :=
       fun _ token =>
         match token with
         | None => Resolved (Scenario.twoPages None)
         | Some _ => Rejected unavailable
         end;
     Buffer_base64_toString := fun s => s;
     toISOString := fun t => pretty t |}.


Definition taskUnknown : StatusMessage :=
  {| sm_taskGroupId := "G"; sm_taskId := "t9"; sm_state := "failed" |}.

Definition monitor : Monitor := {| reportError := fun _ => Resolved tt |}.

Definition monitorDown : Monitor := {| reportError := fun _ => Rejected unavailable |}.

Definition args : ConstructorArgs :=
  {| a_rootUrl := Some "https://tc.example.com"; a_credentials := None;
     a_monitor := Some monitor; a_reference := Some "reference";
     a_jobQueueName := Some "jobs"; a_statusQueueName := Some "statuses";
     a_intree := Some (fun _ _ => Resolved Scenario.graph);
     a_context := Scenario.contextWith Scenario.github |}.

(** The instance the constructor makes of [args], with the two test hooks
    assigned or not, and with [monitor] as its monitor. *)
Definition instanceWith (hooks : bool) (monitor : Monitor) : Instance :=
  {| i_handlers := Scenario.handlers; i_rootUrl := "https://tc.example.com";
     i_credentials := None; i_monitor := monitor;
     i_jobQueueName := Some "jobs"; i_statusQueueName := Some "statuses";
     i_schedulerId := "tc-github"; i_connection := ConnectionNull;
     i_groupStatusListener := None; i_statusListener := None; i_jobListener := None;
     i_handlerComplete := hooks; i_handlerRejected := hooks |}.

Definition pulse : Pulse :=
  {| pulse_bind := fun _ _ => Resolved tt; pulse_resume := fun _ => Resolved tt;
     pulse_close := Resolved tt |}.

(** The binding to the exchange of releases is refused. *)
Definition pulseRefusingRelease : Pulse :=
  {| pulse_bind :=
       fun _ binding =>
         match binding with
         | Release => Rejected unavailable
         | _ => Resolved tt
         end;
     pulse_resume := fun _ => Resolved tt;
     pulse_close := Resolved tt |}.

Definition supervised (w : World) : Supervised :=
  {| sv_world := w; sv_reported := []; sv_completed := 0; sv_rejected := [] |}.

End Cases.

(** * Properties *)

(** ** Stepping through handler bodies *)

Lemma bind_Normal {A B} (m : Act A) (k : A -> Act B) w a w' :
  m w = (Normal a, w') -> bind m k w = k a w'.
Proof. intros H. unfold bind. by rewrite H. Qed.

Lemma bind_Return {A B} (m : Act A) (k : A -> Act B) w w' :
  m w = (Return, w') -> bind m k w = (Return, w').
Proof. intros H. unfold bind. by rewrite H. Qed.

Lemma bind_Throw {A B} (m : Act A) (k : A -> Act B) w e w' :
  m w = (Throw e, w') -> bind m k w = (Throw e, w').
Proof. intros H. unfold bind. by rewrite H. Qed.

Lemma setBuilds_same w : setBuilds (Builds w) w = w.
Proof. by destruct w. Qed.

Lemma string_eqb_false (a b : string) : a <> b -> String.eqb a b = false.
Proof. intros H. by apply String.eqb_neq. Qed.

(** ** The scenario meets the assumptions *)

Lemma Scenario_no_table_fault instGithub : NoTableFault (Scenario.contextWith instGithub).
Proof. intros op. reflexivity. Defined.

Lemma Scenario_accepts_check_runs content :
  AcceptsCheckRuns (Scenario.githubWith content).
Proof. intros request. exists Scenario.created. reflexivity. Defined.

Lemma Scenario_one_page :
  listing Scenario.importsOnePage "G" None [Scenario.onePage None].
Proof. apply listing_last; reflexivity. Defined.

Lemma Scenario_two_pages :
  listing Scenario.imports "G" None
    [Scenario.twoPages None; Scenario.twoPages (Some "next")].
Proof.
  apply listing_more; [reflexivity..|]. apply listing_last; reflexivity.
Defined.

Lemma Scenario_started content graphConfig message w :
  event_head_sha (details message) = Some "abc" ->
  Started (Scenario.handlersWith (Scenario.githubWith content) graphConfig) message w
    (Scenario.githubWith content) "abc".
Proof.
  intros Hsha. split; [reflexivity|]. unfold resolveSha. simpl. by rewrite Hsha.
Defined.

Lemma Scenario_fetched X graphConfig message w :
  event_head_sha (details message) = Some "abc" ->
  Buffer_base64_toString X = (fun s => s) ->
  Fetched X (Scenario.handlersWith Scenario.github graphConfig) message w
    Scenario.github "abc" "dGFza3M6Cg==".
Proof.
  intros Hsha Hdecode. split; [by apply Scenario_started|].
  exists "dGFza3M6Cg==". split; [reflexivity|]. by rewrite Hdecode.
Defined.

Lemma Scenario_compiled allowed submitted pages graphConfig message w :
  event_head_sha (details message) = Some "abc" ->
  tasks graphConfig <> [] ->
  Compiled (Scenario.importsWith (Resolved tt) allowed submitted pages)
    (Scenario.handlersWith Scenario.github graphConfig) message w
    Scenario.github "abc" graphConfig.
Proof.
  intros Hsha Htasks. exists "dGFza3M6Cg==".
  split; [by apply Scenario_fetched|]. by repeat split.
Defined.

Lemma Scenario_push_permitted X : Permitted X Scenario.push.
Proof. intros H. discriminate H. Defined.

(** ** The group status handler *)

Lemma includes_unsuccessful t :
  includes ["failed"; "exception"] (status_state t) = true <-> unsuccessful t.
Proof.
  unfold includes, unsuccessful. simpl.
  rewrite !orb_true_iff, !String.eqb_eq. intuition discriminate.
Qed.

Lemma scanTasks_cons t tasks groupState :
  scanTasks (t :: tasks) groupState
  = scanTasks tasks
      (if includes ["failed"; "exception"] (status_state t) then "failure" else groupState).
Proof. reflexivity. Qed.

Lemma scanTasks_failure tasks : scanTasks tasks "failure" = "failure".
Proof.
  induction tasks as [|t tasks IH]; [done|].
  rewrite scanTasks_cons. by destruct (includes _ (status_state t)).
Qed.

Lemma scanTasks_spec tasks groupState :
  (Exists unsuccessful tasks -> scanTasks tasks groupState = "failure")
  /\ (~ Exists unsuccessful tasks -> scanTasks tasks groupState = groupState).
Proof.
  revert groupState. induction tasks as [|t tasks IH]; intros gs.
  - split; [by inversion 1|done].
  - rewrite scanTasks_cons.
    destruct (includes _ (status_state t)) eqn:E.
    + split; [intros _; apply scanTasks_failure|].
      intros H. exfalso. apply H. left. by apply includes_unsuccessful.
    + destruct (IH gs) as [IH1 IH2]. split.
      * intros H. apply IH1. inversion H as [? ? Ht|]; subst; [|done].
        apply includes_unsuccessful in Ht. congruence.
      * intros H. apply IH2. intros H'. apply H. by right.
Qed.

Lemma scanPages_cons page pages groupState :
  scanPages (page :: pages) groupState
  = scanPages pages (scanTasks (tasks_of_page page) groupState).
Proof. reflexivity. Qed.

Lemma scanPages_failure pages : scanPages pages "failure" = "failure".
Proof.
  induction pages as [|p pages IH]; [done|].
  by rewrite scanPages_cons, scanTasks_failure.
Qed.

Lemma scanPages_spec pages :
  (someUnsuccessful pages -> scanPages pages "success" = "failure")
  /\ (~ someUnsuccessful pages -> scanPages pages "success" = "success").
Proof.
  unfold someUnsuccessful.
  induction pages as [|p pages [IH1 IH2]].
  - split; [intros (? & ? & [] & _)|done].
  - rewrite scanPages_cons.
    destruct (scanTasks_spec (tasks_of_page p) "success") as [S1 S2].
    destruct (List.Exists_dec unsuccessful (tasks_of_page p)) as [Hp|Hp].
    { intros t. unfold unsuccessful.
      destruct (string_dec (status_state t) "failed");
        destruct (string_dec (status_state t) "exception"); tauto. }
    + rewrite (S1 Hp), scanPages_failure. split; [done|].
      intros H. exfalso. apply H. apply List.Exists_exists in Hp as (t & Ht & Hu).
      exists p, t. simpl. auto.
    + rewrite (S2 Hp). split.
      * intros (page & t & [->|Hin] & Ht & Hu).
        -- exfalso. apply Hp. apply List.Exists_exists. eauto.
        -- apply IH1. eauto.
      * intros H. apply IH2. intros (page & t & Hin & Ht & Hu).
        apply H. exists page, t. simpl. auto.
Qed.

(** The loop makes one request per page of the listing: it ends after the
    last page and not before. *)
Lemma listLoop_listing X taskGroupId token pages :
  listing X taskGroupId token pages ->
  forall groupState fuel,
    (List.length pages <= fuel ->
     listLoop X fuel taskGroupId token groupState
     = Some (Resolved (scanPages pages groupState)))
    /\ (fuel < List.length pages ->
        listLoop X fuel taskGroupId token groupState = None).
Proof.
  induction 1 as [token page Hq Ht|token page pages Hq Ht Hl IH]; intros gs fuel.
  - split; intros Hf; simpl in Hf.
    + destruct fuel as [|fuel]; [lia|]. simpl. by rewrite Hq, Ht.
    + by replace fuel with 0 by lia.
  - split; intros Hf; simpl in Hf.
    + destruct fuel as [|fuel]; [lia|]. simpl. rewrite Hq, Ht.
      apply IH. lia.
    + destruct fuel as [|fuel]; [done|]. simpl. rewrite Hq, Ht.
      apply IH. lia.
Qed.

Lemma Builds_load_found ctx key w b :
  NoTableFault ctx -> Builds w !! key = Some b ->
  Builds_load ctx key w = (Normal b, w).
Proof. intros Hf Hb. unfold Builds_load. by rewrite Hf, Hb. Qed.

Lemma groupModifier_failure groupState b w :
  b_state b = "failure" -> groupModifier groupState b w = (Normal b, w).
Proof. intros H. unfold groupModifier. by rewrite H. Qed.

Lemma groupModifier_other groupState b w :
  b_state b <> "failure" ->
  groupModifier groupState b w = (Normal (setState b groupState (clock w)), w).
Proof.
  intros H. unfold groupModifier. by rewrite (string_eqb_false _ _ H).
Qed.

(** A record marked 'failure' comes out of [build.modify] as it went in,
    whatever the modifier was given and whatever the storage service does. *)
Lemma Builds_modify_failure ctx key groupState w b c w' :
  Builds w !! key = Some b -> b_state b = "failure" ->
  Builds_modify ctx key (groupModifier groupState) w = (c, w') -> w' = w.
Proof.
  intros Hb Hs. unfold Builds_modify. destruct (tableFault _ _); [congruence|].
  rewrite Hb, (groupModifier_failure _ _ _ Hs), (insert_id _ _ _ Hb), setBuilds_same.
  congruence.
Qed.

Lemma unsuccessful_dec t : {unsuccessful t} + {~ unsuccessful t}.
Proof.
  unfold unsuccessful.
  destruct (string_dec (status_state t) "failed");
    destruct (string_dec (status_state t) "exception"); tauto.
Qed.

Lemma someUnsuccessful_dec pages : someUnsuccessful pages \/ ~ someUnsuccessful pages.
Proof.
  destruct (List.Exists_dec (fun p => List.Exists unsuccessful (tasks_of_page p)) pages)
    as [H|H].
  - intros p. apply List.Exists_dec, unsuccessful_dec.
  - left. apply List.Exists_exists in H as (p & Hp & Ht).
    apply List.Exists_exists in Ht as (t & Ht & Hu). by exists p, t.
  - right. intros (p & t & Hp & Ht & Hu). apply H.
    apply List.Exists_exists. exists p. split; [done|].
    apply List.Exists_exists. eauto.
Qed.

(** C1.  Sticky failure.  When the Build record of the task group is marked
    'failure', an invocation of the group status handler, however it ends,
    leaves the world, and with it the record, as it was.  With the storage
    service answering and the listing of the group ending after [pages], the
    handler resolves; the record is untouched when its state is 'failure'.
    Otherwise, and only then, the record stored under the task group is
    replaced by one whose state is the aggregate of the listing ('failure'
    when some listed task is failed or exception, 'success' when none is),
    whose updated timestamp is the current time and whose other fields are
    those of the old record; no other record and nothing else in the world
    changes. *)
Theorem groupStatusHandler_sticky_failure X this message w b :
  Builds w !! gm_taskGroupId message = Some b ->
  (b_state b = "failure" ->
   forall fuel r w',
     groupStatusHandler X this fuel message w = Some (r, w') -> w' = w)
  /\ (forall pages,
        NoTableFault (context this) ->
        listing X (gm_taskGroupId message) None pages ->
        exists w',
          groupStatusHandler X this (List.length pages) message w
          = Some (Resolved tt, w')
          /\ (b_state b = "failure" -> w' = w)
          /\ (b_state b <> "failure" ->
              exists b',
                Builds w' = <[gm_taskGroupId message := b']> (Builds w)
                /\ (b_state b' = "failure" <-> someUnsuccessful pages)
                /\ (b_state b' = "success" <-> ~ someUnsuccessful pages)
                /\ b_updated b' = clock w
                /\ b_created b' = b_created b
                /\ b_organization b' = b_organization b
                /\ b_repository b' = b_repository b
                /\ b_sha b' = b_sha b
                /\ b_taskGroupId b' = b_taskGroupId b
                /\ b_installationId b' = b_installationId b
                /\ b_eventType b' = b_eventType b
                /\ b_eventId b' = b_eventId b
                /\ CheckRuns w' = CheckRuns w
                /\ issueComments w' = issueComments w
                /\ commitComments w' = commitComments w
                /\ checkRunsCreated w' = checkRunsCreated w
                /\ checkRunsUpdated w' = checkRunsUpdated w
                /\ tasksCreated w' = tasksCreated w
                /\ clock w' = clock w)).
Proof.
  intros Hb. split.
  - intros Hs fuel r w' H. unfold groupStatusHandler in H.
    unfold Builds_load in H. destruct (tableFault _ _); [congruence|].
    rewrite Hb in H. destruct (listLoop _ _ _ _ _) as [[gs|e]|]; [|congruence..].
    unfold settle in H.
    destruct (Builds_modify _ _ _ w) as [c w1] eqn:E.
    apply (Builds_modify_failure _ _ _ _ _ _ _ Hb Hs) in E. subst w1.
    destruct c; congruence.
  - intros pages Hf Hl. unfold groupStatusHandler.
    rewrite (Builds_load_found _ _ _ _ Hf Hb).
    destruct (listLoop_listing _ _ _ _ Hl "success" (List.length pages)) as [Hloop _].
    rewrite Hloop by done.
    unfold settle, Builds_modify. rewrite Hf, Hb.
    destruct (string_dec (b_state b) "failure") as [Hs|Hs].
    + rewrite (groupModifier_failure _ _ _ Hs), (insert_id _ _ _ Hb), setBuilds_same.
      eexists. split; [done|]. split; [done|]. intros H. by destruct H.
    + rewrite (groupModifier_other _ _ _ Hs).
      eexists. split; [done|]. split; [intros H; by destruct Hs|]. intros _.
      eexists. split; [reflexivity|]. simpl.
      destruct (scanPages_spec pages) as [S1 S2].
      split; [|split; [|by repeat split]].
      * split; [|exact S1]. intros E.
        destruct (someUnsuccessful_dec pages) as [|Hn]; [done|].
        rewrite (S2 Hn) in E. discriminate.
      * split; [|exact S2]. intros E Hsome. rewrite (S1 Hsome) in E. discriminate.
Qed.

(** The group resolves with two completed tasks while the record says
    'failure': the record stays.  The group resolves with a failed task
    while the record says 'queued': the record is marked 'failure' at the
    time of the run. *)
Lemma groupStatusHandler_sticky_failure_witness :
  Builds (Scenario.worldWith "failure") !! "G" = Some (Scenario.build "failure")
  /\ groupStatusHandler
       Scenario.importsOnePage
       Scenario.handlers 1 Scenario.resolved (Scenario.worldWith "failure")
     = Some (Resolved tt, Scenario.worldWith "failure")
  /\ exists w' b',
       groupStatusHandler Scenario.imports Scenario.handlers 2 Scenario.resolved
         (Scenario.worldWith "queued")
       = Some (Resolved tt, w')
       /\ Builds w' !! "G" = Some b'
       /\ b_state b' = "failure" /\ b_updated b' = 9 /\ b_created b' = 5.
Proof.
  split; [reflexivity|]. split.
  - destruct (groupStatusHandler_sticky_failure
                Scenario.importsOnePage
                Scenario.handlers Scenario.resolved (Scenario.worldWith "failure")
                (Scenario.build "failure") eq_refl) as [_ H].
    destruct (H [Scenario.onePage None] (Scenario_no_table_fault _)
                Scenario_one_page) as (w' & Hrun & Hfailure & _).
    rewrite (Hfailure eq_refl) in Hrun. exact Hrun.
  - destruct (groupStatusHandler_sticky_failure
                Scenario.imports
                Scenario.handlers Scenario.resolved (Scenario.worldWith "queued")
                (Scenario.build "queued") eq_refl) as [_ H].
    destruct (H [Scenario.twoPages None; Scenario.twoPages (Some "next")]
                (Scenario_no_table_fault _) Scenario_two_pages)
      as (w' & Hrun & _ & Hother).
    destruct Hother as (b' & Hbuilds & Hfailure & _ & Hupdated & Hcreated & _);
      [discriminate|].
    exists w', b'. split; [exact Hrun|]. split.
    + rewrite Hbuilds. apply lookup_insert_eq.
    + split; [|split; [exact Hupdated|exact Hcreated]].
      apply Hfailure.
      exists (Scenario.twoPages (Some "next")), (Scenario.listedAs "failed").
      simpl. unfold unsuccessful. auto.
Defined.

(** C4.  With the Build record in place and the listing of the group
    ending after [pages], the handler asks for every page of the listing,
    one request per page and no fewer, and hands to the modifier an
    aggregate that is 'failure' exactly when some task on some page is
    'failed' or 'exception', and 'success' exactly when none is. *)
Theorem groupStatusHandler_aggregate X this message w b pages :
  NoTableFault (context this) ->
  Builds w !! gm_taskGroupId message = Some b ->
  listing X (gm_taskGroupId message) None pages ->
  exists groupState,
    (groupState = "failure" <-> someUnsuccessful pages)
    /\ (groupState = "success" <-> ~ someUnsuccessful pages)
    /\ (forall fuel,
          List.length pages <= fuel ->
          listLoop X fuel (gm_taskGroupId message) None "success"
          = Some (Resolved groupState)
          /\ groupStatusHandler X this fuel message w
             = Some (settle (Builds_modify (context this) (gm_taskGroupId message)
                               (groupModifier groupState)) w))
    /\ (forall fuel,
          fuel < List.length pages ->
          groupStatusHandler X this fuel message w = None).
Proof.
  intros Hf Hb Hl. exists (scanPages pages "success").
  destruct (scanPages_spec pages) as [S1 S2].
  repeat split.
  - intros E. destruct (someUnsuccessful_dec pages) as [|Hn]; [done|].
    rewrite (S2 Hn) in E. discriminate.
  - exact S1.
  - intros E Hs. rewrite (S1 Hs) in E. discriminate.
  - exact S2.
  - by apply (listLoop_listing _ _ _ _ Hl).
  - unfold groupStatusHandler. rewrite (Builds_load_found _ _ _ _ Hf Hb).
    destruct (listLoop_listing _ _ _ _ Hl "success" fuel) as [Hloop _].
    by rewrite Hloop.
  - intros fuel Hlt. unfold groupStatusHandler.
    rewrite (Builds_load_found _ _ _ _ Hf Hb).
    destruct (listLoop_listing _ _ _ _ Hl "success" fuel) as [_ Hloop].
    by rewrite Hloop.
Qed.

(** Scenario 3: the listing shows a failed task on its second page. *)
Lemma groupStatusHandler_aggregate_witness :
  NoTableFault (context Scenario.handlers)
  /\ Builds (Scenario.worldWith "queued") !! "G" = Some (Scenario.build "queued")
  /\ listing Scenario.imports "G" None
       [Scenario.twoPages None; Scenario.twoPages (Some "next")]
  /\ listLoop Scenario.imports 2 "G" None "success" = Some (Resolved "failure")
  /\ groupStatusHandler Scenario.imports Scenario.handlers 1 Scenario.resolved
       (Scenario.worldWith "queued") = None.
Proof.
  split; [apply Scenario_no_table_fault|]. split; [reflexivity|].
  split; [apply Scenario_two_pages|].
  destruct (groupStatusHandler_aggregate Scenario.imports Scenario.handlers
              Scenario.resolved (Scenario.worldWith "queued") (Scenario.build "queued")
              [Scenario.twoPages None; Scenario.twoPages (Some "next")]
              (Scenario_no_table_fault _) eq_refl Scenario_two_pages)
    as (groupState & Hfailure & _ & Hruns & Hshort).
  split.
  - destruct (Hruns 2 (le_n 2)) as [Hloop _].
    transitivity (Some (Resolved (A := string) groupState)); [exact Hloop|].
    f_equal. f_equal. apply Hfailure.
    exists (Scenario.twoPages (Some "next")), (Scenario.listedAs "failed").
    simpl. unfold unsuccessful. auto.
  - apply Hshort. simpl. lia.
Defined.

(** ** The status handler *)

Lemma CheckRuns_load_found ctx key w c :
  NoTableFault ctx -> CheckRuns w !! key = Some c ->
  CheckRuns_load ctx key w = (Normal c, w).
Proof. intros Hf Hc. unfold CheckRuns_load. by rewrite Hf, Hc. Qed.

(** C9.  For a task message whose state is completed, failed or exception,
    with the Build and the Check record of the task in the tables: the
    handler asks for one update of the check-run whose identifier the Check
    record stores, with status 'completed', the conclusion of the table
    (completed to success, failed and exception to failure) and the current
    time as completion time; it resolves when the update is accepted, and a
    rejection of the authentication or of the update is the rejection of
    the handler.  An accepted update is the one thing the run adds to the
    world: the updates asked of GitHub are those from before followed by
    this one, and the comments, the check-runs created, the tasks, the two
    tables and the clock are as they were; a rejected run changes nothing. *)
Theorem statusHandler_updates_check_run X this message w build checkRun :
  sm_state message = "completed" \/ sm_state message = "failed"
  \/ sm_state message = "exception" ->
  NoTableFault (context this) ->
  Builds w !! sm_taskGroupId message = Some build ->
  CheckRuns w !! (sm_taskGroupId message, sm_taskId message) = Some checkRun ->
  exists conclusion,
    (sm_state message = "completed" -> conclusion = "success")
    /\ (sm_state message = "failed" -> conclusion = "failure")
    /\ (sm_state message = "exception" -> conclusion = "failure")
    /\ let request :=
         {| cu_owner := b_organization build; cu_repo := b_repository build;
            cu_check_run_id := c_checkRunId checkRun;
            cu_status := "completed";
            cu_conclusion := Some conclusion;
            cu_completed_at := toISOString X (clock w) |} in
       statusHandler X this message w
       = match github_getInstallationGithub (context this) (b_installationId build) with
         | Rejected e => (Rejected e, w)
         | Resolved instGithub =>
             match checks_update instGithub request with
             | Rejected e => (Rejected e, w)
             | Resolved _ =>
                 (Resolved tt,
                  {| issueComments := issueComments w;
                     commitComments := commitComments w;
                     checkRunsCreated := checkRunsCreated w;
                     checkRunsUpdated := checkRunsUpdated w ++ [request];
                     tasksCreated := tasksCreated w;
                     Builds := Builds w;
                     CheckRuns := CheckRuns w;
                     clock := clock w |})
             end
         end.
Proof.
  intros Hs Hf Hb Hc.
  assert (exists conclusion,
             CONCLUSIONS (sm_state message) = Some conclusion
             /\ (sm_state message = "completed" -> conclusion = "success")
             /\ (sm_state message = "failed" -> conclusion = "failure")
             /\ (sm_state message = "exception" -> conclusion = "failure"))
    as (conclusion & Hcon & H1 & H2 & H3).
  { destruct Hs as [E|[E|E]]; rewrite E; eexists; (split; [reflexivity|]);
      repeat split; intros; (done || discriminate). }
  exists conclusion. repeat split; [done..|].
  unfold statusHandler, settle.
  rewrite (bind_Normal _ _ _ _ _ (Builds_load_found _ _ _ _ Hf Hb)).
  unfold newDate at 1. unfold bind at 1.
  rewrite (bind_Normal _ _ _ _ _ (CheckRuns_load_found _ _ _ _ Hf Hc)).
  rewrite Hcon. unfold bind, tryCatch, await, checks_update_call.
  destruct (github_getInstallationGithub _ _) as [instGithub|e]; simpl; [|done].
  by destruct (checks_update instGithub _).
Qed.

(** Scenario 2: task t1 of the group ends 'failed'. *)
Lemma statusHandler_updates_check_run_witness :
  sm_state Scenario.taskFailed = "failed"
  /\ statusHandler Scenario.imports Scenario.handlers Scenario.taskFailed
       (Scenario.worldWith "queued")
     = (Resolved tt,
        {| issueComments := []; commitComments := []; checkRunsCreated := [];
           checkRunsUpdated :=
             [ {| cu_owner := "my.org"; cu_repo := "repo"; cu_check_run_id := "11";
                  cu_status := "completed"; cu_conclusion := Some "failure";
                  cu_completed_at := "9" |} ];
           tasksCreated := [];
           Builds := {[ "G" := Scenario.build "queued" ]};
           CheckRuns := {[ ("G", "t1") := Scenario.check ]};
           clock := 9 |}).
Proof.
  split; [reflexivity|].
  destruct (statusHandler_updates_check_run Scenario.imports Scenario.handlers
              Scenario.taskFailed (Scenario.worldWith "queued")
              (Scenario.build "queued") Scenario.check
              (or_intror (or_introl eq_refl)) (Scenario_no_table_fault _)
              eq_refl eq_refl)
    as (conclusion & _ & Hfailed & _ & Hrun).
  rewrite (Hfailed eq_refl) in Hrun. exact Hrun.
Defined.

(** ** The job handler, up to the permission check *)

Lemma shorten_keeps e :
  Js.name (shorten e) = Js.name e /\ Js.code (shorten e) = Js.code e
  /\ Js.body_error (shorten e) = Js.body_error e.
Proof. unfold shorten. by destruct (_ && _). Qed.

Lemma is404_spec c : is404 c = true <-> c = Js.CodeNumber 404.
Proof.
  destruct c as [|n|s]; simpl; try (split; [discriminate|congruence]).
  rewrite Z.eqb_eq. split; congruence.
Qed.

Lemma prepare_started X this message w instGithub sha :
  Started this message w instGithub sha ->
  prepare X this message w
  = (let payload := decodePayload message in
     let organization := organization payload in
     let repository := repository payload in
     let pullNumber := event_pullNumber (details payload) in
     repoconf <- fetchConfig X instGithub organization repository sha ;;
     parseConfig X instGithub organization repository sha pullNumber repoconf ;;;
     graphConfig <- compileGraph this instGithub organization repository sha pullNumber
                      repoconf payload ;;
     checkPermission X instGithub organization repository pullNumber payload ;;;
     ret {| l_instGithub := instGithub; l_organization := organization;
            l_repository := repository; l_sha := sha; l_pullNumber := pullNumber;
            l_payload := payload;
            l_groupState := {| status := "queued"; conclusion := None;
                               completed_at := None |};
            l_taskGroupId := "nonexistent"; l_graphConfig := graphConfig |}) w.
Proof.
  intros [Hauth Hsha]. unfold prepare.
  erewrite bind_Normal; [|by rewrite Hauth].
  cbv zeta. by erewrite bind_Normal; [|exact Hsha].
Qed.

Lemma fetchConfig_fetched X this message w instGithub sha repoconf :
  Fetched X this message w instGithub sha repoconf ->
  fetchConfig X instGithub (organization (decodePayload message))
    (repository (decodePayload message)) sha w = (Normal repoconf, w).
Proof.
  intros (_ & content & Hc & ->). unfold fetchConfig, tryCatch.
  erewrite bind_Normal; [|by rewrite Hc]. done.
Qed.

(** C5.  When the fetch of '.taskcluster.yml' is rejected with code 404, the
    handler resolves and the world is as before: no comment, no task, no
    record.  When it is rejected with anything else, the handler is
    rejected with that error (its message cut short when it is a long HTML
    page), the world again as before. *)
Theorem jobHandler_config_not_fetched X this message w instGithub sha e :
  Started this message w instGithub sha ->
  repos_getContent instGithub (organization (decodePayload message))
    (repository (decodePayload message)) ".taskcluster.yml" sha = Rejected e ->
  (Js.code e = Js.CodeNumber 404 -> jobHandler X this message w = (Resolved tt, w))
  /\ (Js.code e <> Js.CodeNumber 404 ->
      jobHandler X this message w = (Rejected (shorten e), w)
      /\ Js.name (shorten e) = Js.name e /\ Js.code (shorten e) = Js.code e).
Proof.
  intros Hs Hc.
  assert (fetchConfig X instGithub (organization (decodePayload message))
            (repository (decodePayload message)) sha w
          = (if is404 (Js.code e) then Return else Throw (shorten e), w)) as Hfetch.
  { unfold fetchConfig, tryCatch. erewrite bind_Throw; [|by rewrite Hc].
    by destruct (is404 _). }
  unfold jobHandler, settle.
  split.
  - intros H404. apply is404_spec in H404. rewrite H404 in Hfetch.
    erewrite bind_Return; [done|].
    rewrite (prepare_started _ _ _ _ _ _ Hs). cbv zeta.
    by erewrite bind_Return; [|exact Hfetch].
  - intros H404.
    assert (is404 (Js.code e) = false) as Hn.
    { destruct (is404 _) eqn:E; [|done]. by apply is404_spec in E. }
    rewrite Hn in Hfetch. split; [|by destruct (shorten_keeps e) as (? & ? & _)].
    erewrite bind_Throw; [done|].
    rewrite (prepare_started _ _ _ _ _ _ Hs). cbv zeta.
    by erewrite bind_Throw; [|exact Hfetch].
Qed.

(** A repository without '.taskcluster.yml'. *)
Lemma jobHandler_config_not_fetched_witness :
  Started (Scenario.handlersWith (Scenario.githubWith (Rejected Scenario.notFound))
             Scenario.graph)
    Scenario.push Scenario.world (Scenario.githubWith (Rejected Scenario.notFound)) "abc"
  /\ jobHandler Scenario.imports
       (Scenario.handlersWith (Scenario.githubWith (Rejected Scenario.notFound))
          Scenario.graph)
       Scenario.push Scenario.world
     = (Resolved tt, Scenario.world).
Proof.
  split; [by apply Scenario_started|].
  exact (proj1 (jobHandler_config_not_fetched Scenario.imports
                  (Scenario.handlersWith (Scenario.githubWith (Rejected Scenario.notFound))
                     Scenario.graph)
                  Scenario.push Scenario.world
                  (Scenario.githubWith (Rejected Scenario.notFound)) "abc"
                  Scenario.notFound
                  (Scenario_started (Rejected Scenario.notFound) Scenario.graph
                     Scenario.push Scenario.world eq_refl) eq_refl) eq_refl).
Defined.

Lemma prepare_fetched X this message w instGithub sha repoconf :
  Fetched X this message w instGithub sha repoconf ->
  prepare X this message w
  = (let payload := decodePayload message in
     let organization := organization payload in
     let repository := repository payload in
     let pullNumber := event_pullNumber (details payload) in
     parseConfig X instGithub organization repository sha pullNumber repoconf ;;;
     graphConfig <- compileGraph this instGithub organization repository sha pullNumber
                      repoconf payload ;;
     checkPermission X instGithub organization repository pullNumber payload ;;;
     ret {| l_instGithub := instGithub; l_organization := organization;
            l_repository := repository; l_sha := sha; l_pullNumber := pullNumber;
            l_payload := payload;
            l_groupState := {| status := "queued"; conclusion := None;
                               completed_at := None |};
            l_taskGroupId := "nonexistent"; l_graphConfig := graphConfig |}) w.
Proof.
  intros Hf. rewrite (prepare_started _ _ _ _ _ _ (proj1 Hf)). cbv zeta.
  by erewrite bind_Normal; [|exact (fetchConfig_fetched _ _ _ _ _ _ _ Hf)].
Qed.

Lemma prepare_compiled X this message w instGithub sha graphConfig :
  Compiled X this message w instGithub sha graphConfig ->
  prepare X this message w
  = (checkPermission X instGithub (organization (decodePayload message))
       (repository (decodePayload message))
       (event_pullNumber (details (decodePayload message))) (decodePayload message) ;;;
     ret (localsOf message instGithub sha graphConfig)) w.
Proof.
  intros (repoconf & Hf & Hy & Hi & Ht).
  rewrite (prepare_fetched _ _ _ _ _ _ _ Hf). cbv zeta.
  erewrite bind_Normal; cycle 1.
  { unfold parseConfig, tryCatch. by rewrite Hy. }
  erewrite bind_Normal; cycle 1.
  { unfold compileGraph, tryCatch. erewrite bind_Normal; [|by rewrite Hi].
    destruct (tasks graphConfig); [done|reflexivity]. }
  reflexivity.
Qed.

Lemma exceptionCommentBody_shows error :
  exceptionCommentBody error
  = ("<details>" ++ nl ++ nl
     ++ "<summary>Submitting the task to Taskcluster failed. Details</summary>"
     ++ nl ++ nl)
    ++ errorBody error ++ (nl ++ nl ++ "</details>").
Proof.
  reflexivity.
Qed.

(** C6.  When the fetched text does not parse and the parser raises a
    YAMLException, the handler asks for one comment, on the pull request
    when the message has a pull number and on the commit otherwise, whose
    body shows the error (its message, for an error without a body).  When
    the comment is accepted the handler resolves and the comment is all that
    has changed: the comments of its kind are those from before followed by
    this one, and the comments of the other kind, the check-runs, the tasks,
    the two tables and the clock are as they were.  When it is rejected the
    handler is rejected with that error and nothing has changed. *)
Theorem jobHandler_yaml_error X this message w instGithub sha repoconf e :
  Fetched X this message w instGithub sha repoconf ->
  yaml_safeLoad X repoconf = Rejected e ->
  Js.name e = "YAMLException" ->
  let payload := decodePayload message in
  let onPullRequest :=
    {| ic_owner := organization payload; ic_repo := repository payload;
       ic_number := event_pullNumber (details payload);
       ic_body := exceptionCommentBody e |} in
  let onCommit :=
    {| cc_owner := organization payload; cc_repo := repository payload;
       cc_sha := sha; cc_body := exceptionCommentBody e |} in
  (exists before after, exceptionCommentBody e = before ++ errorBody e ++ after)
  /\ (Js.body_error e = None -> errorBody e = Js.message e)
  /\ jobHandler X this message w
     = if Js.truthyNumber (event_pullNumber (details payload))
       then
         match issues_createComment instGithub onPullRequest with
         | Resolved _ =>
             (Resolved tt,
              {| issueComments := issueComments w ++ [onPullRequest];
                 commitComments := commitComments w;
                 checkRunsCreated := checkRunsCreated w;
                 checkRunsUpdated := checkRunsUpdated w;
                 tasksCreated := tasksCreated w;
                 Builds := Builds w;
                 CheckRuns := CheckRuns w;
                 clock := clock w |})
         | Rejected e' => (Rejected e', w)
         end
       else
         match repos_createCommitComment instGithub onCommit with
         | Resolved _ =>
             (Resolved tt,
              {| issueComments := issueComments w;
                 commitComments := commitComments w ++ [onCommit];
                 checkRunsCreated := checkRunsCreated w;
                 checkRunsUpdated := checkRunsUpdated w;
                 tasksCreated := tasksCreated w;
                 Builds := Builds w;
                 CheckRuns := CheckRuns w;
                 clock := clock w |})
         | Rejected e' => (Rejected e', w)
         end.
Proof.
  intros Hf Hy Hn. cbv zeta. split; [|split].
  - rewrite exceptionCommentBody_shows. eauto.
  - intros Hb. unfold errorBody. by rewrite Hb.
  - unfold jobHandler, settle, bind at 1.
    rewrite (prepare_fetched _ _ _ _ _ _ _ Hf). cbv zeta.
    unfold bind at 1, parseConfig, tryCatch. rewrite Hy. simpl. rewrite Hn. simpl.
    unfold bind, createExceptionComment.
    destruct (Js.truthyNumber _).
    + unfold issues_createComment_call.
      by destruct (issues_createComment instGithub _).
    + unfold repos_createCommitComment_call.
      by destruct (repos_createCommitComment instGithub _).
Qed.

(** Scenario 5: a push whose config file is not YAML. *)
Lemma jobHandler_yaml_error_witness :
  Js.name Scenario.yamlError = "YAMLException"
  /\ jobHandler
       Scenario.unparsable
       Scenario.handlers Scenario.push Scenario.world
     = (Resolved tt,
        {| issueComments := [];
           commitComments :=
             [ {| cc_owner := "my.org"; cc_repo := "repo"; cc_sha := "abc";
                  cc_body := exceptionCommentBody Scenario.yamlError |} ];
           checkRunsCreated := []; checkRunsUpdated := []; tasksCreated := [];
           Builds := ∅; CheckRuns := ∅; clock := 5 |}).
Proof.
  split; [reflexivity|].
  exact (proj2 (proj2 (jobHandler_yaml_error
                         Scenario.unparsable
                         Scenario.handlers Scenario.push Scenario.world
                         Scenario.github "abc" "dGFza3M6Cg==" Scenario.yamlError
                         (Scenario_fetched Scenario.unparsable Scenario.graph Scenario.push
                            Scenario.world eq_refl eq_refl) eq_refl eq_refl))).
Defined.

Lemma notAllowedBody_names_policy :
  exists before after, notAllowedBody = before ++ "allowPullRequests" ++ after.
Proof.
  exists ("<details>" ++ nl ++ nl
          ++ "<summary>No Taskcluster jobs started for this pull request</summary>"
          ++ nl ++ nl ++ nl ++ "```js" ++ nl ++ nl ++ "The `"),
    ("` configuration for this repository (in `.taskcluster.yml` on the" ++ nl
     ++ "default branch) does not allow starting tasks for this pull request." ++ nl
     ++ "```" ++ nl ++ nl ++ "</details>").
  reflexivity.
Qed.

(** C7.  For a pull-request event whose graph compiled and whose author the
    permission check turns down, the handler asks for one comment on the
    pull request, whose body names the allowPullRequests policy.  When the
    comment is accepted the handler resolves and the comment is all that has
    changed: the comments on pull requests are those from before followed by
    this one, and the comments on commits, the check-runs, the tasks, the
    two tables and the clock are as they were.  When it is rejected the
    handler is rejected and nothing has changed. *)
Theorem jobHandler_pull_request_denied X this message w instGithub sha graphConfig :
  Compiled X this message w instGithub sha graphConfig ->
  Js.startsWith (event_type (details message)) "pull_request." = true ->
  prAllowed X (event_head_user_login (details message))
    (organization (decodePayload message)) (repository (decodePayload message))
    (decodePayload message) = Resolved false ->
  let comment :=
    {| ic_owner := organization (decodePayload message);
       ic_repo := repository (decodePayload message);
       ic_number := event_pullNumber (details message);
       ic_body := notAllowedBody |} in
  (exists before after, ic_body comment = before ++ "allowPullRequests" ++ after)
  /\ jobHandler X this message w
     = match issues_createComment instGithub comment with
       | Resolved _ =>
           (Resolved tt,
            {| issueComments := issueComments w ++ [comment];
               commitComments := commitComments w;
               checkRunsCreated := checkRunsCreated w;
               checkRunsUpdated := checkRunsUpdated w;
               tasksCreated := tasksCreated w;
               Builds := Builds w;
               CheckRuns := CheckRuns w;
               clock := clock w |})
       | Rejected e =>
           (Rejected (if String.eqb (Js.name e) "YAMLException"
                      then Js.ReferenceError "branch" else e), w)
       end.
Proof.
  intros Hc Hpr Hno comment. split; [apply notAllowedBody_names_policy|].
  unfold jobHandler, settle, bind at 1.
  rewrite (prepare_compiled _ _ _ _ _ _ _ Hc).
  unfold bind at 1, checkPermission. simpl. rewrite Hpr.
  unfold tryCatch, bind at 1. simpl in Hno. rewrite Hno. simpl.
  unfold bind, issues_createComment_call. subst comment. simpl.
  destruct (issues_createComment instGithub _) as [[]|e]; [done|].
  simpl. by destruct (String.eqb _ _).
Qed.

(** Scenario 4: a pull request whose author is not allowed. *)
Lemma jobHandler_pull_request_denied_witness :
  Js.startsWith (event_type (details Scenario.pullRequest)) "pull_request." = true
  /\ jobHandler
       Scenario.denying
       Scenario.handlers Scenario.pullRequest Scenario.world
     = (Resolved tt,
        {| issueComments :=
             [ {| ic_owner := "my.org"; ic_repo := "repo"; ic_number := Some 17%Z;
                  ic_body := notAllowedBody |} ];
           commitComments := []; checkRunsCreated := []; checkRunsUpdated := [];
           tasksCreated := []; Builds := ∅; CheckRuns := ∅; clock := 5 |}).
Proof.
  split; [reflexivity|].
  assert (tasks Scenario.graph <> []) as Htasks by discriminate.
  exact (proj2 (jobHandler_pull_request_denied
                  Scenario.denying
                  Scenario.handlers Scenario.pullRequest Scenario.world
                  Scenario.github "abc" Scenario.graph
                  (Scenario_compiled _ _ _ Scenario.graph Scenario.pullRequest
                     Scenario.world eq_refl Htasks)
                  eq_refl eq_refl)).
Defined.

(** C8 (what the code does).  For a pull-request event whose graph compiled
    and whose permission check is rejected with [e]: when [e] is a
    YAMLException the handler is rejected with a ReferenceError for the
    identifier [branch] of line 405 and nothing has changed, in particular
    no comment has been asked for; any other [e] is the rejection of the
    handler. *)
Theorem jobHandler_permission_check_error X this message w instGithub sha graphConfig e :
  Compiled X this message w instGithub sha graphConfig ->
  Js.startsWith (event_type (details message)) "pull_request." = true ->
  prAllowed X (event_head_user_login (details message))
    (organization (decodePayload message)) (repository (decodePayload message))
    (decodePayload message) = Rejected e ->
  (Js.name e = "YAMLException" ->
   jobHandler X this message w = (Rejected (Js.ReferenceError "branch"), w))
  /\ (Js.name e <> "YAMLException" -> jobHandler X this message w = (Rejected e, w)).
Proof.
  intros Hc Hpr Herr.
  assert (forall A (k : unit -> Act A),
             bind (checkPermission X instGithub (organization (decodePayload message))
                     (repository (decodePayload message))
                     (event_pullNumber (details (decodePayload message)))
                     (decodePayload message)) k w
             = (Throw (if String.eqb (Js.name e) "YAMLException"
                       then Js.ReferenceError "branch" else e), w)) as Hperm.
  { intros A k. apply bind_Throw. unfold checkPermission. simpl. rewrite Hpr.
    unfold tryCatch, bind at 1. simpl in Herr. rewrite Herr. simpl.
    by destruct (String.eqb _ _). }
  split; intros Hn; unfold jobHandler, settle, bind at 1;
    rewrite (prepare_compiled _ _ _ _ _ _ _ Hc), Hperm.
  - by rewrite Hn.
  - by rewrite (string_eqb_false _ _ Hn).
Qed.

(** A pull request for which the permission check cannot parse the config
    of the default branch. *)
Lemma jobHandler_permission_check_error_witness :
  Js.name Scenario.yamlError = "YAMLException"
  /\ jobHandler
       Scenario.undecided
       Scenario.handlers Scenario.pullRequest Scenario.world
     = (Rejected (Js.ReferenceError "branch"), Scenario.world).
Proof.
  split; [reflexivity|].
  assert (tasks Scenario.graph <> []) as Htasks by discriminate.
  exact (proj1 (jobHandler_permission_check_error
                  Scenario.undecided
                  Scenario.handlers Scenario.pullRequest Scenario.world
                  Scenario.github "abc" Scenario.graph Scenario.yamlError
                  (Scenario_compiled _ _ _ Scenario.graph Scenario.pullRequest
                     Scenario.world eq_refl Htasks)
                  eq_refl eq_refl) eq_refl).
Defined.

(** ** The job handler: submission and bookkeeping *)

Lemma prepare_permitted X this message w instGithub sha graphConfig :
  Compiled X this message w instGithub sha graphConfig ->
  Permitted X message ->
  prepare X this message w = (Normal (localsOf message instGithub sha graphConfig), w).
Proof.
  intros Hc Hp. rewrite (prepare_compiled _ _ _ _ _ _ _ Hc).
  erewrite bind_Normal; [reflexivity|].
  unfold checkPermission. simpl. unfold Permitted in Hp. simpl in Hp.
  destruct (Js.startsWith _ _); [|done].
  unfold tryCatch. erewrite bind_Normal; [|by rewrite Hp]. done.
Qed.

Lemma jobHandler_permitted X this message w instGithub sha graphConfig :
  Compiled X this message w instGithub sha graphConfig ->
  Permitted X message ->
  jobHandler X this message w
  = settle (submitAndRecord X this (localsOf message instGithub sha graphConfig)) w.
Proof.
  intros Hc Hp. unfold jobHandler, settle.
  by erewrite bind_Normal; [|exact (prepare_permitted _ _ _ _ _ _ _ Hc Hp)].
Qed.

Lemma sameRecords_refl w : sameRecords w w.
Proof. by repeat split. Qed.

Lemma sameRecords_trans w1 w2 w3 :
  sameRecords w1 w2 -> sameRecords w2 w3 -> sameRecords w1 w3.
Proof.
  unfold sameRecords. intros (?&?&?&?&?&?) (?&?&?&?&?&?).
  repeat split; congruence.
Qed.

Lemma createTasks_run X scopes tasks w :
  exists c w',
    createTasks X scopes tasks w = (c, w')
    /\ (c = Normal tt \/ exists e, c = Throw e)
    /\ sameRecords w w'
    /\ commitComments w' = commitComments w
    /\ tasksCreated w' = (tasksCreated w ++ accepted X scopes tasks)%list.
Proof.
  unfold createTasks. revert w.
  induction tasks as [|t tasks IH]; intros w.
  - exists (Normal tt), w. simpl.
    split; [done|]. split; [by left|]. split; [apply sameRecords_refl|].
    split; [done|]. by rewrite app_nil_r.
  - simpl. unfold createTask_call at 1, accepted. simpl.
    destruct (Queue_createTask X scopes (taskId t) (task t)) as [[]|e].
    + destruct (IH (logTask (scopes, taskId t, task t) w))
        as (c & w' & -> & Hc & Hs & Hcc & Ht).
      exists c, w'. split; [done|]. split; [done|]. split; [exact Hs|].
      split; [done|]. rewrite Ht. simpl. by rewrite <- app_assoc.
    + destruct (IH w) as (c & w' & -> & Hc & Hs & Hcc & Ht).
      exists (Throw e), w'. simpl. split; [done|]. split; [eauto|]. done.
Qed.

Lemma createExceptionComment_on_commit instGithub organization repository sha e w :
  exists c w',
    createExceptionComment instGithub organization repository sha e None w = (c, w')
    /\ (c = Normal tt \/ exists e', c = Throw e')
    /\ sameRecords w w'
    /\ tasksCreated w' = tasksCreated w.
Proof.
  unfold createExceptionComment. simpl. unfold repos_createCommitComment_call.
  destruct (repos_createCommitComment instGithub _) as [[]|e'];
    eexists _, _; (split; [reflexivity|]); repeat split; eauto.
Qed.

Lemma recordCheckRun_resolved this l taskGroupId groupState i t created w :
  NoTableFault (context this) ->
  checks_create (l_instGithub l) (checkRunRequest this l taskGroupId groupState i t)
  = Resolved created ->
  recordCheckRun this l taskGroupId groupState i t w
  = (Resolved tt,
     recordEffect taskGroupId (checkRunRequest this l taskGroupId groupState i t)
       created t w).
Proof.
  intros Hf Hc. unfold recordCheckRun, settle, recordEffect.
  erewrite bind_Normal; cycle 1.
  { unfold checks_create_call. by rewrite Hc. }
  unfold tryCatch, CheckRuns_create. rewrite Hf. simpl.
  by destruct (CheckRuns w !! (taskGroupId, taskId t)).
Qed.

Lemma Recorded_nil taskGroupId w : Recorded taskGroupId [] [] w w.
Proof.
  split; try done.
  - by rewrite app_nil_r.
  - intros k c H. by left.
Qed.

Lemma Recorded_step taskGroupId request created t w :
  Recorded taskGroupId [request] [t] w (recordEffect taskGroupId request created t w).
Proof.
  unfold recordEffect. simpl.
  destruct (CheckRuns w !! (taskGroupId, taskId t)) as [c0|] eqn:E.
  - split; try done.
    + intros t' [<-|[]]. simpl. rewrite E. eauto.
    + intros k c H. by left.
  - split; try done; simpl.
    + intros k c H. rewrite lookup_insert_ne; [done|]. congruence.
    + intros t' [<-|[]]. rewrite lookup_insert_eq. eauto.
    + intros k c H. destruct (decide (k = (taskGroupId, taskId t))) as [->|Hne].
      * rewrite lookup_insert_eq in H. injection H as <-. right. simpl.
        split; [done|]. split; [done|]. exists t. auto.
      * rewrite lookup_insert_ne in H by done. by left.
Qed.

Lemma Recorded_app taskGroupId requests1 requests2 tasks1 tasks2 w w1 w2 :
  Recorded taskGroupId requests1 tasks1 w w1 ->
  Recorded taskGroupId requests2 tasks2 w1 w2 ->
  Recorded taskGroupId (requests1 ++ requests2) (tasks1 ++ tasks2) w w2.
Proof.
  intros [] []. split; try congruence.
  - rewrite app_assoc. congruence.
  - auto.
  - intros t [H|H]%in_app_iff; [|by auto].
    destruct (recorded_present0 t H) as [c Hc]. eauto.
  - intros k c H. destruct (recorded_new1 k c H) as [H1|(? & ? & t & Ht & ?)].
    + destruct (recorded_new0 k c H1) as [|(? & ? & t & Ht & ?)]; [by left|].
      right. repeat split; try done. exists t. rewrite in_app_iff. auto.
    + right. repeat split; try done. exists t. rewrite in_app_iff. auto.
Qed.

Lemma Promise_all_recorded taskGroupId tasks :
  forall (callback : nat -> GraphTask -> World -> Answer unit * World)
         (request : nat -> GraphTask -> CheckCreate),
    (forall i t, tasks !! i = Some t ->
       exists created, forall w,
         callback i t w
         = (Resolved tt, recordEffect taskGroupId (request i t) created t w)) ->
    forall w,
      exists w',
        Promise_all (imap callback tasks) w = (Normal tt, w')
        /\ Recorded taskGroupId (imap request tasks) tasks w w'.
Proof.
  induction tasks as [|t tasks IH]; intros callback request Hcb w.
  - exists w. split; [done|apply Recorded_nil].
  - destruct (Hcb 0 t eq_refl) as [created Hstep].
    destruct (IH (callback ∘ S) (request ∘ S) (fun i t' H => Hcb (S i) t' H)
                (recordEffect taskGroupId (request 0 t) created t w))
      as (w' & Hrun & Hrec).
    exists w'. split.
    + simpl. by rewrite Hstep.
    + apply (Recorded_app _ [request 0 t] _ [t] tasks _ _ _
               (Recorded_step _ _ _ _ _) Hrec).
Qed.

(** One run of lines 421-495 for a graph whose first task is [first], with
    the tables answering and GitHub creating the check-runs: the tasks are
    sent to the queue, then a failure is commented on the commit, then the
    check-runs are recorded, then the Build record is created, or, when the
    table has one under the key, compared. *)
Lemma submitAndRecord_run X this l first rest w :
  tasks (l_graphConfig l) = first :: rest ->
  NoTableFault (context this) ->
  AcceptsCheckRuns (l_instGithub l) ->
  exists tried w1 pending w2 w3,
    createTasks X (scopes (l_graphConfig l)) (tasks (l_graphConfig l)) w = (tried, w1)
    /\ (tried = Normal tt \/ exists e, tried = Throw e)
    /\ (pending = Normal tt \/ exists e, pending = Throw e)
    /\ (pending, w2)
       = match tried with
         | Throw e =>
             createExceptionComment (l_instGithub l) (l_organization l)
               (l_repository l) (l_sha l) e None w1
         | _ => (tried, w1)
         end
    /\ sameRecords w w2
    /\ tasksCreated w2
       = (tasksCreated w
          ++ accepted X (scopes (l_graphConfig l)) (tasks (l_graphConfig l)))%list
    /\ let taskGroupId := taskGroupId (task first) in
       let groupState := groupStateAfter X l tried w in
       Recorded taskGroupId
         (imap (checkRunRequest this l taskGroupId groupState) (tasks (l_graphConfig l)))
         (tasks (l_graphConfig l)) w2 w3
       /\ submitAndRecord X this l w
          = match Builds w !! taskGroupId with
            | None =>
                (pending,
                 setBuilds
                   (<[taskGroupId :=
                        newBuild l taskGroupId (stateOf groupState) (clock w)]>
                      (Builds w3)) w3)
            | Some _ =>
                match compareWithExisting this l taskGroupId (stateOf groupState) w3 with
                | (Normal _, w4) => (pending, w4)
                | other => other
                end
            end.
Proof.
  intros Ht Hf Hgh.
  destruct (createTasks_run X (scopes (l_graphConfig l)) (tasks (l_graphConfig l)) w)
    as (tried & w1 & Hrun & Htried & Hs1 & Hcc1 & Htasks1).
  assert (exists pending w2,
             (pending, w2)
             = match tried with
               | Throw e =>
                   createExceptionComment (l_instGithub l) (l_organization l)
                     (l_repository l) (l_sha l) e None w1
               | _ => (tried, w1)
               end
             /\ (pending = Normal tt \/ exists e, pending = Throw e)
             /\ sameRecords w1 w2 /\ tasksCreated w2 = tasksCreated w1)
    as (pending & w2 & Hcatch & Hpending & Hs2 & Htasks2).
  { destruct Htried as [->|[e ->]].
    - exists (Normal tt), w1. repeat split; auto.
    - destruct (createExceptionComment_on_commit (l_instGithub l) (l_organization l)
                  (l_repository l) (l_sha l) e w1) as (c & w2 & -> & Hc & Hs & Htc).
      exists c, w2. auto. }
  pose (tgid := taskGroupId (task first)).
  pose (gs := groupStateAfter X l tried w).
  destruct (Promise_all_recorded tgid (tasks (l_graphConfig l))
              (recordCheckRun this l tgid gs) (checkRunRequest this l tgid gs)) with (w := w2)
    as (w3 & Hall & Hrec).
  { intros i t _. destruct (Hgh (checkRunRequest this l tgid gs i t)) as [created Hc].
    exists created. intros w0. by apply recordCheckRun_resolved. }
  assert (sameRecords w w2) as Hs by (eapply sameRecords_trans; eauto).
  exists tried, w1, pending, w2, w3.
  split; [done|]. split; [done|]. split; [done|]. split; [done|]. split; [done|].
  split; [congruence|]. cbv zeta. fold tgid gs. split; [done|].
  destruct Hs as (HB & HC & Hclock & _). destruct Hs1 as (_ & _ & Hclock1 & _).
  assert (gs = fst (catchBlock X l (tried, w1))) as Hgs.
  { unfold gs, groupStateAfter, catchBlock. destruct tried; try done.
    simpl. by rewrite Hclock1. }
  assert ((pending, w2) = snd (catchBlock X l (tried, w1))) as Hpw.
  { rewrite Hcatch. unfold catchBlock. by destruct tried. }
  unfold submitAndRecord, tryBlock. rewrite Ht, <- Ht, Hrun.
  destruct (catchBlock X l (tried, w1)) as [gs' [pending' w2']].
  simpl in Hgs, Hpw. subst gs'. injection Hpw as <- <-.
  fold tgid. unfold finallyBlock.
  erewrite bind_Normal; [|exact Hall].
  unfold newDate at 1. unfold bind at 1. unfold tryCatch, Builds_create.
  rewrite Hf. simpl.
  rewrite (recorded_clock _ _ _ _ _ Hrec), Hclock.
  rewrite (recorded_Builds _ _ _ _ _ Hrec), HB.
  by destruct (Builds w !! tgid).
Qed.

Lemma Compiled_first X this message w instGithub sha graphConfig :
  Compiled X this message w instGithub sha graphConfig ->
  exists first rest, tasks graphConfig = first :: rest.
Proof.
  intros (? & _ & _ & _ & Hne). destruct (tasks graphConfig); [done|eauto].
Qed.

(** C3.  For a message that compiled to a graph with tasks and passed the
    permission check, with the tables answering, GitHub creating the
    check-runs and no Build record under the key yet: however the
    submission of the tasks completes, the handler creates one check-run
    per task of the graph, leaves a Check record for every task and creates
    the Build record.  After a failed submission the check-runs are
    'completed' with conclusion 'failure' and the state of the Build record
    is 'failure'; after a successful one they are 'queued', and so is the
    Build record.  The handler resolves, unless the comment about the failed
    submission is rejected, which is then its rejection. *)
Theorem jobHandler_records_after_submission
    X this message w instGithub sha graphConfig tried w1 :
  Compiled X this message w instGithub sha graphConfig ->
  Permitted X message ->
  NoTableFault (context this) ->
  AcceptsCheckRuns instGithub ->
  Builds w !! taskGroupIdOf graphConfig = None ->
  createTasks X (scopes graphConfig) (tasks graphConfig) w = (tried, w1) ->
  let l := localsOf message instGithub sha graphConfig in
  let taskGroupId := taskGroupIdOf graphConfig in
  let groupState := groupStateAfter X l tried w in
  let requests := imap (checkRunRequest this l taskGroupId groupState) (tasks graphConfig) in
  ((exists e, tried = Throw e) ->
   stateOf groupState = "failure"
   /\ Forall (fun c => cr_status c = "completed" /\ cr_conclusion c = Some "failure")
        requests)
  /\ (tried = Normal tt ->
      stateOf groupState = "queued"
      /\ Forall (fun c => cr_status c = "queued" /\ cr_conclusion c = None) requests)
  /\ List.length requests = List.length (tasks graphConfig)
  /\ exists r w',
       jobHandler X this message w = (r, w')
       /\ checkRunsCreated w' = (checkRunsCreated w ++ requests)%list
       /\ (forall t, In t (tasks graphConfig) ->
             is_Some (CheckRuns w' !! (taskGroupId, taskId t)))
       /\ Builds w' !! taskGroupId
          = Some (newBuild l taskGroupId (stateOf groupState) (clock w))
       /\ (tried = Normal tt -> r = Resolved tt)
       /\ (forall e, tried = Throw e ->
             r = match repos_createCommitComment instGithub
                         {| cc_owner := l_organization l; cc_repo := l_repository l;
                            cc_sha := sha; cc_body := exceptionCommentBody e |} with
                 | Resolved _ => Resolved tt
                 | Rejected e' => Rejected e'
                 end).
Proof.
  intros Hc Hp Hf Hgh Hnew Hrun l tgid gs requests.
  assert (forall st concl, status gs = st -> conclusion gs = concl ->
            Forall (fun c => cr_status c = st /\ cr_conclusion c = concl) requests)
    as Hall.
  { intros st concl <- <-. unfold requests. apply Forall_forall.
    intros c Hin. apply list_elem_of_lookup in Hin as [i Hi].
    rewrite list_lookup_imap in Hi.
    destruct (tasks graphConfig !! i); simplify_eq/=. done. }
  split; [|split; [|split]].
  - intros [e ->]. split; [done|]. by apply Hall.
  - intros ->. split; [done|]. by apply Hall.
  - unfold requests. apply length_imap.
  - destruct (Compiled_first _ _ _ _ _ _ _ Hc) as (first & rest & Ht).
    rewrite (jobHandler_permitted _ _ _ _ _ _ _ Hc Hp).
    destruct (submitAndRecord_run X this l first rest w Ht Hf Hgh)
      as (tried' & w1' & pending & w2 & w3 & Hrun' & _ & Hpending & Hcatch & Hsame & _
          & Hrec & Hsub).
    simpl in Hrun'. rewrite Hrun in Hrun'. injection Hrun' as <- <-.
    destruct Hsame as (_ & _ & _ & Hsame & _).
    assert (taskGroupId (task first) = tgid) as Etg.
    { unfold tgid, taskGroupIdOf. by rewrite Ht. }
    rewrite Etg in Hrec, Hsub. fold gs in Hrec, Hsub.
    fold tgid in Hnew. rewrite Hnew in Hsub.
    unfold settle. fold l. rewrite Hsub.
    exists (match pending with Throw e => Rejected e | _ => Resolved tt end),
      (setBuilds (<[tgid := newBuild l tgid (stateOf gs) (clock w)]> (Builds w3)) w3).
    split; [by destruct pending|].
    simpl. split; [|split; [|split; [|split]]].
    + by rewrite (recorded_requests _ _ _ _ _ Hrec), Hsame.
    + intros t Hin. by apply (recorded_present _ _ _ _ _ Hrec).
    + by rewrite lookup_insert_eq.
    + intros ->. by injection Hcatch as ->.
    + intros e ->. unfold createExceptionComment in Hcatch. simpl in Hcatch.
      unfold repos_createCommitComment_call in Hcatch.
      destruct (repos_createCommitComment instGithub _); by injection Hcatch as ->.
Qed.

(** A push whose tasks the queue turns down: the check-runs and the records
    are written all the same, as failures. *)
Lemma jobHandler_records_after_submission_witness :
  createTasks Scenario.refusing (scopes Scenario.graph) (tasks Scenario.graph)
    Scenario.world = (Throw Scenario.queueError, Scenario.world)
  /\ Builds Scenario.world !! taskGroupIdOf Scenario.graph = None
  /\ exists w',
       jobHandler Scenario.refusing Scenario.handlers Scenario.push Scenario.world
       = (Resolved tt, w')
       /\ Builds w' !! "G" = Some (Scenario.build "failure")
       /\ List.length (checkRunsCreated w') = 2.
Proof.
  split; [reflexivity|]. split; [reflexivity|].
  assert (tasks Scenario.graph <> []) as Htasks by discriminate.
  destruct (jobHandler_records_after_submission Scenario.refusing Scenario.handlers
              Scenario.push Scenario.world Scenario.github "abc" Scenario.graph
              (Throw Scenario.queueError) Scenario.world
              (Scenario_compiled _ _ _ Scenario.graph Scenario.push Scenario.world
                 eq_refl Htasks)
              (Scenario_push_permitted _) (Scenario_no_table_fault _)
              (Scenario_accepts_check_runs _) eq_refl eq_refl)
    as (_ & _ & Hlen & r & w' & Hrun & Hchecks & _ & Hbuild & _ & Hr).
  exists w'. rewrite Hrun, (Hr _ eq_refl). split; [reflexivity|].
  split; [exact Hbuild|]. rewrite Hchecks, length_app, Hlen. reflexivity.
Defined.

(** C2 (what the code does).  A [Handlers] instance made by the constructor
    has no property [Builds].  When such an instance handles a message whose
    task group already has a Build record, as on a second delivery of the
    message, no record is added or changed, but the handler is rejected
    with a TypeError: the handler of the EntityAlreadyExists error reads
    [this.Builds.load], and the comparison with the record is never
    reached, whatever the record holds. *)
Theorem jobHandler_duplicate_delivery
    X compile ctx message w instGithub sha graphConfig existing :
  Compiled X (constructor compile ctx) message w instGithub sha graphConfig ->
  Permitted X message ->
  NoTableFault ctx ->
  AcceptsCheckRuns instGithub ->
  Builds w !! taskGroupIdOf graphConfig = Some existing ->
  exists w',
    jobHandler X (constructor compile ctx) message w
    = (Rejected (Js.TypeError "Cannot read property 'load' of undefined"), w')
    /\ Builds w' = Builds w.
Proof.
  intros Hc Hp Hf Hgh Hdup.
  destruct (Compiled_first _ _ _ _ _ _ _ Hc) as (first & rest & Ht).
  rewrite (jobHandler_permitted _ _ _ _ _ _ _ Hc Hp).
  destruct (submitAndRecord_run X (constructor compile ctx)
              (localsOf message instGithub sha graphConfig) first rest w Ht Hf Hgh)
    as (tried & w1 & pending & w2 & w3 & _ & _ & _ & _ & Hsame & _ & Hrec & Hsub).
  unfold taskGroupIdOf in Hdup. rewrite Ht in Hdup.
  rewrite Hdup in Hsub. unfold compareWithExisting, this_Builds_load in Hsub.
  simpl in Hsub. exists w3. unfold settle. rewrite Hsub. split; [done|].
  rewrite (recorded_Builds _ _ _ _ _ Hrec). apply Hsame.
Qed.

(** The push is delivered a second time. *)
Lemma jobHandler_duplicate_delivery_witness :
  let first := jobHandler Scenario.imports Scenario.handlers Scenario.push Scenario.world in
  fst first = Resolved tt
  /\ Builds (snd first) !! "G" = Some (Scenario.build "queued")
  /\ exists w',
       jobHandler Scenario.imports Scenario.handlers Scenario.push (snd first)
       = (Rejected (Js.TypeError "Cannot read property 'load' of undefined"), w')
       /\ Builds w' = Builds (snd first).
Proof.
  assert (Builds (snd (jobHandler Scenario.imports Scenario.handlers Scenario.push
                         Scenario.world)) !! "G"
          = Some (Scenario.build "queued")) as Hbuild by (vm_compute; reflexivity).
  split; [vm_compute; reflexivity|]. split; [exact Hbuild|].
  assert (tasks Scenario.graph <> []) as Htasks by discriminate.
  exact (jobHandler_duplicate_delivery Scenario.imports (fun _ _ => Resolved Scenario.graph)
           (Scenario.contextWith Scenario.github) Scenario.push _
           Scenario.github "abc" Scenario.graph (Scenario.build "queued")
           (Scenario_compiled _ _ _ Scenario.graph Scenario.push _ eq_refl Htasks)
           (Scenario_push_permitted _) (Scenario_no_table_fault _)
           (Scenario_accepts_check_runs _) Hbuild).
Defined.

(** C10, as amended.  For a message that compiled to a graph with tasks
    and passed the permission check, handled by an instance without a
    [Builds] property, with the tables answering and GitHub creating the
    check-runs: [taskGroupId] is 'nonexistent' before the try block and the
    [taskGroupId] of the first task's definition after the assignment; the
    details link of every check-run is built from that identifier, every
    Check record that is added has it as its group and in its key, and the
    only key of the Builds table that may change is that identifier.  The
    queue is asked to create each task of the graph with its own definition,
    as compiled. *)
Theorem jobHandler_task_group_identifier X this message w instGithub sha graphConfig :
  Compiled X this message w instGithub sha graphConfig ->
  Permitted X message ->
  NoTableFault (context this) ->
  AcceptsCheckRuns instGithub ->
  own_Builds this = None ->
  exists l first rest,
    prepare X this message w = (Normal l, w)
    /\ l_taskGroupId l = "nonexistent"
    /\ tasks graphConfig = first :: rest
    /\ let taskGroupId := taskGroupId (task first) in
       fst (tryBlock X l w) = taskGroupId
       /\ exists r w' requests,
            jobHandler X this message w = (r, w')
            /\ checkRunsCreated w' = (checkRunsCreated w ++ requests)%list
            /\ List.length requests = List.length (tasks graphConfig)
            /\ (forall i t, tasks graphConfig !! i = Some t ->
                  exists c, requests !! i = Some c
                    /\ cr_details_url c
                       = INSPECTOR_URL ++ taskGroupId ++ "/tasks/" ++ taskId t
                         ++ "/details")
            /\ (forall k c, CheckRuns w' !! k = Some c ->
                  CheckRuns w !! k = Some c
                  \/ (c_taskGroupId c = taskGroupId /\ fst k = taskGroupId))
            /\ (forall k, k <> taskGroupId -> Builds w' !! k = Builds w !! k)
            /\ (Builds w !! taskGroupId = None ->
                exists b, Builds w' !! taskGroupId = Some b
                          /\ b_taskGroupId b = taskGroupId)
            /\ tasksCreated w'
               = (tasksCreated w ++ accepted X (scopes graphConfig) (tasks graphConfig))%list.
Proof.
  intros Hc Hp Hf Hgh Hown.
  destruct (Compiled_first _ _ _ _ _ _ _ Hc) as (first & rest & Ht).
  set (l := localsOf message instGithub sha graphConfig).
  exists l, first, rest.
  split; [exact (prepare_permitted _ _ _ _ _ _ _ Hc Hp)|].
  split; [done|]. split; [done|]. cbv zeta.
  split; [unfold tryBlock; simpl; by rewrite Ht|].
  rewrite (jobHandler_permitted _ _ _ _ _ _ _ Hc Hp). fold l.
  destruct (submitAndRecord_run X this l first rest w Ht Hf Hgh)
    as (tried & w1 & pending & w2 & w3 & _ & _ & Hpending & _ & Hsame & Htasks
        & Hrec & Hsub).
  set (tgid := taskGroupId (task first)) in *.
  set (gs := groupStateAfter X l tried w) in *.
  destruct Hsame as (HB & HC & _ & Hcr & _).
  assert (forall i t, tasks graphConfig !! i = Some t ->
            exists c,
              imap (checkRunRequest this l tgid gs) (tasks graphConfig) !! i = Some c
              /\ cr_details_url c
                 = INSPECTOR_URL ++ tgid ++ "/tasks/" ++ taskId t ++ "/details") as Hurl.
  { intros i t Hi. rewrite list_lookup_imap, Hi. simpl. eauto. }
  assert (forall k c, CheckRuns w3 !! k = Some c ->
            CheckRuns w !! k = Some c \/ (c_taskGroupId c = tgid /\ fst k = tgid)) as Hnew.
  { intros k c Hk. destruct (recorded_new _ _ _ _ _ Hrec k c Hk) as [H|(H1 & -> & _)].
    - left. by rewrite <- HC.
    - right. by rewrite H1. }
  unfold settle. rewrite Hsub. simpl in *.
  destruct (Builds w !! tgid) as [existing|] eqn:Hlook.
  - unfold compareWithExisting, this_Builds_load. rewrite Hown. simpl.
    eexists _, w3, _. split; [reflexivity|].
    split; [by rewrite (recorded_requests _ _ _ _ _ Hrec), Hcr|].
    split; [apply length_imap|]. split; [exact Hurl|]. split; [exact Hnew|].
    split; [intros k _; by rewrite (recorded_Builds _ _ _ _ _ Hrec), HB|].
    split; [done|]. by rewrite (recorded_tasksCreated _ _ _ _ _ Hrec).
  - exists (match pending with Throw e => Rejected e | _ => Resolved tt end),
      (setBuilds (<[tgid := newBuild l tgid (stateOf gs) (clock w)]> (Builds w3)) w3),
      (imap (checkRunRequest this l tgid gs) (tasks graphConfig)).
    split; [by destruct pending|]. simpl.
    split; [by rewrite (recorded_requests _ _ _ _ _ Hrec), Hcr|].
    split; [apply length_imap|]. split; [exact Hurl|]. split; [exact Hnew|].
    split.
    { intros k Hk. rewrite lookup_insert_ne by done.
      by rewrite (recorded_Builds _ _ _ _ _ Hrec), HB. }
    split; [intros _; rewrite lookup_insert_eq; eauto|].
    by rewrite (recorded_tasksCreated _ _ _ _ _ Hrec).
Qed.

(** The graph of two groups, handled: the links, the Check records and the
    Build record are under 'G'. *)
Lemma jobHandler_task_group_identifier_witness :
  own_Builds (Scenario.handlersWith Scenario.github Scenario.graphOfTwoGroups) = None
  /\ exists l w',
       prepare Scenario.imports
         (Scenario.handlersWith Scenario.github Scenario.graphOfTwoGroups)
         Scenario.push Scenario.world = (Normal l, Scenario.world)
       /\ l_taskGroupId l = "nonexistent"
       /\ fst (tryBlock Scenario.imports l Scenario.world) = "G"
       /\ snd (jobHandler Scenario.imports
                 (Scenario.handlersWith Scenario.github Scenario.graphOfTwoGroups)
                 Scenario.push Scenario.world) = w'
       /\ (exists b, Builds w' !! "G" = Some b /\ b_taskGroupId b = "G")
       /\ Builds w' !! "H" = None.
Proof.
  split; [reflexivity|].
  assert (tasks Scenario.graphOfTwoGroups <> []) as Htasks by discriminate.
  destruct (jobHandler_task_group_identifier Scenario.imports
              (Scenario.handlersWith Scenario.github Scenario.graphOfTwoGroups)
              Scenario.push Scenario.world Scenario.github "abc"
              Scenario.graphOfTwoGroups
              (Scenario_compiled _ _ _ Scenario.graphOfTwoGroups Scenario.push
                 Scenario.world eq_refl Htasks)
              (Scenario_push_permitted _) (Scenario_no_table_fault _)
              (Scenario_accepts_check_runs _) eq_refl)
    as (l & first & rest & Hprepare & Hplaceholder & Hfirst & Hassigned & r & w'
        & requests & Hrun & _ & _ & _ & _ & Hother & Hbuild & _).
  injection Hfirst as <- <-. simpl in *.
  exists l, w'. split; [exact Hprepare|]. split; [exact Hplaceholder|].
  split; [exact Hassigned|]. split; [by rewrite Hrun|].
  split; [by apply Hbuild|]. by rewrite Hother.
Defined.

(** C10, as worded, fails for a graph whose second task is defined in a
    task group of its own: the queue was asked to create 't2' in group 'H',
    which is not the group 'G' of the first task. *)
Lemma jobHandler_submission_counterexample :
  Compiled Scenario.imports
    (Scenario.handlersWith Scenario.github Scenario.graphOfTwoGroups)
    Scenario.push Scenario.world Scenario.github "abc" Scenario.graphOfTwoGroups
  /\ ~ submittedUnderFirstGroup Scenario.graphOfTwoGroups Scenario.world
         (snd (jobHandler Scenario.imports
                 (Scenario.handlersWith Scenario.github Scenario.graphOfTwoGroups)
                 Scenario.push Scenario.world)).
Proof.
  split.
  - apply (Scenario_compiled _ _ _ Scenario.graphOfTwoGroups Scenario.push
             Scenario.world eq_refl). discriminate.
  - intros H.
    specialize (H (scopes Scenario.graphOfTwoGroups, "t2",
                   task (Scenario.taskOf "t2" "H"))).
    assert ("H" = "G") as Habsurd; [|discriminate Habsurd].
    apply H.
    + vm_compute. auto.
    + intros [].
Qed.

(** * Further properties *)

(** ** Strings *)

Lemma length_append (s1 s2 : string) :
  String.length (s1 ++ s2) = String.length s1 + String.length s2.
Proof. induction s1 as [|c s1 IH]; simpl; [done|]. by rewrite IH. Qed.

Lemma length_substring_0 (n : nat) (s : string) :
  n <= String.length s -> String.length (String.substring 0 n s) = n.
Proof.
  revert s. induction n as [|n IH]; intros s Hn.
  - by destruct s.
  - destruct s as [|c s]; simpl in *; [lia|]. rewrite IH; [done|lia].
Qed.

Lemma replacePercent_fixed s : ~ occurs "%" s -> Js.replacePercent s = s.
Proof.
  induction s as [|c s IH]; simpl; [done|]. intros H.
  destruct (Ascii.eqb c "%") eqn:E.
  - apply Ascii.eqb_eq in E. tauto.
  - rewrite IH; [done|tauto].
Qed.

Lemma replacePercent_clean s : ~ occurs "%" (Js.replacePercent s).
Proof.
  induction s as [|c s IH]; simpl; [tauto|]. intros [H|H]; [|done].
  destruct (Ascii.eqb c "%") eqn:E; [discriminate H|].
  apply Ascii.eqb_neq in E. done.
Qed.

Lemma replacePercent_length s :
  String.length (Js.replacePercent s) = String.length s.
Proof. induction s as [|c s IH]; simpl; congruence. Qed.

(** X1.  Decoding an organization or repository name (lines 287-288)
    leaves no percent sign and keeps the length; a name without a percent
    sign is left as it is, so that decoding a name, or a message, twice is
    decoding it once; a name with a percent sign of its own does not
    survive. *)
Theorem replacePercent_decodes s :
  ~ occurs "%" (Js.replacePercent s)
  /\ String.length (Js.replacePercent s) = String.length s
  /\ (~ occurs "%" s -> Js.replacePercent s = s)
  /\ (occurs "%" s -> Js.replacePercent s <> s)
  /\ Js.replacePercent (Js.replacePercent s) = Js.replacePercent s
  /\ (forall message, decodePayload (decodePayload message) = decodePayload message).
Proof.
  assert (forall s, Js.replacePercent (Js.replacePercent s) = Js.replacePercent s)
    as Hidem by (intros; apply replacePercent_fixed, replacePercent_clean).
  split; [apply replacePercent_clean|].
  split; [apply replacePercent_length|].
  split; [apply replacePercent_fixed|].
  split; [|split; [apply Hidem|]].
  - intros Hin Heq. apply (replacePercent_clean s). by rewrite Heq.
  - intros message. unfold decodePayload. simpl. by rewrite !Hidem.
Qed.

Lemma shorten_long e :
  Js.endsWith (Js.message e) htmlTail = true ->
  (10000 < N.of_nat (String.length (Js.message e)))%N ->
  shorten e
  = {| Js.name := Js.name e; Js.code := Js.code e;
       Js.message := String.substring 0 100 (Js.message e) ++ "...";
       Js.stack := Js.secondPieceOr (Js.stack e) htmlTail;
       Js.body_error := Js.body_error e |}
  /\ String.length (Js.message (shorten e)) = 103.
Proof.
  intros Hend Hlong. unfold shorten.
  apply N.ltb_lt in Hlong as Hb. rewrite Hend, Hb. simpl. split; [done|].
  rewrite length_append, length_substring_0; [done|lia].
Qed.

Lemma shorten_short e :
  Js.endsWith (Js.message e) htmlTail = false
  \/ (N.of_nat (String.length (Js.message e)) <= 10000)%N ->
  shorten e = e.
Proof.
  intros [H|H]; unfold shorten.
  - by rewrite H.
  - apply N.ltb_ge in H. rewrite H. by rewrite andb_false_r.
Qed.

(** X2.  The shortening of an error of the fetch (lines 321-329) touches
    only errors whose message is an HTML page of more than 10000
    characters; what it returns has a message of 103 characters and the
    name, code and body of the error; shortening twice is shortening once. *)
Theorem shorten_once e :
  shorten (shorten e) = shorten e
  /\ ((N.of_nat (String.length (Js.message e)) <= 10000)%N -> shorten e = e)
  /\ (Js.endsWith (Js.message e) htmlTail = false -> shorten e = e)
  /\ (shorten e <> e ->
      String.length (Js.message (shorten e)) = 103
      /\ Js.message (shorten e) = String.substring 0 100 (Js.message e) ++ "...")
  /\ Js.name (shorten e) = Js.name e
  /\ Js.code (shorten e) = Js.code e
  /\ Js.body_error (shorten e) = Js.body_error e.
Proof.
  destruct (Js.endsWith (Js.message e) htmlTail) eqn:Hend;
    [|rewrite !(shorten_short e) by auto; repeat split; try done; by intros []].
  destruct (N.le_gt_cases (N.of_nat (String.length (Js.message e))) 10000) as [Hle|Hgt];
    [rewrite !(shorten_short e) by auto; repeat split; try done; by intros []|].
  destruct (shorten_long e Hend Hgt) as [Heq Hlen].
  split; [|split; [|split; [|split; [|by rewrite Heq]]]].
  - apply shorten_short. right. rewrite Hlen. by apply N.leb_le.
  - intros Hle. lia.
  - discriminate.
  - intros _. split; [done|]. by rewrite Heq.
Qed.

(** ** The submission of the tasks *)




(** ** The job handler before the submission *)


(** X4.  The commit of a job (lines 282-301).  When the installation
    client cannot be obtained the handler is rejected with that error.  A
    head sha in the message, unless it is empty, is the commit.  Without
    one the handler asks GitHub for the tag 'refs/tags/' followed by the
    version of the message, in the decoded organization and repository: the
    sha it answers is the commit, and its rejection is the rejection of the
    handler.  Nothing has changed when the handler is rejected. *)
Theorem jobHandler_commit X this message w :
  (forall e,
     github_getInstallationGithub (context this) (installationId message) = Rejected e ->
     jobHandler X this message w = (Rejected e, w))
  /\ (forall instGithub,
        github_getInstallationGithub (context this) (installationId message)
        = Resolved instGithub ->
        (forall sha,
           event_head_sha (details message) = Some sha -> sha <> EmptyString ->
           Started this message w instGithub sha)
        /\ (Js.truthy (event_head_sha (details message)) = false ->
            let tag := "refs/tags/" ++ Js.show (event_version (details message)) in
            (forall sha,
               repos_getShaOfCommitRef instGithub
                 (Js.replacePercent (organization message))
                 (Js.replacePercent (repository message)) tag = Resolved sha ->
               Started this message w instGithub sha)
            /\ (forall e,
                  repos_getShaOfCommitRef instGithub
                    (Js.replacePercent (organization message))
                    (Js.replacePercent (repository message)) tag = Rejected e ->
                  jobHandler X this message w = (Rejected e, w)))).
Proof.
  split.
  - intros e Hauth. unfold jobHandler, settle, prepare.
    erewrite bind_Throw; [done|]. apply bind_Throw. by rewrite Hauth.
  - intros instGithub Hauth. split.
    + intros sha Hsha Hne. split; [done|]. unfold resolveSha. simpl.
      rewrite Hsha. simpl. by rewrite (string_eqb_false _ _ Hne).
    + intros Hnone tag. split.
      * intros sha Htag. split; [done|]. unfold resolveSha. simpl.
        rewrite Hnone. simpl. fold tag. by rewrite Htag.
      * intros e Htag. unfold jobHandler, settle, prepare.
        erewrite bind_Throw; [done|].
        erewrite bind_Normal; [|by rewrite Hauth]. cbv zeta.
        apply bind_Throw. unfold resolveSha. simpl. rewrite Hnone. simpl.
        fold tag. by rewrite Htag.
Qed.

(** X5.  A config that compiles to a graph without tasks (lines 361-364):
    the handler resolves and nothing has changed, no comment, no task, no
    check-run, no record. *)
Theorem jobHandler_no_tasks X this message w instGithub sha repoconf graphConfig :
  Fetched X this message w instGithub sha repoconf ->
  yaml_safeLoad X repoconf = Resolved tt ->
  intree this repoconf (decodePayload message) = Resolved graphConfig ->
  tasks graphConfig = [] ->
  jobHandler X this message w = (Resolved tt, w).
Proof.
  intros Hf Hy Hi Ht. unfold jobHandler, settle.
  erewrite bind_Return; [done|].
  rewrite (prepare_fetched _ _ _ _ _ _ _ Hf). cbv zeta.
  erewrite bind_Normal; cycle 1.
  { unfold parseConfig, tryCatch. by rewrite Hy. }
  apply bind_Return. unfold compileGraph, tryCatch.
  erewrite bind_Normal; [|by rewrite Hi]. by rewrite Ht.
Qed.

Lemma jobHandler_no_tasks_witness :
  tasks Cases.emptyGraph = []
  /\ jobHandler Scenario.imports
       (Scenario.handlersWith Scenario.github Cases.emptyGraph)
       Scenario.push Scenario.world
     = (Resolved tt, Scenario.world).
Proof.
  split; [reflexivity|].
  exact (jobHandler_no_tasks Scenario.imports
           (Scenario.handlersWith Scenario.github Cases.emptyGraph)
           Scenario.push Scenario.world Scenario.github "abc" "dGFza3M6Cg=="
           Cases.emptyGraph
           (Scenario_fetched Scenario.imports Cases.emptyGraph Scenario.push
              Scenario.world eq_refl eq_refl)
           eq_refl eq_refl eq_refl).
Defined.



(** X7.  A parser error that is not a YAMLException (lines 338-341) is the
    rejection of the handler: no comment is asked for and nothing has
    changed. *)
Theorem jobHandler_parser_fault X this message w instGithub sha repoconf e :
  Fetched X this message w instGithub sha repoconf ->
  yaml_safeLoad X repoconf = Rejected e ->
  Js.name e <> "YAMLException" ->
  jobHandler X this message w = (Rejected e, w).
Proof.
  intros Hf Hy Hn. unfold jobHandler, settle.
  erewrite bind_Throw; [done|].
  rewrite (prepare_fetched _ _ _ _ _ _ _ Hf). cbv zeta.
  apply bind_Throw. unfold parseConfig, tryCatch. rewrite Hy. simpl.
  by rewrite (string_eqb_false _ _ Hn).
Qed.

Lemma jobHandler_parser_fault_witness :
  Js.name Cases.unavailable <> "YAMLException"
  /\ jobHandler Cases.parserDown Scenario.handlers Scenario.push Scenario.world
     = (Rejected Cases.unavailable, Scenario.world).
Proof.
  assert (Js.name Cases.unavailable <> "YAMLException") as Hn by discriminate.
  split; [exact Hn|].
  exact (jobHandler_parser_fault Cases.parserDown
           Scenario.handlers Scenario.push Scenario.world Scenario.github "abc"
           "dGFza3M6Cg==" Cases.unavailable
           (Scenario_fetched Cases.parserDown Scenario.graph Scenario.push
              Scenario.world eq_refl eq_refl)
           eq_refl Hn).
Defined.

(** ** What the handlers leave alone *)

Section Keeps.

Variable R : World -> World -> Prop.
Hypothesis R_refl : forall w, R w w.
Hypothesis R_trans : forall w1 w2 w3, R w1 w2 -> R w2 w3 -> R w1 w3.

Lemma keeps_ret {A} (a : A) : keeps R (ret a).
Proof. intros w c w' [= <- <-]. apply R_refl. Qed.

Lemma keeps_throw {A} e : keeps R (throw (A := A) e).
Proof. intros w c w' [= <- <-]. apply R_refl. Qed.

Lemma keeps_returnNow {A} : keeps R (returnNow (A := A)).
Proof. intros w c w' [= <- <-]. apply R_refl. Qed.

Lemma keeps_await {A} (r : Answer A) : keeps R (await r).
Proof. destruct r; [apply keeps_ret|apply keeps_throw]. Qed.

Lemma keeps_newDate : keeps R newDate.
Proof. intros w c w' [= <- <-]. apply R_refl. Qed.

Lemma keeps_bind {A B} (m : Act A) (k : A -> Act B) :
  keeps R m -> (forall a, keeps R (k a)) -> keeps R (bind m k).
Proof.
  intros Hm Hk w c w' H. unfold bind in H.
  destruct (m w) as [[a| |e] w1] eqn:E; specialize (Hm _ _ _ E).
  - eapply R_trans; [exact Hm|]. eapply Hk, H.
  - by injection H as <- <-.
  - by injection H as <- <-.
Qed.

Lemma keeps_tryCatch {A} (body : Act A) (handler : Js.Error -> Act A) :
  keeps R body -> (forall e, keeps R (handler e)) -> keeps R (tryCatch body handler).
Proof.
  intros Hb Hh w c w' H. unfold tryCatch in H.
  destruct (body w) as [[a| |e] w1] eqn:E; specialize (Hb _ _ _ E).
  - by injection H as <- <-.
  - by injection H as <- <-.
  - eapply R_trans; [exact Hb|]. eapply Hh, H.
Qed.

Lemma keepsSettled_settle {A} (m : Act A) : keeps R m -> keepsSettled R (settle m).
Proof.
  intros Hm w a w' H. unfold settle in H.
  destruct (m w) as [[x| |e] w1] eqn:E; specialize (Hm _ _ _ E);
    by injection H as <- <-.
Qed.

Lemma keeps_Promise_all calls :
  Forall (keepsSettled R) calls -> keeps R (Promise_all calls).
Proof.
  induction 1 as [|call calls Hcall _ IH]; [apply keeps_ret|].
  intros w c w' H. simpl in H.
  destruct (call w) as [[u|e] w1] eqn:E; specialize (Hcall _ _ _ E).
  - eapply R_trans; [exact Hcall|]. eapply IH, H.
  - destruct (Promise_all calls w1) as [c2 w2] eqn:E2.
    injection H as <- <-. eapply R_trans; [exact Hcall|]. eapply IH, E2.
Qed.

End Keeps.

Lemma onlyAdds_refl w : onlyAdds w w.
Proof. by repeat split. Qed.

Lemma onlyAdds_trans w1 w2 w3 : onlyAdds w1 w2 -> onlyAdds w2 w3 -> onlyAdds w1 w3.
Proof.
  intros (HB1 & HC1 & Hi1 & Hc1 & Hr1 & Ht1 & Hu1 & Hk1)
         (HB2 & HC2 & Hi2 & Hc2 & Hr2 & Ht2 & Hu2 & Hk2).
  split; [congruence|]. split; [auto|].
  split; [by etrans|]. split; [by etrans|]. split; [by etrans|].
  split; [by etrans|]. split; congruence.
Qed.

Lemma keeps_issues_createComment_call instGithub c :
  keeps onlyAdds (issues_createComment_call instGithub c).
Proof.
  intros w r w' H. unfold issues_createComment_call in H.
  destruct (issues_createComment instGithub c); injection H as <- <-;
    [|apply onlyAdds_refl].
  repeat split; try done. by apply prefix_app_r.
Qed.

Lemma keeps_repos_createCommitComment_call instGithub c :
  keeps onlyAdds (repos_createCommitComment_call instGithub c).
Proof.
  intros w r w' H. unfold repos_createCommitComment_call in H.
  destruct (repos_createCommitComment instGithub c); injection H as <- <-;
    [|apply onlyAdds_refl].
  repeat split; try done. by apply prefix_app_r.
Qed.

Lemma keeps_checks_create_call instGithub c :
  keeps onlyAdds (checks_create_call instGithub c).
Proof.
  intros w r w' H. unfold checks_create_call in H.
  destruct (checks_create instGithub c); injection H as <- <-;
    [|apply onlyAdds_refl].
  repeat split; try done. by apply prefix_app_r.
Qed.

Lemma keeps_CheckRuns_create ctx c : keeps onlyAdds (CheckRuns_create ctx c).
Proof.
  intros w r w' H. unfold CheckRuns_create in H.
  destruct (tableFault ctx _); [injection H as <- <-; apply onlyAdds_refl|].
  destruct (CheckRuns w !! _) eqn:E; injection H as <- <-; [apply onlyAdds_refl|].
  repeat split; try done. simpl. intros k c' Hk.
  rewrite lookup_insert_ne; [done|]. congruence.
Qed.

Lemma keeps_createExceptionComment instGithub organization repository sha e pullNumber :
  keeps onlyAdds
    (createExceptionComment instGithub organization repository sha e pullNumber).
Proof.
  unfold createExceptionComment. destruct (Js.truthyNumber pullNumber).
  - apply keeps_issues_createComment_call.
  - apply keeps_repos_createCommitComment_call.
Qed.

Lemma keeps_createTasks X scopes tasks : keeps onlyAdds (createTasks X scopes tasks).
Proof.
  intros w c w' H.
  destruct (createTasks_run X scopes tasks w) as (c0 & w0 & Hrun & _ & Hs & Hcc & Ht).
  rewrite H in Hrun. injection Hrun as <- <-.
  destruct Hs as (HB & HC & Hk & Hcr & Hu & Hi).
  split; [done|]. split; [intros k x; by rewrite HC|].
  split; [by rewrite Hi|]. split; [by rewrite Hcc|]. split; [by rewrite Hcr|].
  split; [rewrite Ht; by apply prefix_app_r|]. done.
Qed.

(** Goals [keeps onlyAdds m], by the structure of [m]. *)
Ltac frame :=
  repeat first
    [ exact onlyAdds_refl
    | exact onlyAdds_trans
    | apply keeps_issues_createComment_call
    | apply keeps_repos_createCommitComment_call
    | apply keeps_checks_create_call
    | apply keeps_CheckRuns_create
    | apply keeps_createExceptionComment
    | apply keeps_createTasks
    | apply keeps_ret
    | apply keeps_throw
    | apply keeps_returnNow
    | apply keeps_await
    | apply keeps_newDate
    | apply keeps_bind
    | apply keeps_tryCatch
    | match goal with
      | |- keeps _ (if ?b then _ else _) => destruct b
      | |- forall _, _ => intro
      end ].

Lemma keeps_recordCheckRun this l taskGroupId groupState i t :
  keepsSettled onlyAdds (recordCheckRun this l taskGroupId groupState i t).
Proof.
  apply keepsSettled_settle. frame.
Qed.

Lemma keeps_prepare X this message : keeps onlyAdds (prepare X this message).
Proof.
  unfold prepare, resolveSha, fetchConfig, parseConfig, compileGraph, checkPermission,
    branch.
  frame.
Qed.

Lemma bind_Normal_inv {A B} (m : Act A) (k : A -> Act B) w b w' :
  bind m k w = (Normal b, w') ->
  exists a w1, m w = (Normal a, w1) /\ k a w1 = (Normal b, w').
Proof.
  unfold bind. destruct (m w) as [[a| |e] w1]; [eauto|discriminate..].
Qed.

(** The locals with which [prepare] hands over to the submission. *)
Lemma prepare_locals X this message w l w1 :
  prepare X this message w = (Normal l, w1) ->
  l_groupState l = {| status := "queued"; conclusion := None; completed_at := None |}
  /\ l_taskGroupId l = "nonexistent"
  /\ l_payload l = decodePayload message
  /\ l_organization l = Js.replacePercent (organization message)
  /\ l_repository l = Js.replacePercent (repository message).
Proof.
  unfold prepare. intros H.
  apply bind_Normal_inv in H as (instGithub & w2 & _ & H). cbv zeta in H.
  apply bind_Normal_inv in H as (sha & w3 & _ & H).
  apply bind_Normal_inv in H as (repoconf & w4 & _ & H).
  apply bind_Normal_inv in H as (u & w5 & _ & H).
  apply bind_Normal_inv in H as (graphConfig & w6 & _ & H).
  apply bind_Normal_inv in H as (u' & w7 & _ & H).
  by injection H as <- <-.
Qed.

Lemma keeps_recordCheckRuns this l taskGroupId groupState tasks :
  keeps onlyAdds (Promise_all (imap (recordCheckRun this l taskGroupId groupState) tasks)).
Proof.
  apply keeps_Promise_all; [exact onlyAdds_refl|exact onlyAdds_trans|].
  apply Forall_forall. intros call Hin.
  apply list_elem_of_lookup in Hin as [i Hi]. rewrite list_lookup_imap in Hi.
  destruct (tasks !! i); simplify_eq/=. apply keeps_recordCheckRun.
Qed.

(** The finally block of an instance without a [Builds] property adds to
    the world and then, at most, creates the Build record. *)
Lemma finallyBlock_changes this l taskGroupId groupState w c w' :
  own_Builds this = None ->
  finallyBlock this l taskGroupId groupState w = (c, w') ->
  exists w2,
    onlyAdds w w2
    /\ (w' = w2
        \/ (c = Normal tt /\ Builds w2 !! taskGroupId = None
            /\ w' = setBuilds
                      (<[taskGroupId :=
                           newBuild l taskGroupId (stateOf groupState) (clock w2)]>
                         (Builds w2)) w2)).
Proof.
  intros Hown H. unfold finallyBlock, bind at 1 in H.
  destruct (Promise_all _ w) as [[u| |e] w2] eqn:E;
    pose proof (keeps_recordCheckRuns _ _ _ _ _ _ _ _ E) as Hadds;
    exists w2; (split; [exact Hadds|]); try (left; congruence).
  unfold newDate at 1, bind at 1, tryCatch, Builds_create in H. simpl in H.
  destruct (tableFault _ _) as [e|].
  - left. destruct (negb _); [by injection H|].
    unfold compareWithExisting, this_Builds_load in H. rewrite Hown in H.
    by injection H.
  - destruct (Builds w2 !! taskGroupId) eqn:Hlook.
    + left. simpl in H. unfold compareWithExisting, this_Builds_load in H.
      rewrite Hown in H. by injection H.
    + right. by injection H as <- <-.
Qed.

Lemma submitAndRecord_changes X this l w c w' :
  own_Builds this = None ->
  l_groupState l = {| status := "queued"; conclusion := None; completed_at := None |} ->
  submitAndRecord X this l w = (c, w') ->
  exists w2 taskGroupId state,
    onlyAdds w w2 /\ initialState state
    /\ (w' = w2
        \/ (Builds w2 !! taskGroupId = None
            /\ w' = setBuilds
                      (<[taskGroupId := newBuild l taskGroupId state (clock w)]>
                         (Builds w2)) w2)).
Proof.
  intros Hown Hgs H. unfold submitAndRecord in H.
  destruct (tryBlock X l w) as [taskGroupId [tried w1]] eqn:Etry.
  assert (onlyAdds w w1) as H1.
  { unfold tryBlock in Etry. destruct (tasks (l_graphConfig l)).
    - injection Etry as _ _ <-. apply onlyAdds_refl.
    - destruct (createTasks X _ _ w) as [c1 w1'] eqn:E.
      injection Etry as _ <- <-. eapply keeps_createTasks, E. }
  destruct (catchBlock X l (tried, w1)) as [groupState [pending w2]] eqn:Ecatch.
  assert (onlyAdds w1 w2 /\ initialState (stateOf groupState)) as [H2 Hstate].
  { unfold catchBlock in Ecatch. destruct tried as [u| |e].
    - injection Ecatch as <- _ <-. split; [apply onlyAdds_refl|].
      rewrite Hgs. by left.
    - injection Ecatch as <- _ <-. split; [apply onlyAdds_refl|].
      rewrite Hgs. by left.
    - destruct (createExceptionComment _ _ _ _ _ _ w1) as [c2 w2'] eqn:E.
      injection Ecatch as <- _ <-. split; [|by right].
      eapply keeps_createExceptionComment, E. }
  destruct (finallyBlock this l taskGroupId groupState w2) as [c3 w3] eqn:Efin.
  destruct (finallyBlock_changes _ _ _ _ _ _ _ Hown Efin) as (w4 & H3 & Hend).
  assert (onlyAdds w w4) as Hadds
    by (eapply onlyAdds_trans; [|exact H3]; eapply onlyAdds_trans; eauto).
  assert (w' = w3) as -> by (destruct c3; by injection H).
  exists w4, taskGroupId, (stateOf groupState).
  split; [done|]. split; [done|].
  destruct Hend as [->|(_ & Hnone & ->)]; [by left|right].
  split; [done|]. destruct Hadds as (_ & _ & _ & _ & _ & _ & _ & ->). done.
Qed.

(** Every run of the job handler, for an instance without a [Builds]
    property: the world is added to, and then at most one Build record,
    made of the message, is created under a key that was free. *)
Lemma jobHandler_changes X this message w r w' :
  own_Builds this = None ->
  jobHandler X this message w = (r, w') ->
  exists w2,
    onlyAdds w w2
    /\ (w' = w2
        \/ exists l taskGroupId state,
             initialState state /\ l_payload l = decodePayload message
             /\ l_organization l = Js.replacePercent (organization message)
             /\ l_repository l = Js.replacePercent (repository message)
             /\ Builds w2 !! taskGroupId = None
             /\ w' = setBuilds
                       (<[taskGroupId := newBuild l taskGroupId state (clock w)]>
                          (Builds w2)) w2).
Proof.
  intros Hown H. unfold jobHandler, settle, bind in H.
  destruct (prepare X this message w) as [[l| |e] w1] eqn:Eprep;
    pose proof (keeps_prepare _ _ _ _ _ _ Eprep) as H1;
    try (exists w1; split; [done|]; left; congruence).
  destruct (prepare_locals _ _ _ _ _ _ Eprep) as (Hgs & _ & Hp & Ho & Hr).
  destruct (submitAndRecord X this l w1) as [c w3] eqn:Esub.
  assert (w' = w3) as -> by (destruct c; by injection H).
  destruct (submitAndRecord_changes _ _ _ _ _ _ Hown Hgs Esub)
    as (w2 & taskGroupId & state & H2 & Hstate & Hend).
  exists w2. split; [by eapply onlyAdds_trans|].
  destruct Hend as [->|[Hnone ->]]; [by left|right].
  exists l, taskGroupId, state. repeat split; try done.
  destruct H1 as (_ & _ & _ & _ & _ & _ & _ & ->). done.
Qed.

(** X8.  The job handler of an instance made by the constructor takes
    nothing away, however its run goes: every Build record and every Check
    record that was in the tables is still there unchanged, the comments,
    the check-runs created and the tasks created are those from before with
    at most more after them, no check-run has been updated. *)
Theorem jobHandler_only_adds X this message w r w' :
  own_Builds this = None ->
  jobHandler X this message w = (r, w') ->
  (forall k b, Builds w !! k = Some b -> Builds w' !! k = Some b)
  /\ (forall k c, CheckRuns w !! k = Some c -> CheckRuns w' !! k = Some c)
  /\ issueComments w `prefix_of` issueComments w'
  /\ commitComments w `prefix_of` commitComments w'
  /\ checkRunsCreated w `prefix_of` checkRunsCreated w'
  /\ tasksCreated w `prefix_of` tasksCreated w'
  /\ checkRunsUpdated w' = checkRunsUpdated w
  /\ clock w' = clock w.
Proof.
  intros Hown H.
  destruct (jobHandler_changes _ _ _ _ _ _ Hown H)
    as (w2 & (HB & HC & Hi & Hc & Hr & Ht & Hu & Hk) & Hend).
  destruct Hend as [->|(l & taskGroupId & state & _ & _ & _ & _ & Hnone & ->)].
  - repeat split; try done. intros k b. by rewrite HB.
  - repeat split; try done. simpl. intros k b Hb.
    rewrite lookup_insert_ne; [by rewrite HB|].
    intros ->. rewrite HB in Hnone. congruence.
Qed.

Lemma jobHandler_only_adds_witness :
  let run := jobHandler Scenario.refusing Scenario.handlers Scenario.push
               (Scenario.worldWith "success") in
  own_Builds Scenario.handlers = None
  /\ Builds (snd run) !! "G" = Some (Scenario.build "success")
  /\ CheckRuns (snd run) !! ("G", "t1") = Some Scenario.check.
Proof.
  split; [reflexivity|].
  destruct (jobHandler_only_adds Scenario.refusing Scenario.handlers Scenario.push
              (Scenario.worldWith "success")
              (fst (jobHandler Scenario.refusing Scenario.handlers Scenario.push
                      (Scenario.worldWith "success")))
              (snd (jobHandler Scenario.refusing Scenario.handlers Scenario.push
                      (Scenario.worldWith "success")))
              eq_refl (surjective_pairing _)) as (HB & HC & _).
  split; [apply HB|apply HC]; reflexivity.
Defined.

(** X9.  The job handler of an instance made by the constructor creates at
    most one Build record in a run.  The record it creates is stored under
    its own task group, is made of the message (decoded organization and
    repository, installation, event type and event identifier), is in
    state 'queued' or 'failure', and has the time of the run as its created
    and its updated time. *)
Theorem jobHandler_one_build X this message w r w' :
  own_Builds this = None ->
  jobHandler X this message w = (r, w') ->
  (forall k b,
     Builds w !! k = None -> Builds w' !! k = Some b ->
     b_taskGroupId b = k
     /\ initialState (b_state b)
     /\ b_created b = clock w /\ b_updated b = clock w
     /\ b_organization b = Js.replacePercent (organization message)
     /\ b_repository b = Js.replacePercent (repository message)
     /\ b_installationId b = installationId message
     /\ b_eventType b = event_type (details message)
     /\ b_eventId b = eventId message)
  /\ (forall k1 k2,
        Builds w !! k1 = None -> Builds w !! k2 = None ->
        is_Some (Builds w' !! k1) -> is_Some (Builds w' !! k2) -> k1 = k2).
Proof.
  intros Hown H.
  destruct (jobHandler_changes _ _ _ _ _ _ Hown H) as (w2 & (HB & _) & Hend).
  destruct Hend
    as [->|(l & taskGroupId & state & Hstate & Hp & Ho & Hr & Hnone & ->)].
  - split.
    + intros k b Hk Hb. rewrite HB in Hb. congruence.
    + intros k1 k2 Hk1 _ [b Hb] _. rewrite HB in Hb. congruence.
  - assert (forall k, Builds w !! k = None ->
              is_Some (<[taskGroupId := newBuild l taskGroupId state (clock w)]>
                         (Builds w2) !! k) -> k = taskGroupId) as Hkey.
    { intros k Hk [b Hb]. destruct (decide (k = taskGroupId)) as [|Hne]; [done|].
      rewrite lookup_insert_ne in Hb by done. rewrite HB in Hb. congruence. }
    split.
    + intros k b Hk Hb. simpl in Hb.
      rewrite (Hkey k Hk (ex_intro _ b Hb)) in Hb |- *.
      rewrite lookup_insert_eq in Hb. injection Hb as <-. simpl.
      rewrite Hp. by repeat split.
    + intros k1 k2 Hk1 Hk2 H1 H2. simpl in H1, H2.
      by rewrite (Hkey k1 Hk1 H1), (Hkey k2 Hk2 H2).
Qed.

Lemma jobHandler_one_build_witness :
  let run := jobHandler Scenario.refusing Scenario.handlers Scenario.push Scenario.world in
  own_Builds Scenario.handlers = None
  /\ Builds Scenario.world !! "G" = None
  /\ Builds (snd run) !! "G" = Some (Scenario.build "failure")
  /\ initialState (b_state (Scenario.build "failure")).
Proof.
  assert (Builds (snd (jobHandler Scenario.refusing Scenario.handlers Scenario.push
                         Scenario.world)) !! "G"
          = Some (Scenario.build "failure")) as Hbuild by (vm_compute; reflexivity).
  split; [reflexivity|]. split; [reflexivity|]. split; [exact Hbuild|].
  destruct (jobHandler_one_build Scenario.refusing Scenario.handlers Scenario.push
              Scenario.world
              (fst (jobHandler Scenario.refusing Scenario.handlers Scenario.push
                      Scenario.world))
              (snd (jobHandler Scenario.refusing Scenario.handlers Scenario.push
                      Scenario.world))
              eq_refl (surjective_pairing _)) as [Hnew _].
  apply (Hnew "G" (Scenario.build "failure") eq_refl Hbuild).
Defined.

(** ** The bookkeeping when a collaborator fails *)

(** Lines 421-495 in three steps, for a graph with a first task. *)
Lemma submitAndRecord_steps X this l first rest w tried w1 :
  tasks (l_graphConfig l) = first :: rest ->
  createTasks X (scopes (l_graphConfig l)) (tasks (l_graphConfig l)) w = (tried, w1) ->
  exists pending w2,
    (pending, w2)
    = match tried with
      | Throw e =>
          createExceptionComment (l_instGithub l) (l_organization l)
            (l_repository l) (l_sha l) e None w1
      | _ => (tried, w1)
      end
    /\ onlyAdds w w2
    /\ sameRecords w w2
    /\ submitAndRecord X this l w
       = match finallyBlock this l (taskGroupId (task first))
                 (groupStateAfter X l tried w) w2 with
         | (Normal _, w3) => (pending, w3)
         | other => other
         end.
Proof.
  intros Ht Hrun.
  pose proof (keeps_createTasks _ _ _ _ _ _ Hrun) as H1.
  assert (sameRecords w w1) as Hs1.
  { destruct (createTasks_run X (scopes (l_graphConfig l)) (tasks (l_graphConfig l)) w)
      as (c0 & w0 & Hrun0 & _ & Hs & _). rewrite Hrun in Hrun0.
    by injection Hrun0 as <- <-. }
  assert (clock w1 = clock w) as Hclock by apply H1.
  unfold submitAndRecord, tryBlock. rewrite Ht, <- Ht, Hrun.
  unfold catchBlock, groupStateAfter. rewrite Hclock.
  destruct tried as [u| |e].
  - exists (Normal u), w1. split; [done|]. split; [exact H1|by split].
  - exists Return, w1. split; [done|]. split; [exact H1|by split].
  - destruct (createExceptionComment _ _ _ _ e None w1) as [c2 w2] eqn:E.
    exists c2, w2. split; [done|]. split; [|split; [|done]].
    + eapply onlyAdds_trans; [exact H1|]. eapply keeps_createExceptionComment, E.
    + destruct (createExceptionComment_on_commit (l_instGithub l) (l_organization l)
                  (l_repository l) (l_sha l) e w1) as (c & w' & Hrun' & _ & Hs & _).
      rewrite E in Hrun'. injection Hrun' as <- <-. by eapply sameRecords_trans.
Qed.

Lemma Promise_all_rejected calls :
  Exists (fun call => forall w, exists e w', call w = (Rejected e, w')) calls ->
  forall w, exists e w', Promise_all calls w = (Throw e, w').
Proof.
  induction 1 as [call calls Hcall|call calls _ IH]; intros w; simpl.
  - destruct (Hcall w) as (e & w1 & ->). eauto.
  - destruct (call w) as [[u|e] w1]; [apply IH|eauto].
Qed.

(** X10.  When GitHub turns down the creation of the check-run of some
    task of the graph, the handler is rejected and no Build record is
    created, although the tasks the queue accepted have been created: the
    Builds table is as it was. *)
Theorem jobHandler_check_run_rejected
    X this message w instGithub sha graphConfig tried w1 i t e :
  Compiled X this message w instGithub sha graphConfig ->
  Permitted X message ->
  createTasks X (scopes graphConfig) (tasks graphConfig) w = (tried, w1) ->
  tasks graphConfig !! i = Some t ->
  checks_create instGithub
    (checkRunRequest this (localsOf message instGithub sha graphConfig)
       (taskGroupIdOf graphConfig)
       (groupStateAfter X (localsOf message instGithub sha graphConfig) tried w) i t)
  = Rejected e ->
  exists e' w',
    jobHandler X this message w = (Rejected e', w')
    /\ Builds w' = Builds w
    /\ (tasksCreated w ++ accepted X (scopes graphConfig) (tasks graphConfig))%list
       `prefix_of` tasksCreated w'.
Proof.
  intros Hc Hp Hrun Hi Hrej.
  destruct (Compiled_first _ _ _ _ _ _ _ Hc) as (first & rest & Ht).
  set (l := localsOf message instGithub sha graphConfig) in *.
  rewrite (jobHandler_permitted _ _ _ _ _ _ _ Hc Hp). fold l. unfold settle.
  destruct (submitAndRecord_steps X this l first rest w tried w1 Ht Hrun)
    as (pending & w2 & Hcatch & Hadds & _ & ->).
  unfold taskGroupIdOf in Hrej. rewrite Ht in Hrej.
  set (tgid := taskGroupId (task first)) in *.
  set (gs := groupStateAfter X l tried w) in *.
  destruct (Promise_all_rejected
              (imap (recordCheckRun this l tgid gs) (tasks (l_graphConfig l)))) with (w := w2)
    as (e' & w3 & Hall).
  { apply Exists_exists. exists (recordCheckRun this l tgid gs i t). split.
    - apply list_elem_of_lookup. exists i. rewrite list_lookup_imap.
      simpl. by rewrite Hi.
    - intros w0. exists e, w0. unfold recordCheckRun, settle.
      erewrite bind_Throw; [done|]. unfold checks_create_call. simpl.
      by rewrite Hrej. }
  pose proof (keeps_recordCheckRuns _ _ _ _ _ _ _ _ Hall) as H3.
  unfold finallyBlock. erewrite (bind_Throw _ _ w2); [|exact Hall].
  exists e', w3. split; [done|].
  destruct H3 as (HB3 & _ & _ & _ & _ & Htasks3 & _).
  split; [rewrite HB3; apply Hadds|].
  destruct (createTasks_run X (scopes graphConfig) (tasks graphConfig) w)
    as (c0 & w0 & Hrun0 & _ & _ & _ & Hcreated).
  rewrite Hrun in Hrun0. injection Hrun0 as <- <-. rewrite <- Hcreated.
  etrans; [|exact Htasks3].
  destruct tried as [u| |e0]; try (injection Hcatch as _ <-; done).
  symmetry in Hcatch. by apply keeps_createExceptionComment in Hcatch as (_ & _ & _ & _ & _ & ? & _).
Qed.

Lemma Cases_compiled X this message w instGithub graphConfig :
  (forall n, github_getInstallationGithub (context this) n = Resolved instGithub) ->
  event_head_sha (details message) = Some "abc" ->
  (forall owner repo path ref,
     repos_getContent instGithub owner repo path ref = Resolved "dGFza3M6Cg==") ->
  Buffer_base64_toString X = (fun s => s) ->
  yaml_safeLoad X "dGFza3M6Cg==" = Resolved tt ->
  intree this "dGFza3M6Cg==" (decodePayload message) = Resolved graphConfig ->
  tasks graphConfig <> [] ->
  Compiled X this message w instGithub "abc" graphConfig.
Proof.
  intros Hauth Hsha Hcontent Hdecode Hyaml Hintree Htasks.
  exists "dGFza3M6Cg==". split; [|by repeat split].
  split.
  - split; [apply Hauth|]. unfold resolveSha. simpl. by rewrite Hsha.
  - exists "dGFza3M6Cg==". split; [apply Hcontent|]. by rewrite Hdecode.
Defined.

Lemma jobHandler_check_run_rejected_witness :
  let this := Scenario.handlersWith Cases.githubWithoutChecks Scenario.graph in
  tasks Scenario.graph !! 1 = Some (Scenario.taskOf "t2" "G")
  /\ exists e' w',
       jobHandler Scenario.imports this Scenario.push Scenario.world = (Rejected e', w')
       /\ Builds w' = Builds Scenario.world.
Proof.
  split; [reflexivity|].
  assert (tasks Scenario.graph <> []) as Htasks by discriminate.
  destruct (jobHandler_check_run_rejected Scenario.imports
              (Scenario.handlersWith Cases.githubWithoutChecks Scenario.graph)
              Scenario.push Scenario.world Cases.githubWithoutChecks "abc"
              Scenario.graph
              (fst (createTasks Scenario.imports (scopes Scenario.graph)
                      (tasks Scenario.graph) Scenario.world))
              (snd (createTasks Scenario.imports (scopes Scenario.graph)
                      (tasks Scenario.graph) Scenario.world))
              1 (Scenario.taskOf "t2" "G") Cases.unavailable
              (Cases_compiled Scenario.imports
                 (Scenario.handlersWith Cases.githubWithoutChecks Scenario.graph)
                 Scenario.push Scenario.world Cases.githubWithoutChecks Scenario.graph
                 (fun _ => eq_refl) eq_refl (fun _ _ _ _ => eq_refl) eq_refl eq_refl
                 eq_refl Htasks)
              (Scenario_push_permitted _) (surjective_pairing _) eq_refl eq_refl)
    as (e' & w' & Hrun & HB & _).
  exists e', w'. by split.
Defined.

(** The Check-record table answers every creation. *)
Lemma recordCheckRun_stored this l taskGroupId groupState i t created w :
  (forall c, tableFault (context this) (CreateCheckRun c) = None) ->
  checks_create (l_instGithub l) (checkRunRequest this l taskGroupId groupState i t)
  = Resolved created ->
  recordCheckRun this l taskGroupId groupState i t w
  = (Resolved tt,
     recordEffect taskGroupId (checkRunRequest this l taskGroupId groupState i t)
       created t w).
Proof.
  intros Hf Hc. unfold recordCheckRun, settle, recordEffect.
  erewrite bind_Normal; cycle 1.
  { unfold checks_create_call. by rewrite Hc. }
  unfold tryCatch, CheckRuns_create. rewrite Hf. simpl.
  by destruct (CheckRuns w !! (taskGroupId, taskId t)).
Qed.

(** X11.  A fault of the storage service at the creation of the Build
    record, other than EntityAlreadyExists, is the rejection of the handler
    (lines 480-483).  By then the check-runs of all tasks have been
    created; the Builds table is as it was. *)
Theorem jobHandler_build_not_stored
    X this message w instGithub sha graphConfig tried w1 e :
  Compiled X this message w instGithub sha graphConfig ->
  Permitted X message ->
  AcceptsCheckRuns instGithub ->
  (forall c, tableFault (context this) (CreateCheckRun c) = None) ->
  createTasks X (scopes graphConfig) (tasks graphConfig) w = (tried, w1) ->
  let l := localsOf message instGithub sha graphConfig in
  tableFault (context this)
    (CreateBuild (newBuild l (taskGroupIdOf graphConfig)
                    (stateOf (groupStateAfter X l tried w)) (clock w))) = Some e ->
  isEntityAlreadyExists (Js.code e) = false ->
  exists w',
    jobHandler X this message w = (Rejected e, w')
    /\ Builds w' = Builds w
    /\ List.length (checkRunsCreated w')
       = List.length (checkRunsCreated w) + List.length (tasks graphConfig).
Proof.
  intros Hc Hp Hgh Hf Hrun l Hfault Hcode.
  destruct (Compiled_first _ _ _ _ _ _ _ Hc) as (first & rest & Ht).
  rewrite (jobHandler_permitted _ _ _ _ _ _ _ Hc Hp). fold l. unfold settle.
  destruct (submitAndRecord_steps X this l first rest w tried w1 Ht Hrun)
    as (pending & w2 & Hcatch & Hadds & Hsame & ->).
  unfold taskGroupIdOf in Hfault. rewrite Ht in Hfault.
  set (tgid := taskGroupId (task first)) in *.
  set (gs := groupStateAfter X l tried w) in *.
  destruct (Promise_all_recorded tgid (tasks (l_graphConfig l))
              (recordCheckRun this l tgid gs) (checkRunRequest this l tgid gs)) with (w := w2)
    as (w3 & Hall & Hrec).
  { intros j t' _. destruct (Hgh (checkRunRequest this l tgid gs j t')) as [created Hcr].
    exists created. intros w0. by apply recordCheckRun_stored. }
  unfold finallyBlock. erewrite bind_Normal; [|exact Hall].
  unfold newDate at 1, bind at 1, tryCatch, Builds_create. simpl.
  rewrite (recorded_clock _ _ _ _ _ Hrec).
  destruct Hadds as (HB & _ & _ & _ & Hcr & _ & _ & Hclock).
  rewrite Hclock, Hfault, Hcode. simpl.
  exists w3. split; [done|]. split; [by rewrite (recorded_Builds _ _ _ _ _ Hrec)|].
  rewrite (recorded_requests _ _ _ _ _ Hrec), length_app, length_imap.
  destruct Hsame as (_ & _ & _ & -> & _). done.
Qed.

Lemma jobHandler_build_not_stored_witness :
  let this := constructor (fun _ _ => Resolved Scenario.graph)
                (Cases.contextFailingCreate Cases.unavailable) in
  isEntityAlreadyExists (Js.code Cases.unavailable) = false
  /\ exists w',
       jobHandler Scenario.imports this Scenario.push Scenario.world
       = (Rejected Cases.unavailable, w')
       /\ Builds w' = Builds Scenario.world
       /\ List.length (checkRunsCreated w') = 2.
Proof.
  split; [reflexivity|].
  assert (tasks Scenario.graph <> []) as Htasks by discriminate.
  exact (jobHandler_build_not_stored Scenario.imports
           (constructor (fun _ _ => Resolved Scenario.graph)
              (Cases.contextFailingCreate Cases.unavailable))
           Scenario.push Scenario.world Scenario.github "abc" Scenario.graph
           (fst (createTasks Scenario.imports (scopes Scenario.graph)
                   (tasks Scenario.graph) Scenario.world))
           (snd (createTasks Scenario.imports (scopes Scenario.graph)
                   (tasks Scenario.graph) Scenario.world))
           Cases.unavailable
           (Cases_compiled Scenario.imports
              (constructor (fun _ _ => Resolved Scenario.graph)
                 (Cases.contextFailingCreate Cases.unavailable))
              Scenario.push Scenario.world Scenario.github Scenario.graph
              (fun _ => eq_refl) eq_refl (fun _ _ _ _ => eq_refl) eq_refl eq_refl
              eq_refl Htasks)
           (Scenario_push_permitted _) (Scenario_accepts_check_runs _)
           (fun _ => eq_refl) (surjective_pairing _) eq_refl eq_refl).
Defined.

(** The comparison of lines 487-493 passes for a record with the six
    fields of the message and raises an AssertionError otherwise. *)
Lemma compareWithExisting_run this l taskGroupId state existing w :
  own_Builds this = Some (Builds_load (context this)) ->
  NoTableFault (context this) ->
  Builds w !! taskGroupId = Some existing ->
  let same :=
    b_state existing = state /\ b_organization existing = l_organization l
    /\ b_repository existing = l_repository l /\ b_sha existing = l_sha l
    /\ b_eventType existing = event_type (details (l_payload l))
    /\ b_eventId existing = eventId (l_payload l) in
  (same -> compareWithExisting this l taskGroupId state w = (Normal tt, w))
  /\ (~ same ->
      exists msg,
        compareWithExisting this l taskGroupId state w = (Throw (Js.AssertionError msg), w)).
Proof.
  intros Hown Hf Hlook same. unfold compareWithExisting, this_Builds_load.
  rewrite Hown.
  rewrite (bind_Normal _ _ _ _ _ (Builds_load_found _ _ _ _ Hf Hlook)).
  unfold bind, assert_equal, same. split.
  - intros (-> & -> & -> & -> & -> & ->). by rewrite !String.eqb_refl.
  - intros Hdiff.
    destruct (String.eqb (b_state existing) state) eqn:E1; [|simpl; eauto].
    destruct (String.eqb (b_organization existing) (l_organization l)) eqn:E2;
      [|simpl; eauto].
    destruct (String.eqb (b_repository existing) (l_repository l)) eqn:E3;
      [|simpl; eauto].
    destruct (String.eqb (b_sha existing) (l_sha l)) eqn:E4; [|simpl; eauto].
    destruct (String.eqb (b_eventType existing) (event_type (details (l_payload l))))
      eqn:E5; [|simpl; eauto].
    destruct (String.eqb (b_eventId existing) (eventId (l_payload l))) eqn:E6;
      [|simpl; eauto].
    exfalso. apply Hdiff.
    apply String.eqb_eq in E1, E2, E3, E4, E5, E6. by repeat split.
Qed.

(** X12.  What lines 484-493 do once [this.Builds] is the Builds table of
    the context: for an instance with such a property, a message whose task
    group already has a Build record is handled without another record;
    when the state, organization, repository, sha, event type and event
    identifier of the record are those of the message the handler ends as
    the submission ended, and when one of them differs it is rejected with
    an AssertionError.  The Builds table is as it was in both cases. *)
Theorem jobHandler_duplicate_compared
    X this message w instGithub sha graphConfig existing tried w1 :
  own_Builds this = Some (Builds_load (context this)) ->
  Compiled X this message w instGithub sha graphConfig ->
  Permitted X message ->
  NoTableFault (context this) ->
  AcceptsCheckRuns instGithub ->
  Builds w !! taskGroupIdOf graphConfig = Some existing ->
  createTasks X (scopes graphConfig) (tasks graphConfig) w = (tried, w1) ->
  let l := localsOf message instGithub sha graphConfig in
  let same :=
    b_state existing = stateOf (groupStateAfter X l tried w)
    /\ b_organization existing = Js.replacePercent (organization message)
    /\ b_repository existing = Js.replacePercent (repository message)
    /\ b_sha existing = sha
    /\ b_eventType existing = event_type (details message)
    /\ b_eventId existing = eventId message in
  (same ->
   exists r w',
     jobHandler X this message w = (r, w') /\ Builds w' = Builds w
     /\ (tried = Normal tt -> r = Resolved tt))
  /\ (~ same ->
      exists msg w',
        jobHandler X this message w = (Rejected (Js.AssertionError msg), w')
        /\ Builds w' = Builds w).
Proof.
  intros Hown Hc Hp Hf Hgh Hdup Hrun l same.
  destruct (Compiled_first _ _ _ _ _ _ _ Hc) as (first & rest & Ht).
  rewrite (jobHandler_permitted _ _ _ _ _ _ _ Hc Hp). fold l. unfold settle.
  destruct (submitAndRecord_run X this l first rest w Ht Hf Hgh)
    as (tried' & w1' & pending & w2 & w3 & Hrun' & _ & Hpending & Hcatch & Hsame & _
        & Hrec & ->).
  simpl in Hrun'. rewrite Hrun in Hrun'. injection Hrun' as <- <-.
  unfold taskGroupIdOf in Hdup. rewrite Ht in Hdup. rewrite Hdup.
  assert (Builds w3 = Builds w) as HB.
  { rewrite (recorded_Builds _ _ _ _ _ Hrec). apply Hsame. }
  assert (Builds w3 !! taskGroupId (task first) = Some existing) as Hlook
    by by rewrite HB.
  destruct (compareWithExisting_run this l (taskGroupId (task first))
              (stateOf (groupStateAfter X l tried w)) existing w3 Hown Hf Hlook)
    as [Hpass Hfail].
  split.
  - intros Hsame'. rewrite (Hpass Hsame').
    exists (match pending with Throw e => Rejected e | _ => Resolved tt end), w3.
    split; [by destruct pending|]. split; [done|].
    intros ->. by injection Hcatch as ->.
  - intros Hdiff. destruct (Hfail Hdiff) as [msg ->]. by exists msg, w3.
Qed.

Lemma jobHandler_duplicate_compared_witness :
  let first := jobHandler Scenario.imports Cases.handlersWithBuilds Scenario.push
                 Scenario.world in
  own_Builds Cases.handlersWithBuilds
  = Some (Builds_load (context Cases.handlersWithBuilds))
  /\ fst first = Resolved tt
  /\ exists w',
       jobHandler Scenario.imports Cases.handlersWithBuilds Scenario.push (snd first)
       = (Resolved tt, w')
       /\ Builds w' = Builds (snd first).
Proof.
  assert (Builds (snd (jobHandler Scenario.imports Cases.handlersWithBuilds
                         Scenario.push Scenario.world)) !! "G"
          = Some (Scenario.build "queued")) as Hbuild by (vm_compute; reflexivity).
  split; [reflexivity|]. split; [vm_compute; reflexivity|].
  assert (tasks Scenario.graph <> []) as Htasks by discriminate.
  destruct (jobHandler_duplicate_compared Scenario.imports Cases.handlersWithBuilds
              Scenario.push _ Scenario.github "abc" Scenario.graph
              (Scenario.build "queued")
              (fst (createTasks Scenario.imports (scopes Scenario.graph)
                      (tasks Scenario.graph)
                      (snd (jobHandler Scenario.imports Cases.handlersWithBuilds
                              Scenario.push Scenario.world))))
              (snd (createTasks Scenario.imports (scopes Scenario.graph)
                      (tasks Scenario.graph)
                      (snd (jobHandler Scenario.imports Cases.handlersWithBuilds
                              Scenario.push Scenario.world))))
              eq_refl
              (Cases_compiled Scenario.imports Cases.handlersWithBuilds Scenario.push _
                 Scenario.github Scenario.graph
                 (fun _ => eq_refl) eq_refl (fun _ _ _ _ => eq_refl) eq_refl eq_refl
                 eq_refl Htasks)
              (Scenario_push_permitted _) (Scenario_no_table_fault _)
              (Scenario_accepts_check_runs _) Hbuild (surjective_pairing _))
    as [Hpass _].
  destruct Hpass as (r & w' & Hrun & HB & Hr); [by repeat split|].
  exists w'. rewrite Hrun, (Hr eq_refl). by split.
Defined.

(** ** From the job handler to the status handler *)

(** The Check record of a task, made of what GitHub answered to the
    creation of its check-run. *)
Lemma recordEffect_new taskGroupId request created t w :
  CheckRuns w !! (taskGroupId, taskId t) = None ->
  CheckRuns (recordEffect taskGroupId request created t w)
  = <[(taskGroupId, taskId t) :=
        {| c_taskGroupId := taskGroupId; c_taskId := taskId t;
           c_checkSuiteId := pretty (check_suite_id created);
           c_checkRunId := pretty (id created) |}]> (CheckRuns w).
Proof. intros H. unfold recordEffect. simpl. by rewrite H. Qed.

Lemma Promise_all_contents taskGroupId tasks :
  forall (callback : nat -> GraphTask -> World -> Answer unit * World)
         (request : nat -> GraphTask -> CheckCreate)
         (created : nat -> GraphTask -> CheckCreated) w w',
    (forall i t, tasks !! i = Some t ->
       forall w,
         callback i t w
         = (Resolved tt, recordEffect taskGroupId (request i t) (created i t) t w)) ->
    NoDup (map taskId tasks) ->
    (forall t, In t tasks -> CheckRuns w !! (taskGroupId, taskId t) = None) ->
    Promise_all (imap callback tasks) w = (Normal tt, w') ->
    forall i t, tasks !! i = Some t ->
      CheckRuns w' !! (taskGroupId, taskId t)
      = Some {| c_taskGroupId := taskGroupId; c_taskId := taskId t;
                c_checkSuiteId := pretty (check_suite_id (created i t));
                c_checkRunId := pretty (id (created i t)) |}.
Proof.
  induction tasks as [|t0 tasks IH]; intros callback request created w w' Hcb Hnd Hfree Hrun;
    [intros i t Hi; discriminate Hi|].
  simpl in Hrun. rewrite (Hcb 0 t0 eq_refl w) in Hrun.
  set (w1 := recordEffect taskGroupId (request 0 t0) (created 0 t0) t0 w) in *.
  assert (CheckRuns w1
          = <[(taskGroupId, taskId t0) :=
                {| c_taskGroupId := taskGroupId; c_taskId := taskId t0;
                   c_checkSuiteId := pretty (check_suite_id (created 0 t0));
                   c_checkRunId := pretty (id (created 0 t0)) |}]> (CheckRuns w)) as Hw1
    by (apply recordEffect_new, Hfree; by left).
  simpl in Hnd. apply NoDup_cons in Hnd as [Hnotin Hnd].
  assert (forall t, In t tasks -> CheckRuns w1 !! (taskGroupId, taskId t) = None) as Hfree1.
  { intros t Hin. rewrite Hw1, lookup_insert_ne; [apply Hfree; by right|].
    intros [= Heq]. apply Hnotin. rewrite Heq.
    apply list_elem_of_In, in_map, Hin. }
  intros [|i] t Hi.
  - injection Hi as <-.
    destruct (Promise_all_recorded taskGroupId tasks (callback ∘ S) (request ∘ S)) with (w := w1)
      as (w2 & Hrun2 & Hrec).
    { intros j t' Hj. exists (created (S j) t'). apply (Hcb (S j) t' Hj). }
    rewrite Hrun in Hrun2. injection Hrun2 as <-.
    apply (recorded_kept _ _ _ _ _ Hrec). by rewrite Hw1, lookup_insert_eq.
  - apply (IH (callback ∘ S) (request ∘ S) (created ∘ S) w1 w'); try done.
    intros j t' Hj. apply (Hcb (S j) t' Hj).
Qed.

(** What the status handler does once the two records are found, whatever
    the state of the message. *)
Lemma statusHandler_found X this message w build checkRun :
  NoTableFault (context this) ->
  Builds w !! sm_taskGroupId message = Some build ->
  CheckRuns w !! (sm_taskGroupId message, sm_taskId message) = Some checkRun ->
  let request :=
    {| cu_owner := b_organization build; cu_repo := b_repository build;
       cu_check_run_id := c_checkRunId checkRun;
       cu_status := "completed";
       cu_conclusion := CONCLUSIONS (sm_state message);
       cu_completed_at := toISOString X (clock w) |} in
  statusHandler X this message w
  = match github_getInstallationGithub (context this) (b_installationId build) with
    | Rejected e => (Rejected e, w)
    | Resolved instGithub =>
        match checks_update instGithub request with
        | Rejected e => (Rejected e, w)
        | Resolved _ =>
            (Resolved tt,
             {| issueComments := issueComments w;
                commitComments := commitComments w;
                checkRunsCreated := checkRunsCreated w;
                checkRunsUpdated := checkRunsUpdated w ++ [request];
                tasksCreated := tasksCreated w;
                Builds := Builds w;
                CheckRuns := CheckRuns w;
                clock := clock w |})
        end
    end.
Proof.
  intros Hf Hb Hc. cbv zeta. unfold statusHandler, settle.
  rewrite (bind_Normal _ _ _ _ _ (Builds_load_found _ _ _ _ Hf Hb)).
  unfold newDate at 1. unfold bind at 1.
  rewrite (bind_Normal _ _ _ _ _ (CheckRuns_load_found _ _ _ _ Hf Hc)).
  unfold bind, tryCatch, await, checks_update_call.
  destruct (github_getInstallationGithub _ _) as [instGithub|e]; simpl; [|done].
  by destruct (checks_update instGithub _).
Qed.

(** X13.  From the job handler to the status handler.  After the first
    handling of a message, for a graph whose tasks have different task
    identifiers, a task message for a task of the graph makes the status
    handler ask for the update of the check-run whose identifier GitHub
    answered when the job handler created the check-run of that task, in the
    decoded organization and repository of the job message and as the
    installation of that message. *)
Theorem statusHandler_after_jobHandler
    X this message w instGithub sha graphConfig tried w1 i t created state :
  Compiled X this message w instGithub sha graphConfig ->
  Permitted X message ->
  NoTableFault (context this) ->
  AcceptsCheckRuns instGithub ->
  Builds w !! taskGroupIdOf graphConfig = None ->
  NoDup (map taskId (tasks graphConfig)) ->
  (forall t', In t' (tasks graphConfig) ->
     CheckRuns w !! (taskGroupIdOf graphConfig, taskId t') = None) ->
  createTasks X (scopes graphConfig) (tasks graphConfig) w = (tried, w1) ->
  tasks graphConfig !! i = Some t ->
  checks_create instGithub
    (checkRunRequest this (localsOf message instGithub sha graphConfig)
       (taskGroupIdOf graphConfig)
       (groupStateAfter X (localsOf message instGithub sha graphConfig) tried w) i t)
  = Resolved created ->
  let w' := snd (jobHandler X this message w) in
  let request :=
    {| cu_owner := Js.replacePercent (organization message);
       cu_repo := Js.replacePercent (repository message);
       cu_check_run_id := pretty (id created);
       cu_status := "completed";
       cu_conclusion := CONCLUSIONS state;
       cu_completed_at := toISOString X (clock w) |} in
  statusHandler X this
    {| sm_taskGroupId := taskGroupIdOf graphConfig; sm_taskId := taskId t;
       sm_state := state |} w'
  = match github_getInstallationGithub (context this) (installationId message) with
    | Rejected e => (Rejected e, w')
    | Resolved instGithub' =>
        match checks_update instGithub' request with
        | Rejected e => (Rejected e, w')
        | Resolved _ =>
            (Resolved tt,
             {| issueComments := issueComments w';
                commitComments := commitComments w';
                checkRunsCreated := checkRunsCreated w';
                checkRunsUpdated := checkRunsUpdated w' ++ [request];
                tasksCreated := tasksCreated w';
                Builds := Builds w';
                CheckRuns := CheckRuns w';
                clock := clock w' |})
        end
    end.
Proof.
  intros Hc Hp Hf Hgh Hnew Hnd Hfree Hrun Hi Hcreated w' request.
  destruct (Compiled_first _ _ _ _ _ _ _ Hc) as (first & rest & Ht).
  set (l := localsOf message instGithub sha graphConfig) in *.
  assert (taskGroupIdOf graphConfig = taskGroupId (task first)) as Etg
    by (unfold taskGroupIdOf; by rewrite Ht).
  rewrite Etg in *.
  set (tgid := taskGroupId (task first)) in *.
  set (gs := groupStateAfter X l tried w) in *.
  destruct (submitAndRecord_steps X this l first rest w tried w1 Ht Hrun)
    as (pending & w2 & Hcatch & _ & Hsame & Hsub).
  fold tgid gs in Hsub.
  destruct Hsame as (HB & HC & Hclock & _).
  pose (createdOf := fun j t' =>
          match checks_create instGithub (checkRunRequest this l tgid gs j t') with
          | Resolved r => r
          | Rejected _ => created
          end).
  assert (forall j t', tasks graphConfig !! j = Some t' ->
            forall w0,
              recordCheckRun this l tgid gs j t' w0
              = (Resolved tt,
                 recordEffect tgid (checkRunRequest this l tgid gs j t')
                   (createdOf j t') t' w0)) as Hcb.
  { intros j t' _ w0. apply recordCheckRun_resolved; [done|]. unfold createdOf.
    change (l_instGithub l) with instGithub.
    by destruct (Hgh (checkRunRequest this l tgid gs j t')) as [r ->]. }
  destruct (Promise_all_recorded tgid (tasks graphConfig)
              (recordCheckRun this l tgid gs) (checkRunRequest this l tgid gs)) with (w := w2)
    as (w3 & Hall & Hrec); [by eauto|].
  assert (CheckRuns w3 !! (tgid, taskId t)
          = Some {| c_taskGroupId := tgid; c_taskId := taskId t;
                    c_checkSuiteId := pretty (check_suite_id created);
                    c_checkRunId := pretty (id created) |}) as Hcheck.
  { rewrite (Promise_all_contents tgid (tasks graphConfig) _ _ createdOf w2 w3
               Hcb Hnd) with (i := i) (t := t); try done.
    - unfold createdOf. by rewrite Hcreated.
    - intros t' Hin. rewrite HC. by apply Hfree. }
  assert (w' = setBuilds (<[tgid := newBuild l tgid (stateOf gs) (clock w)]> (Builds w3)) w3)
    as Hw'.
  { unfold w'. rewrite (jobHandler_permitted _ _ _ _ _ _ _ Hc Hp). fold l.
    unfold settle. rewrite Hsub. unfold finallyBlock.
    erewrite bind_Normal; [|exact Hall].
    unfold newDate at 1, bind at 1, tryCatch, Builds_create. rewrite Hf. simpl.
    rewrite (recorded_clock _ _ _ _ _ Hrec), Hclock.
    rewrite (recorded_Builds _ _ _ _ _ Hrec), HB, Hnew. by destruct pending. }
  assert (clock w' = clock w) as Hclock'.
  { rewrite Hw'. simpl. by rewrite (recorded_clock _ _ _ _ _ Hrec). }
  rewrite (statusHandler_found X this _ w' (newBuild l tgid (stateOf gs) (clock w))
             {| c_taskGroupId := tgid; c_taskId := taskId t;
                c_checkSuiteId := pretty (check_suite_id created);
                c_checkRunId := pretty (id created) |} Hf).
  - simpl. by rewrite Hclock'.
  - rewrite Hw'. simpl. by rewrite lookup_insert_eq.
  - rewrite Hw'. exact Hcheck.
Qed.

Lemma statusHandler_after_jobHandler_witness :
  let w' := snd (jobHandler Scenario.imports Scenario.handlers Scenario.push
                   Scenario.world) in
  NoDup (map taskId (tasks Scenario.graph))
  /\ statusHandler Scenario.imports Scenario.handlers
       {| sm_taskGroupId := "G"; sm_taskId := "t2"; sm_state := "completed" |} w'
     = (Resolved tt,
        {| issueComments := issueComments w';
           commitComments := commitComments w';
           checkRunsCreated := checkRunsCreated w';
           checkRunsUpdated :=
             [ {| cu_owner := "my.org"; cu_repo := "repo"; cu_check_run_id := "11";
                  cu_status := "completed"; cu_conclusion := Some "success";
                  cu_completed_at := "5" |} ];
           tasksCreated := tasksCreated w';
           Builds := Builds w';
           CheckRuns := CheckRuns w';
           clock := clock w' |}).
Proof.
  assert (NoDup (map taskId (tasks Scenario.graph))) as Hnd.
  { simpl. apply NoDup_cons. split; [|apply NoDup_singleton].
    intros Hin. apply list_elem_of_singleton in Hin. discriminate Hin. }
  split; [exact Hnd|].
  assert (tasks Scenario.graph <> []) as Htasks by discriminate.
  exact (statusHandler_after_jobHandler Scenario.imports Scenario.handlers Scenario.push
           Scenario.world Scenario.github "abc" Scenario.graph
           (fst (createTasks Scenario.imports (scopes Scenario.graph)
                   (tasks Scenario.graph) Scenario.world))
           (snd (createTasks Scenario.imports (scopes Scenario.graph)
                   (tasks Scenario.graph) Scenario.world))
           1 (Scenario.taskOf "t2" "G") Scenario.created "completed"
           (Scenario_compiled _ _ _ Scenario.graph Scenario.push Scenario.world
              eq_refl Htasks)
           (Scenario_push_permitted _) (Scenario_no_table_fault _)
           (Scenario_accepts_check_runs _) eq_refl Hnd (fun _ _ => eq_refl)
           (surjective_pairing _) eq_refl eq_refl).
Defined.

(** ** The status handler at its edges *)




(** X15.  A task message for which the Build record or the Check record
    is missing (lines 231-244): the status handler is rejected with the
    not-found error of the table, no update is asked for and nothing has
    changed. *)
Theorem statusHandler_record_missing X this message w :
  NoTableFault (context this) ->
  Builds w !! sm_taskGroupId message = None
  \/ CheckRuns w !! (sm_taskGroupId message, sm_taskId message) = None ->
  statusHandler X this message w = (Rejected ResourceNotFound, w).
Proof.
  intros Hf Hmissing. unfold statusHandler, settle.
  destruct (Builds w !! sm_taskGroupId message) as [build|] eqn:Hb.
  - destruct Hmissing as [|Hc]; [done|].
    rewrite (bind_Normal _ _ _ _ _ (Builds_load_found _ _ _ _ Hf Hb)).
    unfold newDate at 1. unfold bind at 1.
    erewrite bind_Throw; [done|]. unfold CheckRuns_load. by rewrite Hf, Hc.
  - erewrite bind_Throw; [done|]. unfold Builds_load. by rewrite Hf, Hb.
Qed.

Lemma statusHandler_record_missing_witness :
  CheckRuns (Scenario.worldWith "queued")
    !! (sm_taskGroupId Cases.taskUnknown, sm_taskId Cases.taskUnknown) = None
  /\ statusHandler Scenario.imports Scenario.handlers Cases.taskUnknown
       (Scenario.worldWith "queued")
     = (Rejected ResourceNotFound, Scenario.worldWith "queued").
Proof.
  assert (CheckRuns (Scenario.worldWith "queued")
            !! (sm_taskGroupId Cases.taskUnknown, sm_taskId Cases.taskUnknown) = None)
    as Hmissing by (vm_compute; reflexivity).
  split; [exact Hmissing|].
  exact (statusHandler_record_missing Scenario.imports Scenario.handlers
           Cases.taskUnknown (Scenario.worldWith "queued")
           (Scenario_no_table_fault _) (or_intror Hmissing)).
Defined.

(** X16.  Every run of the status handler, whatever the collaborators
    answer: the two tables, the comments, the check-runs created and the
    tasks are as they were.  When the handler resolves, exactly one update
    has been asked for, to status 'completed'; when it is rejected, none. *)
Theorem statusHandler_only_updates X this message w :
  let r := fst (statusHandler X this message w) in
  let w' := snd (statusHandler X this message w) in
  sameButUpdates w w'
  /\ (r = Resolved tt ->
      exists u, checkRunsUpdated w' = (checkRunsUpdated w ++ [u])%list
                /\ cu_status u = "completed"
                /\ cu_conclusion u = CONCLUSIONS (sm_state message)
                /\ cu_completed_at u = toISOString X (clock w))
  /\ (forall e, r = Rejected e -> w' = w).
Proof.
  cbv zeta. unfold statusHandler, settle, bind, Builds_load, CheckRuns_load, tryCatch,
    await, checks_update_call, newDate, ret, throw.
  destruct (tableFault (context this) (LoadBuild _));
    [simpl; by repeat split|].
  destruct (Builds w !! _) as [build|]; [|simpl; by repeat split].
  destruct (tableFault (context this) (LoadCheckRun _));
    [simpl; by repeat split|].
  destruct (CheckRuns w !! _) as [checkRun|]; [|simpl; by repeat split].
  destruct (github_getInstallationGithub _ _) as [instGithub|e];
    [|simpl; by repeat split].
  destruct (checks_update instGithub _) as [[]|e]; simpl.
  - split; [by repeat split|]. split; [eauto|]. discriminate.
  - by repeat split.
Qed.

(** ** The group status handler at its edges *)

(** X17.  A task-group message for which there is no Build record (lines
    191-193): the group status handler is rejected with the not-found error
    of the table before it asks the queue for anything, whatever the
    listing of the group is like, and nothing has changed. *)
Theorem groupStatusHandler_build_missing X this fuel message w :
  tableFault (context this) (LoadBuild (gm_taskGroupId message)) = None ->
  Builds w !! gm_taskGroupId message = None ->
  groupStatusHandler X this fuel message w = Some (Rejected ResourceNotFound, w).
Proof.
  intros Hf Hb. unfold groupStatusHandler, Builds_load. by rewrite Hf, Hb.
Qed.

Lemma groupStatusHandler_build_missing_witness :
  Builds Scenario.world !! gm_taskGroupId Scenario.resolved = None
  /\ groupStatusHandler Cases.importsEndless Scenario.handlers 0 Scenario.resolved
       Scenario.world
     = Some (Rejected ResourceNotFound, Scenario.world).
Proof.
  split; [reflexivity|].
  exact (groupStatusHandler_build_missing Cases.importsEndless Scenario.handlers 0
           Scenario.resolved Scenario.world eq_refl eq_refl).
Defined.

Lemma listLoop_broken X taskGroupId token n e :
  brokenListing X taskGroupId token n e ->
  forall groupState fuel,
    n < fuel -> listLoop X fuel taskGroupId token groupState = Some (Rejected e).
Proof.
  induction 1 as [token e Hq|token page n e Hq Ht _ IH]; intros gs fuel Hfuel;
    (destruct fuel as [|fuel]; [lia|]); simpl; rewrite Hq; [done|].
  rewrite Ht. apply IH. lia.
Qed.

(** X18.  When a request of the listing is rejected (line 205), on the
    first page or on a later one, the group status handler is rejected
    with that error and the Build record is not touched, whatever the pages
    before have shown: nothing has changed. *)
Theorem groupStatusHandler_listing_rejected X this message w b n e :
  NoTableFault (context this) ->
  Builds w !! gm_taskGroupId message = Some b ->
  brokenListing X (gm_taskGroupId message) None n e ->
  forall fuel, n < fuel ->
    groupStatusHandler X this fuel message w = Some (Rejected e, w).
Proof.
  intros Hf Hb Hbroken fuel Hfuel. unfold groupStatusHandler.
  rewrite (Builds_load_found _ _ _ _ Hf Hb).
  by rewrite (listLoop_broken _ _ _ _ _ Hbroken "success" fuel Hfuel).
Qed.

Lemma groupStatusHandler_listing_rejected_witness :
  brokenListing Cases.importsBrokenListing "G" None 1 Cases.unavailable
  /\ groupStatusHandler Cases.importsBrokenListing Scenario.handlers 2 Scenario.resolved
       (Scenario.worldWith "queued")
     = Some (Rejected Cases.unavailable, Scenario.worldWith "queued").
Proof.
  assert (brokenListing Cases.importsBrokenListing "G" None 1 Cases.unavailable)
    as Hbroken.
  { eapply broken_later; [reflexivity..|]. apply broken_here. reflexivity. }
  split; [exact Hbroken|].
  apply (groupStatusHandler_listing_rejected Cases.importsBrokenListing
           Scenario.handlers Scenario.resolved (Scenario.worldWith "queued")
           (Scenario.build "queued") 1 Cases.unavailable
           (Scenario_no_table_fault _) eq_refl Hbroken 2).
  lia.
Defined.

Lemma listLoop_endless X taskGroupId :
  endless X taskGroupId ->
  forall fuel token groupState, listLoop X fuel taskGroupId token groupState = None.
Proof.
  intros Hendless. induction fuel as [|fuel IH]; intros token gs; [done|].
  simpl. destruct (Hendless token) as (page & -> & ->). apply IH.
Qed.

(** X19.  The loop of lines 204-212 has no bound of its own: with a queue
    that hands out a continuation token with every page the group status
    handler never comes to an end, and the Build record is never written. *)
Theorem groupStatusHandler_endless X this message w b :
  NoTableFault (context this) ->
  Builds w !! gm_taskGroupId message = Some b ->
  endless X (gm_taskGroupId message) ->
  forall fuel, groupStatusHandler X this fuel message w = None.
Proof.
  intros Hf Hb Hendless fuel. unfold groupStatusHandler.
  rewrite (Builds_load_found _ _ _ _ Hf Hb).
  by rewrite (listLoop_endless _ _ Hendless).
Qed.

Lemma groupStatusHandler_endless_witness :
  endless Cases.importsEndless (gm_taskGroupId Scenario.resolved)
  /\ groupStatusHandler Cases.importsEndless Scenario.handlers 1000 Scenario.resolved
       (Scenario.worldWith "queued") = None.
Proof.
  assert (endless Cases.importsEndless (gm_taskGroupId Scenario.resolved)) as Hendless.
  { intros token. eexists. split; reflexivity. }
  split; [exact Hendless|].
  exact (groupStatusHandler_endless Cases.importsEndless Scenario.handlers
           Scenario.resolved (Scenario.worldWith "queued") (Scenario.build "queued")
           (Scenario_no_table_fault _) eq_refl Hendless 1000).
Defined.

Lemma scanTasks_states tasks groupState :
  scanTasks tasks groupState = groupState \/ scanTasks tasks groupState = "failure".
Proof.
  revert groupState. induction tasks as [|t tasks IH]; intros gs; [by left|].
  rewrite scanTasks_cons. destruct (includes _ (status_state t)); [|apply IH].
  right. apply scanTasks_failure.
Qed.

Lemma listLoop_states X fuel taskGroupId :
  forall token groupState result,
    listLoop X fuel taskGroupId token groupState = Some (Resolved result) ->
    result = groupState \/ result = "failure".
Proof.
  induction fuel as [|fuel IH]; intros token gs result H; [discriminate H|].
  simpl in H. destruct (Queue_listTaskGroup X taskGroupId token) as [page|e];
    [|discriminate H].
  destruct (scanTasks_states (tasks_of_page page) gs) as [Hs|Hs]; rewrite Hs in H.
  - destruct (Js.truthy _); [by apply IH in H|]. injection H as <-. by left.
  - destruct (Js.truthy _).
    + apply IH in H as [->| ->]; by right.
    + injection H as <-. by right.
Qed.

(** X20.  Every run of the group status handler that comes to an end,
    whatever the collaborators answer: only the Build record of the task
    group of the message can have changed, and of that record only the
    state and the updated time; the comments, the check-runs, the tasks and
    the Check records are as they were.  A record in state 'failure' is
    left as it is.  When the handler resolves, the state of the record is
    'success' or 'failure': it is never left 'queued'. *)
Theorem groupStatusHandler_only_state X this fuel message w r w' :
  groupStatusHandler X this fuel message w = Some (r, w') ->
  (forall k, k <> gm_taskGroupId message -> Builds w' !! k = Builds w !! k)
  /\ CheckRuns w' = CheckRuns w
  /\ issueComments w' = issueComments w /\ commitComments w' = commitComments w
  /\ checkRunsCreated w' = checkRunsCreated w
  /\ checkRunsUpdated w' = checkRunsUpdated w
  /\ tasksCreated w' = tasksCreated w /\ clock w' = clock w
  /\ (forall b, Builds w !! gm_taskGroupId message = Some b ->
        exists state updated,
          Builds w' !! gm_taskGroupId message
          = Some {| b_organization := b_organization b; b_repository := b_repository b;
                    b_sha := b_sha b; b_taskGroupId := b_taskGroupId b;
                    b_state := state; b_created := b_created b; b_updated := updated;
                    b_installationId := b_installationId b;
                    b_eventType := b_eventType b; b_eventId := b_eventId b |}
          /\ (b_state b = "failure" -> state = "failure" /\ updated = b_updated b)
          /\ (r = Resolved tt -> finalState state))
  /\ (Builds w !! gm_taskGroupId message = None ->
      Builds w' !! gm_taskGroupId message = None).
Proof.
  intros H. unfold groupStatusHandler, Builds_load in H.
  assert (forall b : Build,
             {| b_organization := b_organization b; b_repository := b_repository b;
                b_sha := b_sha b; b_taskGroupId := b_taskGroupId b;
                b_state := b_state b; b_created := b_created b; b_updated := b_updated b;
                b_installationId := b_installationId b;
                b_eventType := b_eventType b; b_eventId := b_eventId b |} = b) as Hid
    by (by intros []).
  assert (w' = w ->
          (forall k, k <> gm_taskGroupId message -> Builds w' !! k = Builds w !! k)
          /\ CheckRuns w' = CheckRuns w
          /\ issueComments w' = issueComments w /\ commitComments w' = commitComments w
          /\ checkRunsCreated w' = checkRunsCreated w
          /\ checkRunsUpdated w' = checkRunsUpdated w
          /\ tasksCreated w' = tasksCreated w /\ clock w' = clock w) as Hsame
    by (by intros ->).
  destruct (tableFault (context this) (LoadBuild _)) as [e|].
  { injection H as <- <-. destruct (Hsame eq_refl) as (?&?&?&?&?&?&?&?).
    repeat split; try done. intros b Hb. exists (b_state b), (b_updated b).
    rewrite Hid. split; [done|]. split; [done|discriminate]. }
  destruct (Builds w !! gm_taskGroupId message) as [b|] eqn:Hb; cycle 1.
  { injection H as <- <-. by repeat split. }
  destruct (listLoop X fuel _ None "success") as [[groupState|e]|] eqn:Hloop;
    [|injection H as <- <-|discriminate H].
  - unfold settle, Builds_modify in H.
    destruct (tableFault (context this) (ModifyBuild _)) as [e|].
    { injection H as <- <-. destruct (Hsame eq_refl) as (?&?&?&?&?&?&?&?).
      repeat split; try done. intros b' [= <-]. exists (b_state b), (b_updated b).
      rewrite Hid. split; [done|]. split; [done|discriminate]. }
    rewrite Hb in H.
    destruct (string_dec (b_state b) "failure") as [Hs|Hs].
    + rewrite (groupModifier_failure _ _ _ Hs), (insert_id _ _ _ Hb), setBuilds_same in H.
      injection H as <- <-. destruct (Hsame eq_refl) as (?&?&?&?&?&?&?&?).
      repeat split; try done. intros b' [= <-]. exists (b_state b), (b_updated b).
      rewrite Hid. split; [done|]. split; [done|]. intros _. by right.
    + rewrite (groupModifier_other _ _ _ Hs) in H. injection H as <- <-. simpl.
      split; [intros k Hk; by rewrite lookup_insert_ne|].
      repeat split; try done. intros b' [= <-]. exists groupState, (clock w).
      rewrite lookup_insert_eq. split; [done|]. split; [done|].
      intros _. apply listLoop_states in Hloop as [->| ->]; [by left|by right].
  - destruct (Hsame eq_refl) as (?&?&?&?&?&?&?&?).
    repeat split; try done. intros b' [= <-]. exists (b_state b), (b_updated b).
    rewrite Hid. split; [done|]. split; [done|discriminate].
Qed.

Lemma groupStatusHandler_only_state_witness :
  exists w',
    groupStatusHandler Scenario.imports Scenario.handlers 2 Scenario.resolved
      (Scenario.worldWith "queued") = Some (Resolved tt, w')
    /\ CheckRuns w' = CheckRuns (Scenario.worldWith "queued")
    /\ exists state updated,
         Builds w' !! "G"
         = Some {| b_organization := "my.org"; b_repository := "repo"; b_sha := "abc";
                   b_taskGroupId := "G"; b_state := state; b_created := 5;
                   b_updated := updated; b_installationId := 1;
                   b_eventType := "push"; b_eventId := "e1" |}
         /\ finalState state.
Proof.
  destruct (groupStatusHandler Scenario.imports Scenario.handlers 2 Scenario.resolved
              (Scenario.worldWith "queued")) as [[r w']|] eqn:Hrun;
    [|discriminate Hrun].
  assert (r = Resolved tt) as -> by (vm_compute in Hrun; congruence).
  exists w'. split; [reflexivity|].
  destruct (groupStatusHandler_only_state Scenario.imports Scenario.handlers 2
              Scenario.resolved (Scenario.worldWith "queued") (Resolved tt) w' Hrun)
    as (_ & HC & _ & _ & _ & _ & _ & _ & Hrecord & _).
  split; [exact HC|].
  destruct (Hrecord (Scenario.build "queued") eq_refl)
    as (state & updated & Hlook & _ & Hfinal).
  exists state, updated. split; [exact Hlook|]. by apply Hfinal.
Defined.

(** ** The wrapper of the handlers *)

Lemma callHandler_world i handler s :
  sv_world (snd (callHandler i handler s)) = snd (handler (sv_world s)).
Proof.
  unfold callHandler, reportToMonitor, callHooks.
  destruct (handler (sv_world s)) as [[u|err] w']; simpl.
  - by destruct (i_handlerComplete i).
  - destruct (reportError (i_monitor i) err); simpl; [|done].
    by destruct (i_handlerRejected i).
Qed.


Lemma deliver_cons i call calls s :
  deliver i (call :: calls) s
  = (match fst (callHandler i call s) with
     | Some e => e :: fst (deliver i calls (snd (callHandler i call s)))
     | None => fst (deliver i calls (snd (callHandler i call s)))
     end,
     snd (deliver i calls (snd (callHandler i call s)))).
Proof.
  simpl. destruct (callHandler i call s) as [unhandled s1]. simpl.
  destruct (deliver i calls s1) as [others s2]. by destruct unhandled.
Qed.



(** X22.  When the monitor itself fails to take the error of a handler
    (line 102), neither test hook is called for that message, the error of
    the handler reaches nobody, and the rejection of the monitor is left
    unhandled; what the handler did to the world stays. *)
Theorem callHandler_monitor_down i handler s err w' e :
  handler (sv_world s) = (Rejected err, w') ->
  reportError (i_monitor i) err = Rejected e ->
  callHandler i handler s
  = (Some e,
     {| sv_world := w'; sv_reported := sv_reported s;
        sv_completed := sv_completed s; sv_rejected := sv_rejected s |}).
Proof.
  intros Hhandler Hmonitor. unfold callHandler, reportToMonitor.
  by rewrite Hhandler, Hmonitor.
Qed.

Lemma callHandler_monitor_down_witness :
  let i := Cases.instanceWith true Cases.monitorDown in
  let s := Cases.supervised (Scenario.worldWith "queued") in
  fst (callHandler i (statusHandler Scenario.imports Scenario.handlers Cases.taskUnknown) s)
  = Some Cases.unavailable
  /\ snd (callHandler i
            (statusHandler Scenario.imports Scenario.handlers Cases.taskUnknown) s) = s.
Proof.
  assert (statusHandler Scenario.imports Scenario.handlers Cases.taskUnknown
            (sv_world (Cases.supervised (Scenario.worldWith "queued")))
          = (Rejected ResourceNotFound, Scenario.worldWith "queued")) as Hrun
    by (vm_compute; reflexivity).
  simpl. rewrite (callHandler_monitor_down (Cases.instanceWith true Cases.monitorDown)
                    _ (Cases.supervised (Scenario.worldWith "queued")) _ _
                    Cases.unavailable Hrun eq_refl).
  by split.
Defined.

(** ** setup and terminate *)

Lemma updateListener_connection name f i :
  i_connection (updateListener name f i) = i_connection i.
Proof. reflexivity. Qed.

Lemma bindListener_connection P name binding i :
  i_connection (snd (bindListener P name binding i)) = i_connection i.
Proof. unfold bindListener. by destruct (pulse_bind P name binding). Qed.

Lemma resumeListener_connection P name i :
  i_connection (snd (resumeListener P name i)) = i_connection i.
Proof. unfold resumeListener. by destruct (pulse_resume P name). Qed.

Lemma allStarted_connection calls :
  Forall (fun call => forall i, i_connection (snd (call i)) = i_connection i) calls ->
  forall i, i_connection (snd (allStarted calls i)) = i_connection i.
Proof.
  induction 1 as [|call calls Hcall _ IH]; intros i; [done|].
  simpl. specialize (Hcall i). destruct (call i) as [[u|e] i1]; simpl in *.
  - by rewrite IH.
  - by rewrite IH.
Qed.

Lemma inSequence_connection steps :
  Forall (fun step => forall i, i_connection (snd (step i)) = i_connection i) steps ->
  forall i, i_connection (snd (inSequence steps i)) = i_connection i.
Proof.
  induction 1 as [|step steps Hstep _ IH]; intros i; [done|].
  simpl. specialize (Hstep i). destruct (step i) as [[u|e] i1]; simpl in *.
  - by rewrite IH.
  - done.
Qed.

Lemma setup_open P i :
  isOpen (i_connection i) = true ->
  setup P i = (Rejected (Js.AssertionError "Cannot setup twice!"), i).
Proof. intros H. unfold setup, inSequence, openConnection. by rewrite H. Qed.

Lemma inSequence_cons step steps i :
  inSequence (step :: steps) i
  = match step i with
    | (Resolved _, i') => inSequence steps i'
    | (Rejected e, i') => (Rejected e, i')
    end.
Proof. reflexivity. Qed.

Lemma openConnection_closed i :
  isOpen (i_connection i) = false ->
  exists i',
    openConnection i = (Resolved tt, i')
    /\ i_connection i' = ConnectionOpen (i_credentials i)
    /\ i_schedulerId i' = i_schedulerId i
    /\ i_jobListener i' = Some (newListener (i_jobQueueName i))
    /\ i_statusListener i' = Some (newListener (i_statusQueueName i))
    /\ i_groupStatusListener i' = Some (newListener (i_statusQueueName i)).
Proof.
  intros H. unfold openConnection. rewrite H. simpl. eexists. by repeat split.
Qed.

(** Whatever the pulse library answers, the connection of line 66 stays. *)
Lemma setup_connects P i :
  isOpen (i_connection i) = false ->
  i_connection (snd (setup P i)) = ConnectionOpen (i_credentials i).
Proof.
  intros Hclosed. unfold setup. rewrite inSequence_cons.
  destruct (openConnection_closed i Hclosed) as (i' & -> & <- & _).
  apply inSequence_connection.
  repeat (apply Forall_cons; split;
          [intros j; first [apply bindListener_connection | reflexivity | idtac]|]);
    try apply Forall_nil.
  apply allStarted_connection.
  repeat (apply Forall_cons; split; [intros j'; apply resumeListener_connection|]).
  all: by try apply Forall_nil.
Qed.

(** X23.  setup runs once (line 65).  On an instance whose connection is
    open it is rejected with 'Cannot setup twice!' and changes nothing.  On
    an instance without an open connection it leaves the connection open
    however it ends, also when a binding or a resume is rejected, so that
    every further setup is rejected by the assertion. *)
Theorem setup_once P i :
  (isOpen (i_connection i) = true ->
   setup P i = (Rejected (Js.AssertionError "Cannot setup twice!"), i))
  /\ (isOpen (i_connection i) = false ->
      i_connection (snd (setup P i)) = ConnectionOpen (i_credentials i)
      /\ forall P',
           setup P' (snd (setup P i))
           = (Rejected (Js.AssertionError "Cannot setup twice!"), snd (setup P i))).
Proof.
  split; [apply setup_open|]. intros Hclosed.
  pose proof (setup_connects P i Hclosed) as Hopen.
  split; [done|]. intros P'. apply setup_open. by rewrite Hopen.
Qed.

Lemma setup_accepted P i :
  pulseAccepts P ->
  isOpen (i_connection i) = false ->
  setup P i
  = (Resolved tt,
     setListener GroupStatusListener
       (Some (listening (i_statusQueueName i) [TaskGroupResolved (i_schedulerId i)]
                GroupStatusHandler))
       (setListener StatusListener
          (Some (listening (i_statusQueueName i)
                   [TaskFailed (i_schedulerId i); TaskException (i_schedulerId i);
                    TaskCompleted (i_schedulerId i)] StatusHandler))
          (setListener JobListener
             (Some (listening (i_jobQueueName i) [PullRequest; Push; Release] JobHandler))
             (setConnection (ConnectionOpen (i_credentials i)) i)))).
Proof.
  intros (Hbind & Hresume & _) Hclosed.
  unfold setup, openConnection, bindListener, resumeListener, onMessageOf.
  rewrite inSequence_cons, Hclosed. simpl. rewrite !Hbind. simpl.
  rewrite !Hresume. reflexivity.
Qed.

(** X24.  What setup leaves when the pulse library accepts every request
    (lines 66-121): the job listener is on the job queue, bound to the
    exchanges of pull requests, pushes and releases, in that order; the
    status listener and the group status listener are both on the status
    queue (line 76 names statusQueueName a second time), the first bound to
    the failed, exception and completed exchanges of the scheduler, the
    second to the resolved task groups; each has its handler and is
    resumed.  Listeners the instance had before are replaced, not extended:
    after a terminate, a second setup gives the same instance again. *)
Theorem setup_listening P i :
  pulseAccepts P ->
  isOpen (i_connection i) = false ->
  exists i',
    setup P i = (Resolved tt, i')
    /\ i_connection i' = ConnectionOpen (i_credentials i)
    /\ i_jobListener i'
       = Some (listening (i_jobQueueName i) [PullRequest; Push; Release] JobHandler)
    /\ i_statusListener i'
       = Some (listening (i_statusQueueName i)
                 [TaskFailed (i_schedulerId i); TaskException (i_schedulerId i);
                  TaskCompleted (i_schedulerId i)] StatusHandler)
    /\ i_groupStatusListener i'
       = Some (listening (i_statusQueueName i) [TaskGroupResolved (i_schedulerId i)]
                 GroupStatusHandler)
    /\ setup P (snd (terminate P i')) = (Resolved tt, i').
Proof.
  intros HP Hclosed. eexists. split; [by apply setup_accepted|].
  repeat (split; [reflexivity|]).
  unfold terminate. simpl. pose proof HP as (_ & _ & ->). simpl.
  rewrite setup_accepted; [|done|done]. reflexivity.
Qed.

Lemma setup_listening_witness :
  let i := Cases.instanceWith false Cases.monitor in
  exists i',
    setup Cases.pulse i = (Resolved tt, i')
    /\ option_map queueName (i_groupStatusListener i') = Some (Some "statuses")
    /\ option_map queueName (i_statusListener i') = Some (Some "statuses").
Proof.
  destruct (setup_listening Cases.pulse (Cases.instanceWith false Cases.monitor)
              (conj (fun _ _ => eq_refl) (conj (fun _ => eq_refl) eq_refl)) eq_refl)
    as (i' & Hrun & _ & _ & Hstatus & Hgroup & _).
  exists i'. split; [exact Hrun|]. by rewrite Hstatus, Hgroup.
Defined.

Lemma bindListener_deaf P name binding i :
  deaf i -> deaf (snd (bindListener P name binding i)).
Proof.
  intros Hdeaf. unfold bindListener. destruct (pulse_bind P name binding); [|done].
  intros name' l. simpl. unfold updateListener.
  pose proof (Hdeaf name) as Hname.
  destruct name, name'; simpl in *;
    first [ exact (Hdeaf JobListener l) | exact (Hdeaf StatusListener l)
          | exact (Hdeaf GroupStatusListener l) | idtac ].
  all: match goal with
       | |- option_map _ ?field = _ -> _ =>
           destruct field as [l0|]; simpl; [intros [= <-]; simpl; by apply Hname|done]
       end.
Qed.

Lemma bindListener_schedulerId P name binding i :
  i_schedulerId (snd (bindListener P name binding i)) = i_schedulerId i.
Proof. unfold bindListener. by destruct (pulse_bind P name binding). Qed.

(** One binding of a sequence: when it is turned down the sequence ends
    there, with the instance as it is. *)
Lemma inSequence_binding P step name binding steps i :
  step i = bindListener P name binding i ->
  deaf i ->
  isOpen (i_connection i) = true ->
  (pulse_bind P name binding = Resolved tt ->
   forall i',
     deaf i' -> isOpen (i_connection i') = true -> i_schedulerId i' = i_schedulerId i ->
     exists e,
       fst (inSequence steps i') = Rejected e
       /\ deaf (snd (inSequence steps i'))
       /\ isOpen (i_connection (snd (inSequence steps i'))) = true) ->
  exists e,
    fst (inSequence (step :: steps) i) = Rejected e
    /\ deaf (snd (inSequence (step :: steps) i))
    /\ isOpen (i_connection (snd (inSequence (step :: steps) i))) = true.
Proof.
  intros Hstep Hdeaf Hopen Hrest. rewrite inSequence_cons, Hstep.
  pose proof (bindListener_deaf P name binding i Hdeaf) as Hdeaf'.
  pose proof (bindListener_connection P name binding i) as Hconn.
  pose proof (bindListener_schedulerId P name binding i) as Hscheduler.
  unfold bindListener in *. destruct (pulse_bind P name binding) as [[]|e]; simpl in *.
  - apply Hrest; [done|done|by rewrite ?Hconn|done].
  - by exists e.
Qed.

(** X25.  When the pulse library turns down one of the seven bindings
    (lines 83-96), setup is rejected before any handler is attached and
    before any listener is resumed: no listener of the instance takes
    messages.  The connection stays as line 66 has set it, so that setup
    cannot be run again on the instance. *)
Theorem setup_binding_rejected P i name binding e :
  isOpen (i_connection i) = false ->
  In (name, binding) (setupBindings (i_schedulerId i)) ->
  pulse_bind P name binding = Rejected e ->
  exists e',
    fst (setup P i) = Rejected e'
    /\ deaf (snd (setup P i))
    /\ isOpen (i_connection (snd (setup P i))) = true.
Proof.
  intros Hclosed Hin Hrejected.
  unfold setup. rewrite inSequence_cons.
  destruct (openConnection_closed i Hclosed)
    as (i0 & -> & Hconn & Hs0 & Hjob & Hstatus & Hgroup).
  assert (deaf i0) as Hdeaf0.
  { intros [] l; simpl; rewrite ?Hjob, ?Hstatus, ?Hgroup; by intros [= <-]. }
  assert (isOpen (i_connection i0) = true) as Hopen0 by (by rewrite Hconn).
  clear Hconn Hjob Hstatus Hgroup.
  eapply inSequence_binding; [reflexivity|done|done|]. intros H1 i1 Hdeaf1 Hopen1 Hs1.
  eapply inSequence_binding; [reflexivity|done|done|]. intros H2 i2 Hdeaf2 Hopen2 Hs2.
  eapply inSequence_binding; [reflexivity|done|done|]. intros H3 i3 Hdeaf3 Hopen3 Hs3.
  eapply inSequence_binding; [reflexivity|done|done|]. intros H4 i4 Hdeaf4 Hopen4 Hs4.
  eapply inSequence_binding; [reflexivity|done|done|]. intros H5 i5 Hdeaf5 Hopen5 Hs5.
  eapply inSequence_binding; [reflexivity|done|done|]. intros H6 i6 Hdeaf6 Hopen6 Hs6.
  eapply inSequence_binding; [reflexivity|done|done|]. intros H7 i7 _ _ _.
  exfalso. rewrite Hs6, Hs5, Hs4, Hs3, Hs2, Hs1, Hs0 in H7.
  rewrite Hs5, Hs4, Hs3, Hs2, Hs1, Hs0 in H6.
  rewrite Hs4, Hs3, Hs2, Hs1, Hs0 in H5.
  rewrite Hs3, Hs2, Hs1, Hs0 in H4.
  simpl in Hin.
  repeat (destruct Hin as [[= <- <-]|Hin]; [congruence|]). done.
Qed.

Lemma setup_binding_rejected_witness :
  let i := Cases.instanceWith true Cases.monitor in
  In (JobListener, Release) (setupBindings (i_schedulerId i))
  /\ fst (setup Cases.pulseRefusingRelease i) = Rejected Cases.unavailable
  /\ deaf (snd (setup Cases.pulseRefusingRelease i)).
Proof.
  assert (In (JobListener, Release)
            (setupBindings (i_schedulerId (Cases.instanceWith true Cases.monitor))))
    as Hin by (simpl; tauto).
  destruct (setup_binding_rejected Cases.pulseRefusingRelease
              (Cases.instanceWith true Cases.monitor) JobListener Release
              Cases.unavailable eq_refl Hin eq_refl)
    as (e' & _ & Hdeaf & _).
  split; [exact Hin|]. split; [reflexivity|exact Hdeaf].
Defined.

Lemma setup_once_witness :
  let i := Cases.instanceWith false Cases.monitor in
  isOpen (i_connection i) = false
  /\ fst (setup Cases.pulse (snd (setup Cases.pulse i)))
     = Rejected (Js.AssertionError "Cannot setup twice!").
Proof.
  destruct (setup_once Cases.pulse (Cases.instanceWith false Cases.monitor))
    as [_ Hclosed].
  destruct (Hclosed eq_refl) as [_ Hagain].
  split; [reflexivity|]. by rewrite Hagain.
Defined.

(** X26.  terminate (lines 124-130) on an instance that setup has
    connected.  When the connection closes, the instance has no
    connection any more: a further terminate does nothing and asks nothing
    of the pulse library, and setup passes its assertion again.  When the
    closing is rejected, terminate is rejected with that error, the
    connection stays, and setup is still turned down. *)
Theorem terminate_closes P i :
  isOpen (i_connection i) = true ->
  (pulse_close P = Resolved tt ->
   fst (terminate P i) = Resolved tt
   /\ isOpen (i_connection (snd (terminate P i))) = false
   /\ (forall P', terminate P' (snd (terminate P i)) = (Resolved tt, snd (terminate P i)))
   /\ (forall P',
         i_connection (snd (setup P' (snd (terminate P i))))
         = ConnectionOpen (i_credentials i)))
  /\ (forall e,
        pulse_close P = Rejected e ->
        terminate P i = (Rejected e, i)
        /\ forall P',
             setup P' i = (Rejected (Js.AssertionError "Cannot setup twice!"), i)).
Proof.
  intros Hopen. split.
  - intros Hclose.
    assert (terminate P i = (Resolved tt, setConnection ConnectionUndefined i)) as ->
      by (unfold terminate; by rewrite Hopen, Hclose).
    cbn [fst snd]. split; [done|]. split; [done|]. split; [done|]. intros P'.
    exact (setup_connects P' (setConnection ConnectionUndefined i) eq_refl).
  - intros e Hclose. unfold terminate. rewrite Hopen, Hclose.
    split; [done|]. intros P'. by apply setup_open.
Qed.

Lemma terminate_closes_witness :
  let i := snd (setup Cases.pulse (Cases.instanceWith false Cases.monitor)) in
  isOpen (i_connection i) = true
  /\ fst (terminate Cases.pulse i) = Resolved tt
  /\ isOpen (i_connection (snd (terminate Cases.pulse i))) = false.
Proof.
  destruct (terminate_closes Cases.pulse
              (snd (setup Cases.pulse (Cases.instanceWith false Cases.monitor)))
              eq_refl) as [Hclosed _].
  destruct (Hclosed eq_refl) as (Hrun & Hconn & _).
  split; [reflexivity|]. split; [exact Hrun|exact Hconn].
Defined.

Lemma deliver_unsignalled i calls s :
  i_handlerComplete i = false ->
  i_handlerRejected i = false ->
  sv_completed (snd (deliver i calls s)) = sv_completed s
  /\ sv_rejected (snd (deliver i calls s)) = sv_rejected s.
Proof.
  intros Hcomplete Hrejected. revert s.
  induction calls as [|call calls IH]; intros s; [done|].
  rewrite deliver_cons. simpl.
  destruct (IH (snd (callHandler i call s))) as [-> ->].
  unfold callHandler, reportToMonitor, callHooks. rewrite Hcomplete, Hrejected.
  destruct (call (sv_world s)) as [[u|err] w']; simpl; [done|].
  by destruct (reportError (i_monitor i) err).
Qed.

(** X27.  The instance the constructor makes (lines 36-57), when its four
    assertions pass: the root URL is a string that is not empty; there is
    no connection and no listener, so that terminate does nothing and
    setup, with a pulse library that accepts every request, resolves; the
    two test hooks are not assigned, so that the wrapper of lines 99-111
    signals no message, however the handlers end. *)
Theorem Handlers_new_ready schedulerId args i :
  Handlers_new schedulerId args = Resolved i ->
  (exists rootUrl, a_rootUrl args = Some rootUrl /\ rootUrl <> EmptyString)
  /\ deaf i
  /\ (forall P, terminate P i = (Resolved tt, i))
  /\ (forall P, pulseAccepts P -> fst (setup P i) = Resolved tt)
  /\ (forall calls s,
        sv_completed (snd (deliver i calls s)) = sv_completed s
        /\ sv_rejected (snd (deliver i calls s)) = sv_rejected s).
Proof.
  unfold Handlers_new. intros Hnew.
  destruct (a_monitor args) as [monitor|]; [|done].
  destruct (a_reference args) as [reference|]; [|done].
  destruct (a_rootUrl args) as [[|c rootUrl]|] eqn:Hroot; simpl in Hnew; try done.
  destruct (a_intree args) as [intree|]; [|done].
  injection Hnew as <-. split; [by eexists|]. split; [by intros [] l|].
  split; [done|]. split.
  - intros P HP. by rewrite setup_accepted.
  - intros calls s. by apply deliver_unsignalled.
Qed.

Lemma Handlers_new_ready_witness :
  exists i,
    Handlers_new "tc-github" Cases.args = Resolved i
    /\ fst (setup Cases.pulse i) = Resolved tt.
Proof.
  eexists. split; [reflexivity|].
  apply (Handlers_new_ready "tc-github" Cases.args _ eq_refl).
  by repeat split.
Defined.
